(** * Financial-statement ingestion: data sources, file watcher, broker consumer

    A shallow embedding of
      - utils/file_watcher/file_watcher.py   (module [FileWatcher])
      - utils/kafka/consumer.py              (module [Kafka])
      - utils/data_sources/data_source_factory.py (module [DataSources])

    Python objects become records, mutation becomes explicit state passing,
    exceptions become the [Raise] constructor of [outcome], and the two
    generators ([consume_messages]) become resumable state machines that are
    advanced with [gen_next] and simply dropped when the consuming [for]
    loop executes [break].

    Time is an integer clock in milliseconds.  Everything that happens
    outside the calling thread (producers writing files, files vanishing,
    watchdog events) is a timed [schedule] that is played while the calling
    thread sleeps. *)

From Stdlib Require Import ZArith String Ascii List Bool Lia.
From stdpp Require Import base option list gmap strings sorting numbers pretty.

Open Scope Z_scope.
Set Warnings "-register-all".

(** ** Python values, exceptions, outcomes *)

Inductive json :=
| JNull
| JBool (b : bool)
| JNum (n : Z)
| JStr (s : string)
| JArr (items : list json)
| JObj (fields : list (string * json)).

Inductive exn :=
| RuntimeError (msg : string)
| ValueError (msg : string)
| TypeError (msg : string)
| KeyError (key : string)
| OSError (msg : string)
| JSONDecodeError (msg : string)
| KafkaTimeoutError
| KafkaError (msg : string).

Inductive outcome (A : Type) :=
| Ret (a : A)
| Raise (e : exn).
Arguments Ret {A} a.
Arguments Raise {A} e.

Definition raises {A} (o : outcome A) : Prop :=
  match o with Ret _ => False | Raise _ => True end.

(** What [open(...)] followed by [json.load] does with a file's text. *)
Inductive load_result :=
| Loaded (data : json)
| DecodeError (msg : string)      (* json.JSONDecodeError, [msg] is [str(e)] *)
| OtherError (msg : string).      (* any other exception while reading *)

(** Library functions the code calls; they are not part of the repository. *)
Class Runtime := {
  strftime : Z -> string;                   (* datetime.strftime('%Y%m%d_%H%M%S') *)
  isoformat : Z -> string;                  (* datetime.isoformat() *)
  json_load : string -> load_result;        (* open + json.load on the file text *)
  validate_statement_message : json -> option json
    (* StatementValidator.validate_statement_message, which wraps jsonschema
       and pydantic: the validated record, or None; its body catches every
       exception.  Nothing below depends on what it accepts. *)
}.

(** ** Strings and paths *)

Fixpoint sdrop (n : nat) (s : string) : string :=
  match n, s with
  | O, _ => s
  | S n', String _ s' => sdrop n' s'
  | S _, EmptyString => EmptyString
  end.

Fixpoint stake (n : nat) (s : string) : string :=
  match n, s with
  | S n', String c s' => String c (stake n' s')
  | _, _ => EmptyString
  end.

(** str.endswith *)
Definition ends_with (s suffix : string) : bool :=
  let n := String.length s in
  let m := String.length suffix in
  (m <=? n)%nat && String.eqb (sdrop (n - m) s) suffix.

(** str.lower, for text in ASCII: only A-Z change.  On other text Python
    also lowers letters outside ASCII; statements that rest on [lower] for
    arbitrary input carry [is_ascii]. *)
Definition lower_ascii (c : ascii) : ascii :=
  let n := nat_of_ascii c in
  if ((65 <=? n) && (n <=? 90))%nat then ascii_of_nat (n + 32) else c.

Fixpoint lower (s : string) : string :=
  match s with
  | EmptyString => EmptyString
  | String c s' => String (lower_ascii c) (lower s')
  end.

(** str.isascii *)
Definition is_ascii (s : string) : bool :=
  forallb (fun c => (nat_of_ascii c <? 128)%nat) (list_ascii_of_string s).

(** repr of a str, for text in ASCII: single quotes unless the text holds a
    single quote and no double quote; the quote and the backslash are
    escaped, tab, newline and carriage return are written \t, \n, \r, other
    control characters \xhh. *)
Definition double_quote : ascii := ascii_of_nat 34.
Definition backslash : ascii := ascii_of_nat 92.

Definition hex_digit (n : nat) : ascii :=
  nth n (list_ascii_of_string "0123456789abcdef") "0"%char.

Definition repr_char (quote c : ascii) : string :=
  let n := nat_of_ascii c in
  if Ascii.eqb c quote || Ascii.eqb c backslash
  then String backslash (String c EmptyString)
  else if (n =? 9)%nat then String backslash "t"
  else if (n =? 10)%nat then String backslash "n"
  else if (n =? 13)%nat then String backslash "r"
  else if ((n <? 32) || (n =? 127))%nat
  then String backslash
         (String "x" (String (hex_digit (n / 16)) (String (hex_digit (n mod 16))
            EmptyString)))
  else String c EmptyString.

Definition repr (s : string) : string :=
  let chars := list_ascii_of_string s in
  let quote :=
    if existsb (Ascii.eqb "'") chars && negb (existsb (Ascii.eqb double_quote) chars)
    then double_quote else "'"%char in
  String quote
    (fold_right (fun c acc => repr_char quote c +:+ acc)
                (String quote EmptyString) chars).

(** [fnmatch] restricted to literals, [?] and [*]. *)
Fixpoint fnmatch_chars (p : list ascii) : list ascii -> bool :=
  match p with
  | [] => fun s => match s with [] => true | _ => false end
  | c :: p' =>
      if Ascii.eqb c "*" then
        fix star (s : list ascii) : bool :=
          fnmatch_chars p' s ||
          match s with [] => false | _ :: s' => star s' end
      else if Ascii.eqb c "?" then
        fun s => match s with [] => false | _ :: s' => fnmatch_chars p' s' end
      else
        fun s => match s with
                 | [] => false
                 | d :: s' => Ascii.eqb c d && fnmatch_chars p' s'
                 end
  end.

Definition fnmatch (name pattern : string) : bool :=
  fnmatch_chars (list_ascii_of_string pattern) (list_ascii_of_string name).

Definition dot_json : list ascii := list_ascii_of_string ".json".

(** pathlib: index of the last dot, [PurePath.suffix], [with_suffix]. *)
Fixpoint rfind_dot (s : string) : option nat :=
  match s with
  | EmptyString => None
  | String c s' =>
      match rfind_dot s' with
      | Some i => Some (S i)
      | None => if Ascii.eqb c "." then Some 0%nat else None
      end
  end.

Definition suffix (name : string) : string :=
  match rfind_dot name with
  | Some i =>
      if ((0 <? i) && (i <? String.length name - 1))%nat then sdrop i name
      else EmptyString
  | None => EmptyString
  end.

Definition with_suffix (name new_suffix : string) : string :=
  let old_suffix := suffix name in
  match old_suffix with
  | EmptyString => name +:+ new_suffix
  | _ => stake (String.length name - String.length old_suffix) name +:+ new_suffix
  end.

Fixpoint last_char (s : string) : option ascii :=
  match s with
  | EmptyString => None
  | String c s' => match s' with EmptyString => Some c | _ => last_char s' end
  end.

(** ** The world outside the process *)

Record file := { content : string; mtime : Z }.

Definition st_size (f : file) : Z := Z.of_nat (String.length (content f)).

Inductive fs_event :=
| Created (is_directory : bool) (src_path : string)
| Moved (is_directory : bool) (dest_path : string).

Inductive action :=
| Put (name : string) (text : string)     (* a producer (over)writes an input file *)
| Remove (name : string)                  (* an input file is deleted or moved away *)
| Event (ev : fs_event).                  (* the watch delivers an event to the handler *)

(** Messages the broker client delivers while it is iterated. *)
Inductive kafka_event :=
| KRecord (value : json)                  (* a deserialized message *)
| KFault (e : exn).                       (* the client raises [e] *)

Record world := {
  now : Z;                                 (* clock, milliseconds *)
  input_dir : gmap string file;
  archive_dir : gmap string file;
  error_dir : gmap string file;
  archive_writable : bool;                 (* can files be moved into archive_dir *)
  error_writable : bool;                   (* can files be created in error_dir *)
  watch_startable : bool;                  (* does Observer.start() succeed *)
  watch_stoppable : bool;                  (* does Observer.stop() succeed *)
  schedule : list (Z * action);            (* timed actions of other processes *)
  broker_reachable : bool;                 (* does KafkaConsumer(...) succeed *)
  broker_stream : list kafka_event;        (* messages ready on the topic *)
  broker_closable : bool                   (* does KafkaConsumer.close() succeed *)
}.

Definition set_now (t : Z) (w : world) : world :=
  {| now := t; input_dir := input_dir w; archive_dir := archive_dir w;
     error_dir := error_dir w; archive_writable := archive_writable w;
     error_writable := error_writable w; watch_startable := watch_startable w;
     watch_stoppable := watch_stoppable w; schedule := schedule w;
     broker_reachable := broker_reachable w; broker_stream := broker_stream w;
     broker_closable := broker_closable w |}.

Definition set_input (d : gmap string file) (w : world) : world :=
  {| now := now w; input_dir := d; archive_dir := archive_dir w;
     error_dir := error_dir w; archive_writable := archive_writable w;
     error_writable := error_writable w; watch_startable := watch_startable w;
     watch_stoppable := watch_stoppable w; schedule := schedule w;
     broker_reachable := broker_reachable w; broker_stream := broker_stream w;
     broker_closable := broker_closable w |}.

Definition set_archive (d : gmap string file) (w : world) : world :=
  {| now := now w; input_dir := input_dir w; archive_dir := d;
     error_dir := error_dir w; archive_writable := archive_writable w;
     error_writable := error_writable w; watch_startable := watch_startable w;
     watch_stoppable := watch_stoppable w; schedule := schedule w;
     broker_reachable := broker_reachable w; broker_stream := broker_stream w;
     broker_closable := broker_closable w |}.

Definition set_error (d : gmap string file) (w : world) : world :=
  {| now := now w; input_dir := input_dir w; archive_dir := archive_dir w;
     error_dir := d; archive_writable := archive_writable w;
     error_writable := error_writable w; watch_startable := watch_startable w;
     watch_stoppable := watch_stoppable w; schedule := schedule w;
     broker_reachable := broker_reachable w; broker_stream := broker_stream w;
     broker_closable := broker_closable w |}.

Definition set_schedule (s : list (Z * action)) (w : world) : world :=
  {| now := now w; input_dir := input_dir w; archive_dir := archive_dir w;
     error_dir := error_dir w; archive_writable := archive_writable w;
     error_writable := error_writable w; watch_startable := watch_startable w;
     watch_stoppable := watch_stoppable w; schedule := s;
     broker_reachable := broker_reachable w; broker_stream := broker_stream w;
     broker_closable := broker_closable w |}.

Definition set_stream (s : list kafka_event) (w : world) : world :=
  {| now := now w; input_dir := input_dir w; archive_dir := archive_dir w;
     error_dir := error_dir w; archive_writable := archive_writable w;
     error_writable := error_writable w; watch_startable := watch_startable w;
     watch_stoppable := watch_stoppable w; schedule := schedule w;
     broker_reachable := broker_reachable w; broker_stream := s;
     broker_closable := broker_closable w |}.

(** [Path.exists()] for a path of the input directory. *)
Definition exists_ (path : string) (w : world) : bool :=
  bool_decide (is_Some (input_dir w !! path)).

(** [shutil.move(src, dst)]: [None] when it raises. *)
Definition move (src : string) (dst_writable : bool) (w : world)
  : option (file * world) :=
  match input_dir w !! src with
  | Some f => if dst_writable then Some (f, set_input (delete src (input_dir w)) w)
              else None
  | None => None
  end.

(** One timed action of the outside world applied to the directories. *)
Definition apply_action (t : Z) (a : action) (w : world) : world :=
  match a with
  | Put name text =>
      set_input (<[name := {| content := text; mtime := t |}]> (input_dir w)) w
  | Remove name => set_input (delete name (input_dir w)) w
  | Event _ => w
  end.

Definition due (t : Z) (item : Z * action) : bool := item.1 <=? t.

Definition is_event (a : action) : bool :=
  match a with Event _ => true | _ => false end.

(** No watch event is scheduled: nothing will be enqueued from outside. *)
Definition quiet (w : world) : Prop :=
  Forall (fun item => is_event item.2 = false) (schedule w).

Definition nl : string := String (ascii_of_nat 10) EmptyString.

Definition len {A} (l : list A) : Z := Z.of_nat (length l).

(** [Path.glob(pattern)] on a directory: the names that match. *)
Definition glob (pattern : string) (dir : gmap string file) : list (string * file) :=
  filter (fun e => Is_true (fnmatch e.1 pattern)) (map_to_list dir).

Definition by_mtime (a b : string * file) : Prop := mtime a.2 <= mtime b.2.

#[global] Instance by_mtime_dec : RelDecision by_mtime :=
  fun a b => Z_le_dec (mtime a.2) (mtime b.2).

(** * utils/file_watcher/file_watcher.py *)
Module FileWatcher.

Record FileWatcherConfig := {
  file_pattern : string;
  process_existing : bool;
  batch_size : Z;
  polling_interval : Z                     (* seconds *)
}.

Definition default_config : FileWatcherConfig :=
  {| file_pattern := "*.json"; process_existing := true;
     batch_size := 50; polling_interval := 5 |}.

(** The watchdog observer is a thread. *)
Inductive observer_state := NotStarted | Alive | Stopped.

Definition is_alive (o : observer_state) : bool :=
  match o with Alive => true | _ => false end.

(** class FinancialStatementFileWatcher *)
Record watcher := {
  config : FileWatcherConfig;
  file_queue : list string;
  observer : option observer_state;
  is_connected : bool
}.

Definition set_queue (q : list string) (fw : watcher) : watcher :=
  {| config := config fw; file_queue := q; observer := observer fw;
     is_connected := is_connected fw |}.

Definition set_observer (o : option observer_state) (fw : watcher) : watcher :=
  {| config := config fw; file_queue := file_queue fw; observer := o;
     is_connected := is_connected fw |}.

Definition set_connected (b : bool) (fw : watcher) : watcher :=
  {| config := config fw; file_queue := file_queue fw; observer := observer fw;
     is_connected := b |}.

Definition state : Type := world * watcher.

(** __init__ *)
Definition init (cfg : option FileWatcherConfig) : watcher :=
  {| config := default default_config cfg; file_queue := [];
     observer := None; is_connected := false |}.

(** add_file_to_queue *)
Definition add_file_to_queue (file_path : string) (w : world) (fw : watcher) : watcher :=
  if exists_ file_path w && bool_decide (file_path ∉ file_queue fw)
  then set_queue (file_queue fw ++ [file_path]) fw
  else fw.

(** FinancialStatementFileHandler.on_created / on_moved.  The handler's own
    one-second delay runs on the observer thread; the time of the scheduled
    event is the time at which the handler reaches [add_file_to_queue]. *)
Definition on_created (is_directory : bool) (src_path : string)
    (w : world) (fw : watcher) : watcher :=
  if negb is_directory && ends_with src_path ".json"
  then add_file_to_queue src_path w fw else fw.

Definition on_moved (is_directory : bool) (dest_path : string)
    (w : world) (fw : watcher) : watcher :=
  if negb is_directory && ends_with dest_path ".json"
  then add_file_to_queue dest_path w fw else fw.

Definition dispatch (ev : fs_event) (w : world) (fw : watcher) : watcher :=
  match observer fw with
  | Some Alive =>
      match ev with
      | Created d p => on_created d p w fw
      | Moved d p => on_moved d p w fw
      end
  | _ => fw
  end.

(** The scheduled actions that fall into a sleep, in order. *)
Fixpoint play (items : list (Z * action)) (w : world) (fw : watcher) : state :=
  match items with
  | [] => (w, fw)
  | (t, a) :: rest =>
      let w1 := apply_action t a w in
      let fw1 := match a with Event ev => dispatch ev w1 fw | _ => fw end in
      play rest w1 fw1
  end.

(** time.sleep(ms / 1000), for ms >= 0.  The clock of [world] advances
    here and nowhere else: what the process does between two sleeps takes no
    time in this model. *)
Definition sleep (ms : Z) (st : state) : state :=
  let '(w, fw) := st in
  let t := now w + ms in
  let sched := schedule w in
  play (filter (fun i => Is_true (due t i)) sched)
       (set_now t (set_schedule (filter (fun i => ¬ Is_true (due t i)) sched) w)) fw.

(** _is_file_ready *)
Definition _is_file_ready (file_path : string) (st : state) : bool * state :=
  match input_dir st.1 !! file_path with
  | None => (false, st)                        (* stat() raises *)
  | Some f =>
      let initial_size := st_size f in
      let st1 := sleep 500 st in
      match input_dir st1.1 !! file_path with
      | None => (false, st1)                   (* file was moved/deleted *)
      | Some f1 =>
          let final_size := st_size f1 in
          ((initial_size =? final_size) && (0 <? final_size), st1)
      end
  end.

(** _scan_existing_files *)
Definition scan_step (st : state) (file_path : string) : state :=
  let '(ready, (w1, fw1)) := _is_file_ready file_path st in
  if ready then (w1, add_file_to_queue file_path w1 fw1) else (w1, fw1).

(** The listing sorted by modification time.  Among files of equal
    modification time the code keeps the order in which the directory was
    listed, which is not part of [world]; statements that name the exact
    order assume the modification times distinct. *)
Definition json_files (w : world) : list string :=
  (merge_sort by_mtime (glob "*.json" (input_dir w))).*1.

Definition _scan_existing_files (st : state) : state :=
  fold_left scan_step (json_files st.1) st.

(** connect *)
Definition connect (st : state) : bool * state :=
  let '(w, fw) := st in
  if is_connected fw then (true, st)
  else
    let '(w1, fw1) :=
      if process_existing (config fw) then _scan_existing_files st else st in
    if watch_startable w1
    then (true, (w1, set_connected true (set_observer (Some Alive) fw1)))
    else (false, (w1, set_observer (Some NotStarted) fw1)).

Section WithRuntime.
Context {RT : Runtime}.

(** _archive_file *)
Definition _archive_file (file_path : string) (w : world) : world :=
  match move file_path (archive_writable w) w with
  | Some (f, w1) =>
      let timestamp := strftime (now w) in
      let archive_name := timestamp +:+ "_" +:+ file_path in
      set_archive (<[archive_name := f]> (archive_dir w1)) w1
  | None =>
      (* archiving failed: remove the original, ignoring any failure *)
      set_input (delete file_path (input_dir w)) w
  end.

Definition error_report (name : string) (t : Z) (error_message : string) : string :=
  "Error processing file: " +:+ name +:+ nl +:+
  "Timestamp: " +:+ isoformat t +:+ nl +:+
  "Error: " +:+ error_message +:+ nl.

(** _move_file_to_error *)
Definition _move_file_to_error (file_path error_message : string) (w : world) : world :=
  match move file_path (error_writable w) w with
  | Some (f, w1) =>
      let timestamp := strftime (now w) in
      let error_name := timestamp +:+ "_" +:+ file_path in
      let error_report_path := with_suffix error_name ".error.txt" in
      let report := {| content := error_report file_path (now w) error_message;
                       mtime := now w |} in
      set_error (<[error_report_path := report]> (<[error_name := f]> (error_dir w1))) w1
  | None => w                                   (* logged, nothing else *)
  end.

(** *** consume_messages: a generator

    A generator object is the suspended body of [consume_messages]: its
    locals ([frame]) and the point at which it is suspended. *)
Record frame := {
  max_messages : Z;
  message_count : Z;
  processed_files : list string
}.

Definition count_message (fr : frame) : frame :=
  {| max_messages := max_messages fr; message_count := message_count fr + 1;
     processed_files := processed_files fr |}.

Definition mark_processed (file_path : string) (fr : frame) : frame :=
  {| max_messages := max_messages fr; message_count := message_count fr;
     processed_files := processed_files fr ++ [file_path] |}.

Inductive generator :=
| Fresh (max_messages : Z)                  (* created, body not yet entered *)
| AtYieldItem (fr : frame) (file_path : string) (rest : list json)
                                            (* suspended at [yield item] *)
| AtYieldData (fr : frame) (file_path : string)
                                            (* suspended at [yield data] *)
| Finished.

Inductive step :=
| Yield (value : json) (g : generator)
| StopIteration
| Raised (e : exn).

(** How many more values a generator may still yield. *)
Definition budget (g : generator) : Z :=
  match g with
  | Fresh max => max
  | AtYieldItem fr _ _ | AtYieldData fr _ =>
      max_messages fr - message_count fr - 1
  | Finished => 0
  end.

(** for item in data: if message_count >= max_messages: break; yield item *)
Definition for_item (fr : frame) (data : list json) : option (json * list json) :=
  match data with
  | [] => None
  | item :: rest =>
      if max_messages fr <=? message_count fr then None else Some (item, rest)
  end.

(** for file_path in processed_files: self._archive_file(file_path) *)
Definition archive_processed (fr : frame) (w : world) : world :=
  fold_left (fun w file_path => _archive_file file_path w) (processed_files fr) w.

(** The [while message_count < max_messages and self.file_queue] loop, run
    from its head until the next [yield] or until the generator returns.
    The result carries what is left of [file_queue]. *)
Fixpoint while_files (queue : list string) (fr : frame) (w : world)
  : step * list string * world :=
  match queue with
  | [] => (StopIteration, [], archive_processed fr w)
  | file_path :: queue1 =>
      if message_count fr <? max_messages fr then
        (* file_path = self.file_queue.pop(0) *)
        match input_dir w !! file_path with
        | None => while_files queue1 fr w             (* no longer exists: continue *)
        | Some f =>
            match json_load (content f) with
            | Loaded (JArr data) =>
                match for_item fr data with
                | Some (item, rest) =>
                    (Yield item (AtYieldItem fr file_path rest), queue1, w)
                | None => while_files queue1 (mark_processed file_path fr) w
                end
            | Loaded data => (Yield data (AtYieldData fr file_path), queue1, w)
            | DecodeError msg =>
                while_files queue1 fr
                  (_move_file_to_error file_path ("JSON decode error: " +:+ msg) w)
            | OtherError msg =>
                while_files queue1 fr
                  (_move_file_to_error file_path ("Processing error: " +:+ msg) w)
            end
        end
      else (StopIteration, queue, archive_processed fr w)
  end.

Definition enter_while (fr : frame) (st : state) : step * state :=
  let '(w, fw) := st in
  let '(s, queue, w1) := while_files (file_queue fw) fr w in
  (s, (w1, set_queue queue fw)).

(** Resume the generator: [next(g)]. *)
Definition gen_next (g : generator) (st : state) : step * state :=
  match g with
  | Fresh max =>
      let fr := {| max_messages := max; message_count := 0; processed_files := [] |} in
      if is_connected st.2 then enter_while fr st
      else
        let '(ok, st1) := connect st in
        if ok then enter_while fr st1
        else (Raised (RuntimeError "Failed to establish file watcher connection"), st1)
  | AtYieldItem fr file_path rest =>
      let fr1 := count_message fr in
      match for_item fr1 rest with
      | Some (item, rest1) => (Yield item (AtYieldItem fr1 file_path rest1), st)
      | None => enter_while (mark_processed file_path fr1) st
      end
  | AtYieldData fr file_path =>
      enter_while (mark_processed file_path (count_message fr)) st
  | Finished => (StopIteration, st)
  end.

(** consume_messages(max_messages) only creates the generator object. *)
Definition consume_messages (max_messages : Z) : generator := Fresh max_messages.

(** *** consume_batch

    [for message in g: messages.append(message); if len(messages) >=
    batch_size: break].  On [break] the generator [g] is dropped where it is
    suspended: its body has no [finally] and catches only [Exception], so
    closing it runs no further statement. *)
Fixpoint for_messages (fuel : nat) (batch_size : Z) (g : generator)
    (messages : list json) (st : state) : option (outcome (list json) * state) :=
  match fuel with
  | O => None
  | S fuel1 =>
      match gen_next g st with
      | (Yield message g1, st1) =>
          let messages1 := messages ++ [message] in
          if batch_size <=? len messages1 then Some (Ret messages1, st1)
          else for_messages fuel1 batch_size g1 messages1 st1
      | (StopIteration, st1) => Some (Ret messages, st1)
      | (Raised e, st1) => Some (Raise e, st1)
      end
  end.

(** while len(messages) < batch_size and (time.time() - start_time) < timeout_seconds *)
Fixpoint wait_for_files (fuel : nat) (batch_size timeout_ms start_time : Z)
    (messages : list json) (st : state) : option (outcome (list json) * state) :=
  match fuel with
  | O => None
  | S fuel1 =>
      if (len messages <? batch_size) && (now st.1 - start_time <? timeout_ms) then
        match file_queue st.2 with
        | [] =>
            let seconds := polling_interval (config st.2) in
            if seconds <? 0
            then Some (Raise (ValueError "sleep length must be non-negative"), st)
            else wait_for_files fuel1 batch_size timeout_ms start_time messages
                   (sleep (seconds * 1000) st)
        | _ :: _ =>
            match for_messages fuel1 batch_size
                    (consume_messages (batch_size - len messages)) messages st with
            | Some (Ret messages1, st1) =>
                wait_for_files fuel1 batch_size timeout_ms start_time messages1 st1
            | other => other
            end
        end
      else Some (Ret messages, st)
  end.

Definition consume_batch (fuel : nat) (batch_size timeout_ms : Z) (st : state)
  : option (outcome (list json) * state) :=
  let start_time := now st.1 in
  match for_messages fuel batch_size (consume_messages batch_size) [] st with
  | Some (Ret messages, st1) =>
      wait_for_files fuel batch_size timeout_ms start_time messages st1
  | other => other
  end.

(** *** Vocabulary for the properties below *)

(** The records a queued file contributes when it is read in world [w]. *)
Definition records_of (w : world) (file_path : string) : list json :=
  match input_dir w !! file_path with
  | Some f =>
      match json_load (content f) with
      | Loaded (JArr data) => data
      | Loaded data => [data]
      | _ => []
      end
  | None => []
  end.

(** Items of the file a suspended generator is in the middle of. *)
Definition pending (g : generator) : list json :=
  match g with AtYieldItem _ _ rest => rest | _ => [] end.

(** Everything a generator would yield if it were never cut short. *)
Definition upcoming (g : generator) (st : state) : list json :=
  pending g ++ flat_map (records_of st.1) (file_queue st.2).

(** The world a generator leaves behind when it runs to its end without
    reaching [max_messages]: the loop of [consume_messages] with the yields
    erased. *)
Fixpoint settle (queue processed : list string) (w : world) : world :=
  match queue with
  | [] => fold_left (fun w file_path => _archive_file file_path w) processed w
  | file_path :: queue1 =>
      match input_dir w !! file_path with
      | None => settle queue1 processed w
      | Some f =>
          match json_load (content f) with
          | Loaded _ => settle queue1 (processed ++ [file_path]) w
          | DecodeError msg =>
              settle queue1 processed
                (_move_file_to_error file_path ("JSON decode error: " +:+ msg) w)
          | OtherError msg =>
              settle queue1 processed
                (_move_file_to_error file_path ("Processing error: " +:+ msg) w)
          end
      end
  end.

Definition finish (g : generator) (st : state) : world :=
  match g with
  | Fresh _ => settle (file_queue st.2) [] st.1
  | AtYieldItem fr file_path _ | AtYieldData fr file_path =>
      settle (file_queue st.2) (processed_files fr ++ [file_path]) st.1
  | Finished => st.1
  end.

(** The name under which a file is archived or quarantined at time [t]. *)
Definition stamped (t : Z) (name : string) : string :=
  strftime t +:+ "_" +:+ name.

End WithRuntime.

(** Clock, schedule and directory permissions are the same in both worlds. *)
Definition same_env (w w1 : world) : Prop :=
  now w1 = now w /\ schedule w1 = schedule w /\
  archive_writable w1 = archive_writable w /\
  error_writable w1 = error_writable w.

(** Same watcher apart from its queue, same surroundings. *)
Definition carries_on (st st1 : state) : Prop :=
  same_env st.1 st1.1 /\ is_connected st1.2 = is_connected st.2 /\
  config st1.2 = config st.2 /\ observer st1.2 = observer st.2.

(** Same configuration, and the clock has not gone back. *)
Definition later (st st1 : state) : Prop :=
  config st1.2 = config st.2 /\ now st.1 <= now st1.1.

(** get_queue_size, get_statistics *)
Definition get_queue_size (fw : watcher) : Z := len (file_queue fw).

Record statistics := {
  stat_is_connected : bool;
  queue_size : Z;
  input_files_pending : Z;
  archived_files : Z;
  error_files : Z
}.

Definition get_statistics (st : state) : statistics :=
  {| stat_is_connected := is_connected st.2;
     queue_size := get_queue_size st.2;
     input_files_pending := len (glob "*.json" (input_dir st.1));
     archived_files := len (glob "*.json" (archive_dir st.1));
     error_files := len (glob "*.json" (error_dir st.1)) |}.

(** close: the whole body is inside [try ... except Exception]. *)
Definition close (st : state) : outcome unit * state :=
  let '(w, fw) := st in
  match observer fw with
  | Some Alive =>
      if watch_stoppable w
      then (Ret tt, (w, set_connected false (set_observer (Some Stopped) fw)))
      else (Ret tt, st)                    (* stop() raised: logged, flag untouched *)
  | _ => (Ret tt, (w, set_connected false fw))
  end.

End FileWatcher.

(** * Configuration dictionaries

    A [Dict] passed as [config]: every key may be absent.  The directory
    keys are not represented, the three directories are those of [world]. *)
Module Config.

Definition present {A} (o : option A) : bool :=
  match o with Some _ => true | None => false end.

Record Dict := {
  bootstrap_servers : option string;
  topic : option string;
  group_id : option string;
  auto_offset_reset : option string;
  enable_auto_commit : option bool;
  consumer_timeout_ms : option Z;
  file_pattern : option string;
  process_existing : option bool;
  batch_size : option Z;
  polling_interval : option Z
}.

Definition empty : Dict :=
  {| bootstrap_servers := None; topic := None; group_id := None;
     auto_offset_reset := None; enable_auto_commit := None;
     consumer_timeout_ms := None; file_pattern := None;
     process_existing := None; batch_size := None; polling_interval := None |}.

(** Truth value of a dict: false exactly when it has no key. *)
Definition truthy (d : Dict) : bool :=
  present (bootstrap_servers d) || present (topic d) || present (group_id d)
  || present (auto_offset_reset d) || present (enable_auto_commit d)
  || present (consumer_timeout_ms d) || present (file_pattern d)
  || present (process_existing d) || present (batch_size d)
  || present (polling_interval d).

(** config/airflow_config.py, with the environment variables unset *)
Definition KAFKA_CONFIG : Dict :=
  {| bootstrap_servers := Some "localhost:9092";
     topic := Some "financial-statements";
     group_id := Some "airflow-statement-processor";
     auto_offset_reset := Some "latest";
     enable_auto_commit := Some true;
     consumer_timeout_ms := Some 10000;
     file_pattern := None; process_existing := None;
     batch_size := None; polling_interval := None |}.

End Config.

(** * utils/kafka/consumer.py *)
Module Kafka.

(** A connected kafka.KafkaConsumer; it remembers its per-poll timeout. *)
Record client := { client_timeout_ms : Z }.

(** class FinancialStatementConsumer *)
Record FinancialStatementConsumer := {
  config : Config.Dict;
  consumer : option client
}.

Definition state : Type := world * FinancialStatementConsumer.

(** __init__: [self.config = config or KAFKA_CONFIG] *)
Definition init (cfg : option Config.Dict) : FinancialStatementConsumer :=
  {| config := match cfg with
               | Some d => if Config.truthy d then d else Config.KAFKA_CONFIG
               | None => Config.KAFKA_CONFIG
               end;
     consumer := None |}.

(** The first key read with [self.config[...]] that is missing. *)
Definition missing_key (d : Config.Dict) : option string :=
  if negb (Config.present (Config.topic d)) then Some "topic"
  else if negb (Config.present (Config.bootstrap_servers d)) then Some "bootstrap_servers"
  else if negb (Config.present (Config.group_id d)) then Some "group_id"
  else if negb (Config.present (Config.auto_offset_reset d)) then Some "auto_offset_reset"
  else if negb (Config.present (Config.enable_auto_commit d)) then Some "enable_auto_commit"
  else if negb (Config.present (Config.consumer_timeout_ms d)) then Some "consumer_timeout_ms"
  else None.

(** connect: only KafkaError is caught. *)
Definition connect (st : state) : outcome bool * state :=
  let '(w, c) := st in
  match missing_key (config c) with
  | Some k => (Raise (KeyError k), st)
  | None =>
      if broker_reachable w
      then (Ret true,
            (w, {| config := config c;
                   consumer := Some {| client_timeout_ms :=
                                 default 0 (Config.consumer_timeout_ms (config c)) |} |}))
      else (Ret false, st)
  end.

(** *** consume_messages: a generator *)
Inductive generator :=
| Fresh (max_messages : Z)
| AtYield (max_messages message_count : Z)   (* suspended at [yield validated_data] *)
| Finished.

Inductive step :=
| Yield (value : json) (g : generator)
| StopIteration
| Raised (e : exn).

(** How many more values a generator may still yield. *)
Definition budget (g : generator) : Z :=
  match g with
  | Fresh max => max
  | AtYield max count => max - count - 1
  | Finished => 0
  end.

Section WithRuntime.
Context {RT : Runtime}.

(** [for message in self.consumer], run from the head of the loop until the
    next [yield] or until the generator ends.  An empty stream makes the
    client block for its timeout and then end the iteration.  The result
    carries the rest of the stream and the clock.  The stream holds the
    messages that are ready when the call starts; messages that arrive
    while it runs are not modelled, so nothing is stated here about a topic
    that keeps delivering. *)
Fixpoint for_message (stream : list kafka_event) (max_messages message_count : Z)
    (timeout t : Z) : step * list kafka_event * Z :=
  match stream with
  | [] => (StopIteration, [], t + timeout)
  | KFault e :: rest =>
      match e with
      | KafkaTimeoutError => (StopIteration, rest, t)     (* logged *)
      | _ => (Raised e, rest, t)
      end
  | KRecord value :: rest =>
      if max_messages <=? message_count then (StopIteration, rest, t)   (* break *)
      else
        match validate_statement_message value with
        | Some validated_data =>
            (Yield validated_data (AtYield max_messages message_count), rest, t)
        | None => for_message rest max_messages message_count timeout t
        end
  end.

Definition enter_for (max_messages message_count : Z) (cl : client) (st : state)
  : step * state :=
  let '(w, c) := st in
  let '(s, rest, t) :=
    for_message (broker_stream w) max_messages message_count
                (client_timeout_ms cl) (now w) in
  (s, (set_now t (set_stream rest w), c)).

Definition gen_next (g : generator) (st : state) : step * state :=
  match g with
  | Fresh max =>
      match consumer st.2 with
      | Some cl => enter_for max 0 cl st
      | None =>
          match connect st with
          | (Ret true, st1) =>
              match consumer st1.2 with
              | Some cl => enter_for max 0 cl st1
              | None => (Raised (TypeError "'NoneType' object is not iterable"), st1)
              end
          | (Ret false, st1) =>
              (Raised (RuntimeError "Failed to establish Kafka connection"), st1)
          | (Raise e, st1) => (Raised e, st1)
          end
      end
  | AtYield max count =>
      match consumer st.2 with
      | Some cl => enter_for max (count + 1) cl st
      | None => (Raised (TypeError "'NoneType' object is not iterable"), st)
      end
  | Finished => (StopIteration, st)
  end.

Definition consume_messages (max_messages : Z) : generator := Fresh max_messages.

(** [for message in g: messages.append(message)] *)
Fixpoint for_messages (fuel : nat) (g : generator) (messages : list json)
    (st : state) : option (outcome (list json) * state) :=
  match fuel with
  | O => None
  | S fuel1 =>
      match gen_next g st with
      | (Yield message g1, st1) => for_messages fuel1 g1 (messages ++ [message]) st1
      | (StopIteration, st1) => Some (Ret messages, st1)
      | (Raised e, st1) => Some (Raise e, st1)
      end
  end.

(** consume_batch: [timeout_ms] is accepted and not used. *)
Definition consume_batch (fuel : nat) (batch_size timeout_ms : Z) (st : state)
  : option (outcome (list json) * state) :=
  for_messages fuel (consume_messages batch_size) [] st.

End WithRuntime.

(** close *)
Definition close (st : state) : outcome unit * state :=
  match consumer st.2 with
  | Some _ =>
      if broker_closable st.1 then (Ret tt, st)
      else (Raise (KafkaError "close failed"), st)
  | None => (Ret tt, st)
  end.

End Kafka.

(** * utils/data_sources/data_source_factory.py *)
Module DataSources.

Inductive DataSourceType := KAFKA | FILE_WATCHER.

Definition value (t : DataSourceType) : string :=
  match t with KAFKA => "kafka" | FILE_WATCHER => "file_watcher" end.

(** The name of a member, as in str(DataSourceType.KAFKA). *)
Definition name (t : DataSourceType) : string :=
  match t with KAFKA => "KAFKA" | FILE_WATCHER => "FILE_WATCHER" end.

(** DataSourceType(s): ValueError("<repr of s> is not a valid DataSourceType")
    for a string that is no member's value. *)
Definition DataSourceType_of (s : string) : outcome DataSourceType :=
  if String.eqb s "kafka" then Ret KAFKA
  else if String.eqb s "file_watcher" then Ret FILE_WATCHER
  else Raise (ValueError (repr s +:+ " is not a valid DataSourceType")).

(** The argument [source_type: Union[DataSourceType, str]]. *)
Inductive source_type_arg :=
| ByType (t : DataSourceType)
| ByStr (s : string).

(** class KafkaDataSource(BaseDataSource) *)
Record KafkaDataSource := {
  k_config : Config.Dict;
  k_is_connected : bool;
  k_consumer : Kafka.FinancialStatementConsumer
}.

(** class FileWatcherDataSource(BaseDataSource) *)
Record FileWatcherDataSource := {
  f_config : Config.Dict;
  f_is_connected : bool;
  f_watcher : FileWatcher.watcher
}.

Inductive BaseDataSource :=
| KafkaSource (k : KafkaDataSource)
| FileSource (f : FileWatcherDataSource).

(** What get_status returns for a source. *)
Record source_status := {
  status_is_connected : bool;
  status_type : string;
  status_statistics : option FileWatcher.statistics
}.

Module KafkaDS.

Definition init (cfg : Config.Dict) : KafkaDataSource :=
  {| k_config := cfg; k_is_connected := false; k_consumer := Kafka.init (Some cfg) |}.

Definition connect (w : world) (k : KafkaDataSource) : bool * (world * KafkaDataSource) :=
  match Kafka.connect (w, k_consumer k) with
  | (Ret result, (w1, c1)) =>
      (result, (w1, {| k_config := k_config k; k_is_connected := result;
                       k_consumer := c1 |}))
  | (Raise _, (w1, c1)) =>
      (false, (w1, {| k_config := k_config k; k_is_connected := k_is_connected k;
                      k_consumer := c1 |}))
  end.

Definition consume_batch {RT : Runtime} (fuel : nat) (batch_size timeout_ms : Z)
    (w : world) (k : KafkaDataSource)
  : option (outcome (list json) * (world * KafkaDataSource)) :=
  match Kafka.consume_batch fuel batch_size timeout_ms (w, k_consumer k) with
  | Some (r, (w1, c1)) =>
      Some (r, (w1, {| k_config := k_config k; k_is_connected := k_is_connected k;
                       k_consumer := c1 |}))
  | None => None
  end.

(** close: [self.consumer.close(); self.is_connected = False] inside
    [try ... except Exception]. *)
Definition close (w : world) (k : KafkaDataSource)
  : outcome unit * (world * KafkaDataSource) :=
  match Kafka.close (w, k_consumer k) with
  | (Ret _, (w1, c1)) =>
      (Ret tt, (w1, {| k_config := k_config k; k_is_connected := false;
                       k_consumer := c1 |}))
  | (Raise _, (w1, c1)) =>
      (Ret tt, (w1, {| k_config := k_config k; k_is_connected := k_is_connected k;
                       k_consumer := c1 |}))
  end.

Definition get_status (k : KafkaDataSource) : source_status :=
  {| status_is_connected := k_is_connected k; status_type := "kafka";
     status_statistics := None |}.

End KafkaDS.

Module FileDS.

(** __init__.  FileWatcherConfig's constructor also creates the three
    directories (mkdir with exist_ok); the directories of [world] stand for
    them as already created, so the failure of a mkdir is outside this
    model: what is stated of a construction is stated of one that returns. *)
Definition init (cfg : Config.Dict) : FileWatcherDataSource :=
  let file_config :=
    {| FileWatcher.file_pattern := default "*.json"%string (Config.file_pattern cfg);
       FileWatcher.process_existing := default true (Config.process_existing cfg);
       FileWatcher.batch_size := default 50 (Config.batch_size cfg);
       FileWatcher.polling_interval := default 5 (Config.polling_interval cfg) |} in
  {| f_config := cfg; f_is_connected := false;
     f_watcher := FileWatcher.init (Some file_config) |}.

Definition connect (w : world) (f : FileWatcherDataSource)
  : bool * (world * FileWatcherDataSource) :=
  let '(result, (w1, fw1)) := FileWatcher.connect (w, f_watcher f) in
  (result, (w1, {| f_config := f_config f; f_is_connected := result;
                   f_watcher := fw1 |})).

Definition consume_batch {RT : Runtime} (fuel : nat) (batch_size timeout_ms : Z)
    (w : world) (f : FileWatcherDataSource)
  : option (outcome (list json) * (world * FileWatcherDataSource)) :=
  match FileWatcher.consume_batch fuel batch_size timeout_ms (w, f_watcher f) with
  | Some (r, (w1, fw1)) =>
      Some (r, (w1, {| f_config := f_config f; f_is_connected := f_is_connected f;
                       f_watcher := fw1 |}))
  | None => None
  end.

Definition close (w : world) (f : FileWatcherDataSource)
  : outcome unit * (world * FileWatcherDataSource) :=
  match FileWatcher.close (w, f_watcher f) with
  | (Ret _, (w1, fw1)) =>
      (Ret tt, (w1, {| f_config := f_config f; f_is_connected := false;
                       f_watcher := fw1 |}))
  | (Raise _, (w1, fw1)) =>
      (Ret tt, (w1, {| f_config := f_config f; f_is_connected := f_is_connected f;
                       f_watcher := fw1 |}))
  end.

(** get_status: the base status updated with the watcher's statistics,
    whose 'is_connected' entry replaces the base one. *)
Definition get_status (w : world) (f : FileWatcherDataSource) : source_status :=
  let stats := FileWatcher.get_statistics (w, f_watcher f) in
  {| status_is_connected := FileWatcher.stat_is_connected stats;
     status_type := "file_watcher";
     status_statistics := Some stats |}.

End FileDS.

(** The methods of the interface, dispatched on the class. *)
Definition connect (w : world) (src : BaseDataSource) : bool * (world * BaseDataSource) :=
  match src with
  | KafkaSource k => let '(r, (w1, k1)) := KafkaDS.connect w k in (r, (w1, KafkaSource k1))
  | FileSource f => let '(r, (w1, f1)) := FileDS.connect w f in (r, (w1, FileSource f1))
  end.

Definition consume_batch {RT : Runtime} (fuel : nat) (batch_size timeout_ms : Z)
    (w : world) (src : BaseDataSource)
  : option (outcome (list json) * (world * BaseDataSource)) :=
  match src with
  | KafkaSource k =>
      match KafkaDS.consume_batch fuel batch_size timeout_ms w k with
      | Some (r, (w1, k1)) => Some (r, (w1, KafkaSource k1))
      | None => None
      end
  | FileSource f =>
      match FileDS.consume_batch fuel batch_size timeout_ms w f with
      | Some (r, (w1, f1)) => Some (r, (w1, FileSource f1))
      | None => None
      end
  end.

Definition close (w : world) (src : BaseDataSource)
  : outcome unit * (world * BaseDataSource) :=
  match src with
  | KafkaSource k => let '(r, (w1, k1)) := KafkaDS.close w k in (r, (w1, KafkaSource k1))
  | FileSource f => let '(r, (w1, f1)) := FileDS.close w f in (r, (w1, FileSource f1))
  end.

Definition get_status (w : world) (src : BaseDataSource) : source_status :=
  match src with
  | KafkaSource k => KafkaDS.get_status k
  | FileSource f => FileDS.get_status w f
  end.

(** *** class DataSourceFactory *)

Definition registered_sources : list DataSourceType := [KAFKA; FILE_WATCHER].

Instance DataSourceType_eq_dec : EqDecision DataSourceType.
Proof. solve_decision. Defined.

Definition _get_default_config (t : DataSourceType) : Config.Dict :=
  match t with
  | KAFKA => Config.KAFKA_CONFIG
  | FILE_WATCHER =>
      {| Config.bootstrap_servers := None; Config.topic := None;
         Config.group_id := None; Config.auto_offset_reset := None;
         Config.enable_auto_commit := None; Config.consumer_timeout_ms := None;
         Config.file_pattern := Some "*.json"%string;
         Config.process_existing := Some true;
         Config.batch_size := Some 50; Config.polling_interval := Some 5 |}
  end.

Definition to_type (source_type : source_type_arg) : outcome DataSourceType :=
  match source_type with
  | ByType t => Ret t
  | ByStr s => DataSourceType_of (lower s)
  end.

Definition create_data_source (source_type : source_type_arg)
    (config : option Config.Dict) : outcome BaseDataSource :=
  match to_type source_type with
  | Raise e => Raise e
  | Ret t =>
      if bool_decide (t ∉ registered_sources)
      then Raise (ValueError ("Unsupported data source type: DataSourceType." +:+ name t))
      else
        let cfg := match config with Some c => c | None => _get_default_config t end in
        match t with
        | KAFKA => Ret (KafkaSource (KafkaDS.init cfg))
        | FILE_WATCHER => Ret (FileSource (FileDS.init cfg))
        end
  end.

Definition get_available_sources : list string := value <$> registered_sources.

(** *** class DataSourceManager *)
Record DataSourceManager := {
  current_source : option BaseDataSource;
  current_type : option DataSourceType
}.

Definition manager_init : DataSourceManager :=
  {| current_source := None; current_type := None |}.

Definition mstate : Type := world * DataSourceManager.

(** initialize_source: the whole body is inside [try ... except Exception],
    which returns False. *)
Definition initialize_source (source_type : source_type_arg)
    (config : option Config.Dict) (auto_connect : bool) (st : mstate) : bool * mstate :=
  let '(w, m) := st in
  (* Close existing source if any *)
  let '(w1, m1) :=
    match current_source m with
    | Some src =>
        let '(_, (w1, src1)) := close w src in
        (w1, {| current_source := Some src1; current_type := current_type m |})
    | None => (w, m)
    end in
  (* Create new source *)
  match create_data_source source_type config with
  | Raise _ => (false, (w1, m1))
  | Ret src =>
      match to_type source_type with
      | Raise _ => (false, (w1, {| current_source := Some src;
                                   current_type := current_type m1 |}))
      | Ret t =>
          if auto_connect then
            let '(success, (w2, src2)) := connect w1 src in
            (success, (w2, {| current_source := Some src2; current_type := Some t |}))
          else (true, (w1, {| current_source := Some src; current_type := Some t |}))
      end
  end.

(** switch_source *)
Definition switch_source (new_source_type : source_type_arg)
    (config : option Config.Dict) (st : mstate) : bool * mstate :=
  initialize_source new_source_type config true st.

Definition get_current_source (m : DataSourceManager) : option BaseDataSource :=
  current_source m.

(** What the manager's get_status returns. *)
Inductive manager_status :=
| NoSourceInitialized                            (* {'status': 'no_source_initialized'} *)
| Status (current_type : option string) (source_status : source_status)
         (available_sources : list string).

Definition manager_get_status (st : mstate) : outcome manager_status :=
  match current_source st.2 with
  | None => Ret NoSourceInitialized
  | Some src =>
      Ret (Status (value <$> current_type st.2) (get_status st.1 src)
                  get_available_sources)
  end.

Definition manager_consume_batch {RT : Runtime} (fuel : nat) (batch_size timeout_ms : Z)
    (st : mstate) : option (outcome (list json) * mstate) :=
  match current_source st.2 with
  | None => Some (Raise (RuntimeError "No data source initialized"), st)
  | Some src =>
      match consume_batch fuel batch_size timeout_ms st.1 src with
      | Some (r, (w1, src1)) =>
          Some (r, (w1, {| current_source := Some src1;
                           current_type := current_type st.2 |}))
      | None => None
      end
  end.

Definition manager_close (st : mstate) : outcome unit * mstate :=
  match current_source st.2 with
  | Some src =>
      let '(_, (w1, _)) := close st.1 src in
      (Ret tt, (w1, {| current_source := None; current_type := None |}))
  | None => (Ret tt, st)
  end.

(** *** Vocabulary for the properties below *)

(** Will the library call that [close] wraps raise in this world? *)
Definition underlying_close_fails (w : world) (src : BaseDataSource) : bool :=
  match src with
  | KafkaSource k =>
      Config.present (Kafka.consumer (k_consumer k)) && negb (broker_closable w)
  | FileSource f =>
      match FileWatcher.observer (f_watcher f) with
      | Some o => FileWatcher.is_alive o && negb (watch_stoppable w)
      | None => false
      end
  end.

(** The previous source as [initialize_source] leaves it after closing it. *)
Definition closed_previous (st : mstate) : option BaseDataSource :=
  match current_source st.2 with
  | Some src => Some (close st.1 src).2.2
  | None => None
  end.

Definition world_after_close (st : mstate) : world :=
  match current_source st.2 with
  | Some src => (close st.1 src).2.1
  | None => st.1
  end.

End DataSources.

(** * A concrete runtime and concrete worlds for the examples *)
Module Demo.

(** A toy decoder: "{x}" is an object with id x, "[abc]" is the list of the
    one-letter strings a, b, c, anything else does not decode. *)
Definition load (text : string) : load_result :=
  match list_ascii_of_string text with
  | "["%char :: rest =>
      match reverse rest with
      | "]"%char :: body =>
          Loaded (JArr ((fun c => JStr (String c EmptyString)) <$> reverse body))
      | _ => DecodeError "Expecting ',' delimiter"
      end
  | "{"%char :: rest =>
      match reverse rest with
      | "}"%char :: body =>
          Loaded (JObj [("id"%string, JStr (string_of_list_ascii (reverse body)))])
      | _ => DecodeError "Expecting property name enclosed in double quotes"
      end
  | _ => DecodeError "Expecting value: line 1 column 1 (char 0)"
  end.

Definition runtime : Runtime :=
  {| strftime := fun t => pretty (t / 1000);
     isoformat := fun t => pretty t;
     json_load := load;
     validate_statement_message :=
       fun v => match v with JObj _ => Some v | _ => None end |}.

Definition file_at (t : Z) (text : string) : file :=
  {| content := text; mtime := t |}.

Definition obj (id : string) : json := JObj [("id"%string, JStr id)].

(** A quiet world at time 100 s holding the given input files. *)
Definition world_with (files : gmap string file) : world :=
  {| now := 100000; input_dir := files; archive_dir := ∅; error_dir := ∅;
     archive_writable := true; error_writable := true;
     watch_startable := true; watch_stoppable := true;
     schedule := [];
     broker_reachable := true; broker_stream := []; broker_closable := true |}.

(** A connected watcher with the given configuration and queue. *)
Definition watching (cfg : FileWatcher.FileWatcherConfig) (queue : list string)
  : FileWatcher.watcher :=
  {| FileWatcher.config := cfg; FileWatcher.file_queue := queue;
     FileWatcher.observer := Some FileWatcher.Alive;
     FileWatcher.is_connected := true |}.

(** Files A, B, C created in that order; B holds a two-element list. *)
Definition abc : gmap string file :=
  <["a.json"%string := file_at 10 "{A}"]>
  (<["b.json"%string := file_at 20 "[xy]"]>
  (<["c.json"%string := file_at 30 "{C}"]> ∅)).

(** One file that decodes and one that does not. *)
Definition mixed : gmap string file :=
  <["a.json"%string := file_at 10 "{A}"]>
  (<["bad.json"%string := file_at 20 "{oops"]> ∅).

(** The same world with an archive directory that cannot be written. *)
Definition archive_locked (w : world) : world :=
  {| now := now w; input_dir := input_dir w; archive_dir := archive_dir w;
     error_dir := error_dir w; archive_writable := false;
     error_writable := error_writable w; watch_startable := watch_startable w;
     watch_stoppable := watch_stoppable w; schedule := schedule w;
     broker_reachable := broker_reachable w; broker_stream := broker_stream w;
     broker_closable := broker_closable w |}.

(** The same world with a broker that cannot be reached / closed. *)
Definition broker_down (w : world) : world :=
  {| now := now w; input_dir := input_dir w; archive_dir := archive_dir w;
     error_dir := error_dir w; archive_writable := archive_writable w;
     error_writable := error_writable w; watch_startable := watch_startable w;
     watch_stoppable := watch_stoppable w; schedule := schedule w;
     broker_reachable := false; broker_stream := broker_stream w;
     broker_closable := broker_closable w |}.

Definition broker_stuck (w : world) : world :=
  {| now := now w; input_dir := input_dir w; archive_dir := archive_dir w;
     error_dir := error_dir w; archive_writable := archive_writable w;
     error_writable := error_writable w; watch_startable := watch_startable w;
     watch_stoppable := watch_stoppable w; schedule := schedule w;
     broker_reachable := broker_reachable w; broker_stream := broker_stream w;
     broker_closable := false |}.

End Demo.

(** * More of data_source_factory.py, and vocabulary for further properties *)
Module Factory.
Import DataSources.

(** DataSourceFactory.create_from_environment; [env] is the value of the
    environment variable, if it is set. *)
Definition create_from_environment (env : option string) : outcome BaseDataSource :=
  let source_type_str := default "file_watcher"%string env in
  let source_type :=
    match DataSourceType_of (lower source_type_str) with
    | Ret t => t
    | Raise _ => FILE_WATCHER          (* except ValueError: default *)
    end in
  create_data_source (ByType source_type) None.

(** The class of an adapter, as a kind. *)
Definition kind_of (src : BaseDataSource) : DataSourceType :=
  match src with KafkaSource _ => KAFKA | FileSource _ => FILE_WATCHER end.

(** The adapter's own [is_connected] attribute. *)
Definition is_connected (src : BaseDataSource) : bool :=
  match src with
  | KafkaSource k => k_is_connected k
  | FileSource f => f_is_connected f
  end.

End Factory.

(** The queue holds no path twice and only paths ending in .json. *)
Definition tidy (queue : list string) : Prop :=
  NoDup queue /\ Forall (fun p => ends_with p ".json" = true) queue.

(** A file of the input directory that has some content. *)
Definition has_content (w : world) (p : string) : bool :=
  match input_dir w !! p with
  | Some f => 0 <? st_size f
  | None => false
  end.

(** From [w] to [w1] no time has passed, nothing was archived and every
    input file that decodes is still in place. *)
Definition untouched {RT : Runtime} (w w1 : world) : Prop :=
  now w1 = now w /\ archive_dir w1 = archive_dir w /\
  forall p f d, input_dir w !! p = Some f -> json_load (content f) = Loaded d ->
                input_dir w1 !! p = Some f.

(** The records the validator lets through, in stream order. *)
Definition validated {RT : Runtime} (values : list json) : list json :=
  omap validate_statement_message values.

(** A broker generator that, when resumed, continues the loop with the given
    [max_messages] and [message_count]. *)
Definition resumes (g : Kafka.generator) (max_messages message_count : Z) : Prop :=
  match g with
  | Kafka.Fresh max => max = max_messages /\ message_count = 0
  | Kafka.AtYield max count => max = max_messages /\ message_count = count + 1
  | Kafka.Finished => False
  end.

(** * dags/financial_statement_dag.py: the consume_messages task *)
Module Dag.
Import DataSources.

(** config/airflow_config.py, with the environment variables unset *)
Definition FILE_WATCHER_CONFIG : Config.Dict :=
  {| Config.bootstrap_servers := None; Config.topic := None;
     Config.group_id := None; Config.auto_offset_reset := None;
     Config.enable_auto_commit := None; Config.consumer_timeout_ms := None;
     Config.file_pattern := Some "*.json"%string;
     Config.process_existing := Some true;
     Config.batch_size := Some 50; Config.polling_interval := Some 5 |}.

(** What the task reads from Airflow's Variable store: the value of each
    expression, or the exception its evaluation raises. *)
Record Variables := {
  data_source_type : outcome string;
    (* Variable.get('data_source_type', default_var=DATA_SOURCE_TYPE) *)
  kafka_batch_size : outcome Z;
    (* int(Variable.get('kafka_batch_size', default_var=50)) *)
  file_batch_size : outcome Z
    (* int(Variable.get('file_batch_size', default_var=50)) *)
}.

(** str(e) *)
Definition str (e : exn) : string :=
  match e with
  | RuntimeError msg | ValueError msg | TypeError msg | OSError msg
  | JSONDecodeError msg => msg
  | KeyError key => "'" +:+ key +:+ "'"
  | KafkaTimeoutError => "KafkaTimeoutError"
  | KafkaError msg => "KafkaError: " +:+ msg
  end.

(** The value pushed to XCom under 'data_source_info'. *)
Record data_source_info := {
  info_type : string;
  info_batch_size : Z;
  info_message_count : Z;
  info_status : manager_status
}.

(** How the task ends: it returns the messages, having pushed them and the
    info to XCom, or it raises AirflowException. *)
Inductive task_result :=
| Returned (messages : list json) (info : data_source_info)
| AirflowException (msg : string).

(** except Exception as e: raise AirflowException(...) *)
Definition failed (reason : string) : task_result :=
  AirflowException ("Message consumption failed: " +:+ reason).

(** finally: if data_source_manager: data_source_manager.close() *)
Definition finally (r : task_result) (st : mstate)
  : option (task_result * (world * option DataSourceManager)) :=
  let '(_, (w1, m1)) := manager_close st in
  Some (r, (w1, Some m1)).

(** The task function consume_messages, called with the Airflow context. *)
Definition consume_messages {RT : Runtime} (fuel : nat) (vars : Variables) (w : world)
  : option (task_result * (world * option DataSourceManager)) :=
  match data_source_type vars with
  | Raise e => Some (failed (str e), (w, None))
  | Ret ty =>
      let st0 := (w, manager_init) in
      let is_kafka := String.eqb (lower ty) "kafka" in
      let config := if is_kafka then Config.KAFKA_CONFIG else FILE_WATCHER_CONFIG in
      match (if is_kafka then kafka_batch_size vars else file_batch_size vars) with
      | Raise e => finally (failed (str e)) st0
      | Ret batch_size =>
          let '(success, st1) := initialize_source (ByStr ty) (Some config) true st0 in
          if negb success
          then finally (failed ("Failed to initialize " +:+ ty +:+ " data source")) st1
          else
            match manager_consume_batch fuel batch_size 5000 st1 with
            | None => None
            | Some (Raise e, st2) => finally (failed (str e)) st2
            | Some (Ret messages, st2) =>
                match manager_get_status st2 with
                | Raise e => finally (failed (str e)) st2
                | Ret status =>
                    finally
                      (Returned messages
                         {| info_type := ty; info_batch_size := batch_size;
                            info_message_count := len messages;
                            info_status := status |}) st2
                end
            end
      end
  end.

End Dag.

(** The records of the files a new watcher would queue on connecting. *)
Definition backlog {RT : Runtime} (w : world) : list json :=
  flat_map (FileWatcher.records_of w)
           (filter (fun p => Is_true (has_content w p)) (FileWatcher.json_files w)).

(** Every file of the input directory decodes. *)
Definition all_decode {RT : Runtime} (w : world) : Prop :=
  forall p f, input_dir w !! p = Some f -> exists d, json_load (content f) = Loaded d.

(** The reason with which [consume_messages] quarantines a file it cannot
    read: "JSON decode error: ..." from the JSONDecodeError handler,
    "Processing error: ..." from the handler of every other exception. *)
Definition failure_reason {RT : Runtime} (text : string) : option string :=
  match json_load text with
  | Loaded _ => None
  | DecodeError msg => Some ("JSON decode error: " +:+ msg)
  | OtherError msg => Some ("Processing error: " +:+ msg)
  end.

(** Paths handed to [add_file_to_queue] one after the other, in the order in
    which they were detected. *)
Definition enqueue (paths : list string) (w : world) (fw : FileWatcher.watcher)
  : FileWatcher.watcher :=
  fold_left (fun fw p => FileWatcher.add_file_to_queue p w fw) paths fw.

(** No two files of the input directory have the same modification time. *)
Definition distinct_mtimes (w : world) : Prop :=
  forall p q f g, input_dir w !! p = Some f -> input_dir w !! q = Some g ->
                  mtime f = mtime g -> p = q.

(** A source type given as a string is in ASCII. *)
Definition ascii_arg (source_type : DataSources.source_type_arg) : bool :=
  match source_type with
  | DataSources.ByType _ => true
  | DataSources.ByStr s => is_ascii s
  end.

(** A second concrete runtime: as [Demo.runtime], except that a file whose
    first byte is 0xff cannot be read as UTF-8, so that reading it fails with
    UnicodeDecodeError before any JSON is parsed. *)
Module DemoBytes.

Definition load (text : string) : load_result :=
  match text with
  | String c _ =>
      if Ascii.eqb c (ascii_of_nat 255)
      then OtherError
             "'utf-8' codec can't decode byte 0xff in position 0: invalid start byte"
      else Demo.load text
  | EmptyString => Demo.load text
  end.

Definition runtime : Runtime :=
  {| strftime := fun t => pretty (t / 1000);
     isoformat := fun t => pretty t;
     json_load := load;
     validate_statement_message :=
       fun v => match v with JObj _ => Some v | _ => None end |}.

(** A file of two bytes that are not UTF-8. *)
Definition binary : file :=
  {| content := String (ascii_of_nat 255) (String (ascii_of_nat 254) EmptyString);
     mtime := 20 |}.

End DemoBytes.

(** * Properties *)

(** ** Batch size bound *)
Module FileWatcherBound.
Import FileWatcher.

Section WithRuntime.
Context {RT : Runtime}.

Lemma fw_while_files_yield queue : forall fr w v g queue1 w1,
  while_files queue fr w = (Yield v g, queue1, w1) ->
  message_count fr < max_messages fr /\
  budget g = max_messages fr - message_count fr - 1.
Proof.
  induction queue as [|p queue IH]; intros fr w v g queue1 w1 Hrun; simpl in Hrun.
  - discriminate.
  - destruct (message_count fr <? max_messages fr) eqn:Hlt; [|discriminate].
    apply Z.ltb_lt in Hlt.
    destruct (input_dir w !! p) as [f|]; [|by eapply IH].
    destruct (json_load (content f)) as [data|msg|msg]; try by eapply IH.
    destruct data;
      try (injection Hrun as <- <- <-; simpl; split; [done | lia]).
    destruct (for_item fr items) as [[item rest]|] eqn:Hitem.
    + injection Hrun as <- <- <-. simpl. split; [done | lia].
    + apply IH in Hrun. simpl in Hrun. done.
Qed.

Lemma fw_gen_next_yield g st v g1 st1 :
  gen_next g st = (Yield v g1, st1) ->
  1 <= budget g /\ budget g1 = budget g - 1.
Proof.
  unfold gen_next, enter_while. destruct g as [max|fr p rest|fr p|]; simpl.
  - intros Hrun.
    assert (forall st0,
      (let '(w, fw) := st0 in
       let '(s, queue, w1) :=
         while_files (file_queue fw)
           {| max_messages := max; message_count := 0; processed_files := [] |} w in
       (s, (w1, set_queue queue fw))) = (Yield v g1, st1) ->
      1 <= max /\ budget g1 = max - 1) as Hgo.
    { intros [w fw].
      destruct (while_files _ _ _) as [[s q] w1] eqn:Hw.
      intros [= -> <-]. apply fw_while_files_yield in Hw. simpl in Hw. lia. }
    destruct (is_connected st.2); [exact (Hgo st Hrun)|].
    destruct (connect st) as [ok st0]. destruct ok; [exact (Hgo st0 Hrun)|discriminate].
  - destruct (for_item (count_message fr) rest) as [[item rest1]|] eqn:Hitem.
    + intros [= <- <- <-]. simpl.
      unfold for_item in Hitem. destruct rest; [discriminate|].
      simpl in Hitem.
      destruct (max_messages fr <=? message_count fr + 1) eqn:Hle; [discriminate|].
      apply Z.leb_gt in Hle. lia.
    + destruct st as [w fw].
      destruct (while_files _ _ _) as [[s q] w1] eqn:Hw.
      intros [= -> <-]. apply fw_while_files_yield in Hw. simpl in Hw. lia.
  - destruct st as [w fw].
    destruct (while_files _ _ _) as [[s q] w1] eqn:Hw.
    intros [= -> <-]. apply fw_while_files_yield in Hw. simpl in Hw. lia.
  - discriminate.
Qed.

Lemma fw_for_messages_bound fuel batch_size : forall g messages st r st1,
  for_messages fuel batch_size g messages st = Some (Ret r, st1) ->
  len messages <= batch_size ->
  budget g + len messages <= batch_size ->
  len r <= batch_size.
Proof.
  induction fuel as [|fuel IH]; intros g messages st r st1 Hrun Hlen Hbud; simpl in Hrun.
  - discriminate.
  - destruct (gen_next g st) as [[v g1| |e] st2] eqn:Hnext.
    + apply fw_gen_next_yield in Hnext as [Hone Hdec].
      assert (len (messages ++ [v]) = len messages + 1) as Hsnoc.
      { unfold len. rewrite length_app. simpl. lia. }
      destruct (batch_size <=? len (messages ++ [v])) eqn:Hfull.
      * injection Hrun as <- <-. lia.
      * eapply IH; [exact Hrun | lia | lia].
    + injection Hrun as <- <-. done.
    + discriminate.
Qed.

Lemma fw_wait_for_files_bound fuel batch_size timeout_ms start_time :
  forall messages st r st1,
  wait_for_files fuel batch_size timeout_ms start_time messages st = Some (Ret r, st1) ->
  len messages <= batch_size ->
  len r <= batch_size.
Proof.
  induction fuel as [|fuel IH]; intros messages st r st1 Hrun Hlen; simpl in Hrun.
  - discriminate.
  - destruct ((len messages <? batch_size) && (now st.1 - start_time <? timeout_ms))
      eqn:Hcond.
    + destruct (file_queue st.2) as [|p q].
      * destruct (polling_interval (config st.2) <? 0); [discriminate|].
        by eapply IH.
      * destruct (for_messages _ _ _ _ _) as [[[r1|e] st2]|] eqn:Hfor;
          try discriminate.
        eapply IH; [exact Hrun|].
        eapply fw_for_messages_bound; [exact Hfor | done | simpl; lia].
    + injection Hrun as <- <-. done.
Qed.

Lemma fw_consume_batch_bound fuel batch_size timeout_ms st r st1 :
  0 <= batch_size ->
  consume_batch fuel batch_size timeout_ms st = Some (Ret r, st1) ->
  len r <= batch_size.
Proof.
  intros Hpos. unfold consume_batch.
  destruct (for_messages _ _ _ _ _) as [[[r1|e] st2]|] eqn:Hfor; try discriminate.
  intros Hwait. eapply fw_wait_for_files_bound; [exact Hwait|].
  eapply fw_for_messages_bound; [exact Hfor | done | simpl; unfold len; simpl; lia].
Qed.

End WithRuntime.
End FileWatcherBound.

Module KafkaBound.
Import Kafka.

Section WithRuntime.
Context {RT : Runtime}.

Lemma kafka_for_message_yield stream max count timeout t v g rest t1 :
  for_message stream max count timeout t = (Yield v g, rest, t1) ->
  count < max /\ g = AtYield max count.
Proof.
  induction stream as [|ev stream IH]; simpl; [discriminate|].
  destruct ev as [value|e].
  - destruct (max <=? count) eqn:Hle; [discriminate|]. apply Z.leb_gt in Hle.
    destruct (validate_statement_message value); [|exact IH].
    intros [= <- <- <- <-]. done.
  - destruct e; discriminate.
Qed.

Lemma kafka_enter_for_yield max count cl st v g st1 :
  enter_for max count cl st = (Yield v g, st1) ->
  count < max /\ g = AtYield max count.
Proof.
  unfold enter_for. destruct st as [w c].
  destruct (for_message _ _ _ _ _) as [[s rest] t] eqn:Hfor.
  intros [= -> <-]. by eapply kafka_for_message_yield.
Qed.

Lemma kafka_gen_next_yield g st v g1 st1 :
  gen_next g st = (Yield v g1, st1) ->
  1 <= budget g /\ budget g1 = budget g - 1.
Proof.
  destruct g as [max|max count|]; simpl.
  - destruct (consumer st.2) as [cl|].
    + intros Hrun%kafka_enter_for_yield. destruct Hrun as [Hlt ->]. simpl. lia.
    + destruct (connect st) as [[[|]|e] st0]; try discriminate.
      destruct (consumer st0.2) as [cl|]; [|discriminate].
      intros Hrun%kafka_enter_for_yield. destruct Hrun as [Hlt ->]. simpl. lia.
  - destruct (consumer st.2) as [cl|]; [|discriminate].
    intros Hrun%kafka_enter_for_yield. destruct Hrun as [Hlt ->]. simpl. lia.
  - discriminate.
Qed.

Lemma kafka_for_messages_bound fuel batch_size : forall g messages st r st1,
  for_messages fuel g messages st = Some (Ret r, st1) ->
  len messages <= batch_size ->
  budget g + len messages <= batch_size ->
  len r <= batch_size.
Proof.
  induction fuel as [|fuel IH]; intros g messages st r st1 Hrun Hlen Hbud; simpl in Hrun.
  - discriminate.
  - destruct (gen_next g st) as [[v g1| |e] st2] eqn:Hnext.
    + apply kafka_gen_next_yield in Hnext as [Hone Hdec].
      assert (len (messages ++ [v]) = len messages + 1) as Hsnoc.
      { unfold len. rewrite length_app. simpl. lia. }
      eapply IH; [exact Hrun | lia | lia].
    + injection Hrun as <- <-. done.
    + discriminate.
Qed.

Lemma kafka_consume_batch_bound fuel batch_size timeout_ms st r st1 :
  0 <= batch_size ->
  consume_batch fuel batch_size timeout_ms st = Some (Ret r, st1) ->
  len r <= batch_size.
Proof.
  intros Hpos Hrun. unfold consume_batch in Hrun.
  eapply kafka_for_messages_bound; [exact Hrun | done | simpl; unfold len; simpl; lia].
Qed.

End WithRuntime.
End KafkaBound.

(** C3.  For every batch size N >= 0 and every state of the source and of
    its surroundings, a batch returned by [consume_batch N timeout_ms] on the
    file-watcher adapter or on the broker adapter has at most N records. *)
Theorem C3_consume_batch_size_bound {RT : Runtime}
    (fuel : nat) (batch_size timeout_ms : Z) (w : world)
    (src : DataSources.BaseDataSource) (messages : list json)
    (w1 : world) (src1 : DataSources.BaseDataSource) :
  0 <= batch_size ->
  DataSources.consume_batch fuel batch_size timeout_ms w src
    = Some (Ret messages, (w1, src1)) ->
  (length messages <= Z.to_nat batch_size)%nat.
Proof.
  intros Hpos Hrun.
  assert (len messages <= batch_size) as Hlen; [|unfold len in Hlen; lia].
  destruct src as [k|f]; simpl in Hrun.
  - unfold DataSources.KafkaDS.consume_batch in Hrun.
    destruct (Kafka.consume_batch _ _ _ _) as [[r [w2 c2]]|] eqn:Hk; [|discriminate].
    injection Hrun as -> <- <-.
    by eapply KafkaBound.kafka_consume_batch_bound.
  - unfold DataSources.FileDS.consume_batch in Hrun.
    destruct (FileWatcher.consume_batch _ _ _ _) as [[r [w2 c2]]|] eqn:Hk; [|discriminate].
    injection Hrun as -> <- <-.
    by eapply FileWatcherBound.fw_consume_batch_bound.
Qed.

(** The bound at work: three queued files holding four records, read with
    room for three. *)
Lemma C3_consume_batch_size_bound_witness :
  exists messages w1 src1,
    DataSources.consume_batch (RT := Demo.runtime) 20 3 5000
      (Demo.world_with Demo.abc)
      (DataSources.FileSource
         {| DataSources.f_config := Config.empty;
            DataSources.f_is_connected := true;
            DataSources.f_watcher :=
              Demo.watching FileWatcher.default_config
                ["a.json"; "b.json"; "c.json"]%string |})
    = Some (Ret messages, (w1, src1)) /\
    (length messages <= Z.to_nat 3)%nat.
Proof.
  eexists _, _, _. split; [vm_compute; reflexivity|].
  eapply (C3_consume_batch_size_bound (RT := Demo.runtime) 20 3 5000
           (Demo.world_with Demo.abc)
           (DataSources.FileSource
              {| DataSources.f_config := Config.empty;
                 DataSources.f_is_connected := true;
                 DataSources.f_watcher :=
                   Demo.watching FileWatcher.default_config
                     ["a.json"; "b.json"; "c.json"]%string |})
           _ _ _); [lia | vm_compute; reflexivity].
Defined.

(** ** What a run of the file watcher's generator produces *)
Module FileWatcherRun.
Import FileWatcher.

Lemma same_env_refl w : same_env w w.
Proof. by repeat split. Qed.

Lemma same_env_trans w1 w2 w3 : same_env w1 w2 -> same_env w2 w3 -> same_env w1 w3.
Proof. unfold same_env. intros (?&?&?&?) (?&?&?&?). repeat split; congruence. Qed.

Section WithRuntime.
Context {RT : Runtime}.

Lemma archive_file_env p w : same_env w (_archive_file p w).
Proof.
  unfold _archive_file, move. destruct (input_dir w !! p); [|by repeat split].
  destruct (archive_writable w); by repeat split.
Qed.

Lemma move_file_to_error_env p m w : same_env w (_move_file_to_error p m w).
Proof.
  unfold _move_file_to_error, move. destruct (input_dir w !! p); [|by repeat split].
  destruct (error_writable w); by repeat split.
Qed.

Lemma archive_all_env l : forall w,
  same_env w (fold_left (fun w p => _archive_file p w) l w).
Proof.
  induction l as [|p l IH]; intros w; simpl; [apply same_env_refl|].
  eapply same_env_trans; [apply archive_file_env | apply IH].
Qed.

Lemma settle_env queue : forall processed w, same_env w (settle queue processed w).
Proof.
  induction queue as [|p queue IH]; intros processed w; simpl.
  - apply archive_all_env.
  - destruct (input_dir w !! p) as [f|]; [|apply IH].
    destruct (json_load (content f)); [apply IH| |];
      (eapply same_env_trans; [apply move_file_to_error_env | apply IH]).
Qed.

(** Quarantining a file that does not decode changes nobody's records. *)
Lemma records_after_quarantine p f m w :
  input_dir w !! p = Some f ->
  (forall d, json_load (content f) <> Loaded d) ->
  forall q, records_of (_move_file_to_error p m w) q = records_of w q.
Proof.
  intros Hp Hbad q. unfold _move_file_to_error, move. rewrite Hp.
  destruct (error_writable w); [|done].
  unfold records_of. simpl.
  destruct (decide (p = q)) as [<-|Hne].
  - rewrite lookup_delete_eq, Hp.
    destruct (json_load (content f)) as [d| |]; [by destruct (Hbad d)|done|done].
  - by rewrite lookup_delete_ne.
Qed.

Lemma flat_map_ext_all {A B} (f g : A -> list B) l :
  (forall x, f x = g x) -> flat_map f l = flat_map g l.
Proof. intros Hfg. induction l as [|x l IH]; simpl; [done|]. by rewrite Hfg, IH. Qed.

Lemma records_of_loaded w p f data :
  input_dir w !! p = Some f -> json_load (content f) = Loaded data ->
  records_of w p = match data with JArr items => items | _ => [data] end.
Proof. intros Hp Hload. unfold records_of. rewrite Hp, Hload. by destruct data. Qed.

Lemma records_of_missing w p : input_dir w !! p = None -> records_of w p = [].
Proof. intros Hp. unfold records_of. by rewrite Hp. Qed.

Lemma records_of_bad w p f :
  input_dir w !! p = Some f -> (forall d, json_load (content f) <> Loaded d) ->
  records_of w p = [].
Proof.
  intros Hp Hbad. unfold records_of. rewrite Hp.
  destruct (json_load (content f)) as [d| |]; [by destruct (Hbad d)|done|done].
Qed.

Lemma for_item_some fr data item rest :
  for_item fr data = Some (item, rest) ->
  data = item :: rest /\ message_count fr < max_messages fr.
Proof.
  unfold for_item. destruct data as [|i data]; [discriminate|].
  destruct (max_messages fr <=? message_count fr) eqn:Hle; [discriminate|].
  apply Z.leb_gt in Hle. intros [= <- <-]. done.
Qed.

Lemma for_item_none fr data :
  for_item fr data = None -> data = [] \/ max_messages fr <= message_count fr.
Proof.
  unfold for_item. destruct data as [|i data]; [by left|].
  destruct (max_messages fr <=? message_count fr) eqn:Hle; [|discriminate].
  apply Z.leb_le in Hle. by right.
Qed.

(** The loop of [consume_messages] from its head to the next [yield]. *)
Lemma while_files_yield_spec queue : forall fr w v g queue1 w1,
  while_files queue fr w = (Yield v g, queue1, w1) ->
  message_count fr < max_messages fr /\
  budget g = max_messages fr - message_count fr - 1 /\
  flat_map (records_of w) queue = v :: pending g ++ flat_map (records_of w1) queue1 /\
  same_env w w1 /\
  forall fw, settle queue (processed_files fr) w = finish g (w1, set_queue queue1 fw).
Proof.
  induction queue as [|p queue IH]; intros fr w v g queue1 w1 Hrun; simpl in Hrun.
  - discriminate.
  - destruct (message_count fr <? max_messages fr) eqn:Hlt; [|discriminate].
    apply Z.ltb_lt in Hlt.
    cbn [flat_map settle].
    destruct (input_dir w !! p) as [f|] eqn:Hp.
    2:{ rewrite (records_of_missing _ _ Hp). by apply IH in Hrun. }
    destruct (json_load (content f)) as [data|msg|msg] eqn:Hload.
    + rewrite (records_of_loaded _ _ _ _ Hp Hload).
      destruct data as [|b|n|s0|items|fields];
        try (injection Hrun as <- <- <- <-; cbn;
             split_and!; first [done | lia | apply same_env_refl]).
      destruct (for_item fr items) as [[item rest]|] eqn:Hitem.
      * injection Hrun as <- <- <- <-.
        apply for_item_some in Hitem as [-> _]. cbn.
        split_and!; first [done | lia | apply same_env_refl].
      * apply for_item_none in Hitem as [->|Hle]; [|lia].
        apply IH in Hrun. exact Hrun.
    + apply IH in Hrun. destruct Hrun as (H1 & H2 & H3 & H4 & H5).
      assert (forall d, json_load (content f) <> Loaded d) as Hbad by congruence.
      rewrite (records_of_bad _ _ _ Hp Hbad).
      rewrite (flat_map_ext_all _ _ queue
                 (records_after_quarantine p f _ w Hp Hbad)) in H3.
      split_and!; try done.
      eapply same_env_trans; [apply move_file_to_error_env | done].
    + apply IH in Hrun. destruct Hrun as (H1 & H2 & H3 & H4 & H5).
      assert (forall d, json_load (content f) <> Loaded d) as Hbad by congruence.
      rewrite (records_of_bad _ _ _ Hp Hbad).
      rewrite (flat_map_ext_all _ _ queue
                 (records_after_quarantine p f _ w Hp Hbad)) in H3.
      split_and!; try done.
      eapply same_env_trans; [apply move_file_to_error_env | done].
Qed.

(** ... and to the end of the generator. *)
Lemma while_files_stop_spec queue : forall fr w queue1 w1,
  while_files queue fr w = (StopIteration, queue1, w1) ->
  max_messages fr <= message_count fr \/
  (flat_map (records_of w) queue = [] /\ queue1 = [] /\
   w1 = settle queue (processed_files fr) w).
Proof.
  induction queue as [|p queue IH]; intros fr w queue1 w1 Hrun; simpl in Hrun.
  - injection Hrun as <- <-. by right.
  - destruct (message_count fr <? max_messages fr) eqn:Hlt.
    2:{ apply Z.ltb_ge in Hlt. by left. }
    apply Z.ltb_lt in Hlt.
    cbn [flat_map settle].
    destruct (input_dir w !! p) as [f|] eqn:Hp.
    2:{ rewrite (records_of_missing _ _ Hp). by apply IH in Hrun. }
    destruct (json_load (content f)) as [data|msg|msg] eqn:Hload.
    + rewrite (records_of_loaded _ _ _ _ Hp Hload).
      destruct data as [|b|n|s0|items|fields]; try discriminate.
      destruct (for_item fr items) as [[item rest]|] eqn:Hitem; [discriminate|].
      apply for_item_none in Hitem as [->|Hle]; [|lia].
      apply IH in Hrun. exact Hrun.
    + apply IH in Hrun. destruct Hrun as [Hle|(H1 & H2 & H3)]; [by left|right].
      assert (forall d, json_load (content f) <> Loaded d) as Hbad by congruence.
      rewrite (records_of_bad _ _ _ Hp Hbad).
      rewrite (flat_map_ext_all _ _ queue
                 (records_after_quarantine p f _ w Hp Hbad)) in H1.
      done.
    + apply IH in Hrun. destruct Hrun as [Hle|(H1 & H2 & H3)]; [by left|right].
      assert (forall d, json_load (content f) <> Loaded d) as Hbad by congruence.
      rewrite (records_of_bad _ _ _ Hp Hbad).
      rewrite (flat_map_ext_all _ _ queue
                 (records_after_quarantine p f _ w Hp Hbad)) in H1.
      done.
Qed.

Lemma while_files_never_raises queue : forall fr w e queue1 w1,
  while_files queue fr w <> (Raised e, queue1, w1).
Proof.
  induction queue as [|p queue IH]; intros fr w e queue1 w1; simpl; [discriminate|].
  destruct (message_count fr <? max_messages fr); [|discriminate].
  destruct (input_dir w !! p) as [f|]; [|apply IH].
  destruct (json_load (content f)) as [data|msg|msg]; [|apply IH|apply IH].
  destruct data as [|b|n|s0|items|fields]; try discriminate.
  destruct (for_item fr items) as [[item rest]|]; [discriminate|apply IH].
Qed.

Lemma while_files_env queue : forall fr w s queue1 w1,
  while_files queue fr w = (s, queue1, w1) -> same_env w w1.
Proof.
  induction queue as [|p queue IH]; intros fr w s queue1 w1 Hrun; simpl in Hrun.
  - injection Hrun as <- <- <-. apply archive_all_env.
  - destruct (message_count fr <? max_messages fr).
    2:{ injection Hrun as <- <- <-. apply archive_all_env. }
    destruct (input_dir w !! p) as [f|]; [|by eapply IH].
    destruct (json_load (content f)) as [data|msg|msg].
    + destruct data as [|b|n|s0|items|fields]; try (injection Hrun as <- <- <-; apply same_env_refl).
      destruct (for_item fr items) as [[item rest]|]; [|by eapply IH].
      injection Hrun as <- <- <-; apply same_env_refl.
    + eapply same_env_trans; [apply move_file_to_error_env | by eapply IH].
    + eapply same_env_trans; [apply move_file_to_error_env | by eapply IH].
Qed.

Lemma enter_while_yield fr st v g st1 :
  enter_while fr st = (Yield v g, st1) ->
  message_count fr < max_messages fr /\
  budget g = max_messages fr - message_count fr - 1 /\
  flat_map (records_of st.1) (file_queue st.2) = v :: upcoming g st1 /\
  same_env st.1 st1.1 /\
  settle (file_queue st.2) (processed_files fr) st.1 = finish g st1 /\
  is_connected st1.2 = is_connected st.2 /\ config st1.2 = config st.2 /\
  observer st1.2 = observer st.2.
Proof.
  unfold enter_while. destruct st as [w fw].
  destruct (while_files _ _ _) as [[s q] w1] eqn:Hw.
  intros [= -> <-]. apply while_files_yield_spec in Hw.
  destruct Hw as (H1 & H2 & H3 & H4 & H5). split_and!; first [done | apply H5].
Qed.

Lemma enter_while_stop fr st st1 :
  enter_while fr st = (StopIteration, st1) ->
  (max_messages fr <= message_count fr \/
   (flat_map (records_of st.1) (file_queue st.2) = [] /\ file_queue st1.2 = [] /\
    st1.1 = settle (file_queue st.2) (processed_files fr) st.1)) /\
  same_env st.1 st1.1 /\
  is_connected st1.2 = is_connected st.2 /\ config st1.2 = config st.2 /\
  observer st1.2 = observer st.2.
Proof.
  unfold enter_while. destruct st as [w fw].
  destruct (while_files _ _ _) as [[s q] w1] eqn:Hw.
  intros [= -> <-]. split_and!; try done.
  - by apply while_files_stop_spec in Hw.
  - by apply while_files_env in Hw.
Qed.

Lemma enter_while_never_raises fr st e st1 : enter_while fr st <> (Raised e, st1).
Proof.
  unfold enter_while. destruct st as [w fw].
  destruct (while_files _ _ _) as [[s q] w1] eqn:Hw.
  intros [= -> <-]. by apply while_files_never_raises in Hw.
Qed.

Lemma carries_on_refl st : carries_on st st.
Proof. split; [apply same_env_refl | done]. Qed.

Lemma carries_on_trans st1 st2 st3 :
  carries_on st1 st2 -> carries_on st2 st3 -> carries_on st1 st3.
Proof.
  intros (?&?&?&?) (?&?&?&?). split_and!; try congruence.
  by eapply same_env_trans.
Qed.

(** One [next] on a connected watcher's generator. *)
Lemma gen_next_yield_spec g st v g1 st1 :
  is_connected st.2 = true ->
  gen_next g st = (Yield v g1, st1) ->
  1 <= budget g /\ budget g1 = budget g - 1 /\
  upcoming g st = v :: upcoming g1 st1 /\
  finish g1 st1 = finish g st /\ carries_on st st1.
Proof.
  intros Hconn. unfold gen_next, carries_on.
  destruct g as [max|fr p rest|fr p|].
  - rewrite Hconn. intros Hrun%enter_while_yield. cbn in Hrun.
    destruct Hrun as (H1 & H2 & H3 & H4 & H5 & H6 & H7 & H8).
    unfold upcoming at 1. cbn. split_and!; first [done | lia | congruence].
  - destruct (for_item (count_message fr) rest) as [[item rest1]|] eqn:Hitem.
    + intros [= <- <- <-]. apply for_item_some in Hitem as [-> Hlt]. cbn in *.
      split_and!; first [done | lia | apply same_env_refl].
    + intros Hrun%enter_while_yield. cbn in Hrun.
      destruct Hrun as (H1 & H2 & H3 & H4 & H5 & H6 & H7 & H8).
      apply for_item_none in Hitem as [->|Hle]; [|cbn in Hle; lia].
      unfold upcoming at 1. cbn. split_and!; first [done | lia | congruence].
  - intros Hrun%enter_while_yield. cbn in Hrun.
    destruct Hrun as (H1 & H2 & H3 & H4 & H5 & H6 & H7 & H8).
    unfold upcoming at 1. cbn. split_and!; first [done | lia | congruence].
  - discriminate.
Qed.

Lemma gen_next_stop_spec g st st1 :
  is_connected st.2 = true ->
  gen_next g st = (StopIteration, st1) ->
  (budget g <= 0 \/
   (upcoming g st = [] /\ file_queue st1.2 = [] /\ st1.1 = finish g st)) /\
  carries_on st st1.
Proof.
  intros Hconn. unfold gen_next, carries_on.
  destruct g as [max|fr p rest|fr p|].
  - rewrite Hconn. intros Hrun%enter_while_stop. cbn in Hrun.
    destruct Hrun as (H1 & H2 & H3 & H4 & H5).
    split_and!; try first [done | congruence].
  - destruct (for_item (count_message fr) rest) as [[item rest1]|] eqn:Hitem;
      [discriminate|].
    intros Hrun%enter_while_stop. cbn in Hrun.
    destruct Hrun as (H1 & H2 & H3 & H4 & H5).
    split_and!; try first [done | congruence].
    apply for_item_none in Hitem as [->|Hle]; [|left; cbn in *; lia].
    all: try (destruct H1 as [Hle|H1]; [left; cbn; lia | by right]).
  - intros Hrun%enter_while_stop. cbn in Hrun.
    destruct Hrun as (H1 & H2 & H3 & H4 & H5).
    split_and!; try first [done | congruence].
    all: try (destruct H1 as [Hle|H1]; [left; cbn; lia | by right]).
  - intros [= <-]. split_and!; try done; first [by left | apply same_env_refl].
Qed.

Lemma gen_next_never_raises g st e st1 :
  is_connected st.2 = true -> gen_next g st <> (Raised e, st1).
Proof.
  intros Hconn. unfold gen_next. destruct g as [max|fr p rest|fr p|].
  - rewrite Hconn. apply enter_while_never_raises.
  - destruct (for_item (count_message fr) rest) as [[item rest1]|];
      [discriminate | apply enter_while_never_raises].
  - apply enter_while_never_raises.
  - discriminate.
Qed.

Lemma len_snoc {A} (l : list A) (x : A) : len (l ++ [x]) = len l + 1.
Proof. unfold len. rewrite length_app. simpl. lia. Qed.

Lemma len_app {A} (l k : list A) : len (l ++ k) = len l + len k.
Proof. unfold len. rewrite length_app. lia. Qed.

(** The [for] loop of [consume_batch] over a connected watcher's generator:
    with enough fuel it returns the messages it had, followed by as many of
    the upcoming records as the generator's budget allows.  When the batch
    did not fill up, the generator ran to its end. *)
Lemma for_messages_spec fuel batch_size : forall g messages st,
  is_connected st.2 = true ->
  budget g + len messages = batch_size ->
  (Z.to_nat (budget g) < fuel)%nat ->
  exists st1,
    for_messages fuel batch_size g messages st
      = Some (Ret (messages ++ take (Z.to_nat (budget g)) (upcoming g st)), st1) /\
    carries_on st st1 /\
    (len (messages ++ take (Z.to_nat (budget g)) (upcoming g st)) < batch_size ->
     file_queue st1.2 = [] /\ st1.1 = finish g st).
Proof.
  induction fuel as [|fuel IH]; intros g messages st Hconn Hsum Hfuel; [lia|].
  simpl. destruct (gen_next g st) as [[v g1| |e] st1] eqn:Hnext.
  - apply gen_next_yield_spec in Hnext as (Hb & Hb1 & Hup & Hfin & Hcarry); [|done].
    rewrite Hup. replace (Z.to_nat (budget g)) with (S (Z.to_nat (budget g1))) by lia.
    rewrite firstn_cons, len_snoc.
    destruct (batch_size <=? len messages + 1) eqn:Hfull.
    + apply Z.leb_le in Hfull.
      replace (Z.to_nat (budget g1)) with 0%nat by lia. rewrite take_0.
      exists st1. split_and!; [done | done |]. rewrite len_snoc. lia.
    + apply Z.leb_gt in Hfull.
      destruct (IH g1 (messages ++ [v]) st1) as (st2 & Hrun & Hcarry2 & Hend).
      { destruct Hcarry as (_ & -> & _). done. }
      { rewrite len_snoc. lia. }
      { lia. }
      rewrite <- app_assoc in Hrun, Hend. simpl in Hrun, Hend.
      exists st2. split_and!; [done | by eapply carries_on_trans |].
      intros Hlt. rewrite <- Hfin. by apply Hend.
  - apply gen_next_stop_spec in Hnext as (Hstop & Hcarry); [|done].
    exists st1.
    assert (take (Z.to_nat (budget g)) (upcoming g st) = []) as ->.
    { destruct Hstop as [Hle|(-> & _)]; [|by rewrite take_nil].
      replace (Z.to_nat (budget g)) with 0%nat by lia. apply take_0. }
    rewrite app_nil_r. split_and!; [done | done |].
    intros Hlt. destruct Hstop as [Hle|(_ & ? & ?)]; [lia | done].
  - by apply gen_next_never_raises in Hnext.
Qed.

(** *** Sleeping in a quiet world *)

Lemma play_quiet items : forall w fw,
  Forall (fun item : Z * action => is_event item.2 = false) items ->
  (play items w fw).2 = fw /\
  now (play items w fw).1 = now w /\
  schedule (play items w fw).1 = schedule w /\
  archive_dir (play items w fw).1 = archive_dir w /\
  error_dir (play items w fw).1 = error_dir w /\
  archive_writable (play items w fw).1 = archive_writable w /\
  error_writable (play items w fw).1 = error_writable w.
Proof.
  induction items as [|[t a] items IH]; intros w fw Hq; simpl; [done|].
  apply Forall_cons in Hq as [Ha Hq]. simpl in Ha.
  destruct a as [name text|name|ev]; [| |discriminate].
  - destruct (IH (apply_action t (Put name text) w) fw Hq) as (?&?&?&?&?&?&?).
    split_and!; done.
  - destruct (IH (apply_action t (Remove name) w) fw Hq) as (?&?&?&?&?&?&?).
    split_and!; done.
Qed.

Lemma sleep_quiet ms w fw :
  quiet w ->
  exists w1, sleep ms (w, fw) = (w1, fw) /\
    now w1 = now w + ms /\ quiet w1 /\
    archive_dir w1 = archive_dir w /\ error_dir w1 = error_dir w /\
    archive_writable w1 = archive_writable w /\
    error_writable w1 = error_writable w /\
    (schedule w = [] -> input_dir w1 = input_dir w /\ schedule w1 = []).
Proof.
  intros Hq. unfold sleep.
  set (t := now w + ms).
  set (soon := filter (fun i => Is_true (due t i)) (schedule w)).
  set (later := filter (fun i => ¬ Is_true (due t i)) (schedule w)).
  assert (Forall (fun item : Z * action => is_event item.2 = false) soon) as Hsoon.
  { apply Forall_forall. intros i Hi. apply list_elem_of_filter in Hi as [_ Hi].
    unfold quiet in Hq. rewrite Forall_forall in Hq. by apply Hq. }
  assert (Forall (fun item : Z * action => is_event item.2 = false) later) as Hlater.
  { apply Forall_forall. intros i Hi. apply list_elem_of_filter in Hi as [_ Hi].
    unfold quiet in Hq. rewrite Forall_forall in Hq. by apply Hq. }
  destruct (play_quiet soon (set_now t (set_schedule later w)) fw Hsoon)
    as (H1 & H2 & H3 & H4 & H5 & H6 & H7).
  destruct (play soon (set_now t (set_schedule later w)) fw) as [w1 fw1] eqn:Hplay.
  simpl in *. subst fw1. exists w1. split_and!; try done.
  - unfold quiet. by rewrite H3.
  - intros Hnil. subst soon later. rewrite Hnil in *. simpl in Hplay.
    injection Hplay as <-. done.
Qed.

(** The waiting loop of [consume_batch] when nothing will arrive: it sleeps
    until the timeout has elapsed and returns the messages it was given. *)
Lemma wait_for_files_idle batch_size timeout_ms start_time messages fw :
  forall (k fuel : nat) (w : world),
  quiet w ->
  file_queue fw = [] \/ batch_size <= len messages ->
  0 < polling_interval (config fw) ->
  timeout_ms - (now w - start_time)
    <= Z.of_nat k * (polling_interval (config fw) * 1000) ->
  (k < fuel)%nat ->
  exists w1,
    wait_for_files fuel batch_size timeout_ms start_time messages (w, fw)
      = Some (Ret messages, (w1, fw)) /\
    (len messages < batch_size -> timeout_ms <= now w1 - start_time) /\
    now w <= now w1 /\ quiet w1 /\
    archive_dir w1 = archive_dir w /\ error_dir w1 = error_dir w /\
    (schedule w = [] -> input_dir w1 = input_dir w /\ schedule w1 = []).
Proof.
  induction k as [|k IH]; intros fuel w Hq Hidle Hpoll Hleft Hfuel;
    (destruct fuel as [|fuel]; [lia|]); cbn [wait_for_files fst snd];
    destruct ((len messages <? batch_size) && (now w - start_time <? timeout_ms))
      eqn:Hcond.
  - apply andb_true_iff in Hcond as [_ Hc]. apply Z.ltb_lt in Hc. lia.
  - exists w. apply andb_false_iff in Hcond.
    split_and!; try done; try lia.
    all: intros Hlt; destruct Hcond as [Hc|Hc]; apply Z.ltb_ge in Hc; lia.
  - apply andb_true_iff in Hcond as [Hc1 Hc2].
    apply Z.ltb_lt in Hc1. apply Z.ltb_lt in Hc2.
    destruct Hidle as [Hempty|Hfull]; [|lia]. rewrite Hempty.
    destruct (polling_interval (config fw) <? 0) eqn:Hneg;
      [apply Z.ltb_lt in Hneg; lia|].
    destruct (sleep_quiet (polling_interval (config fw) * 1000) w fw Hq)
      as (w1 & -> & Hnow & Hq1 & Ha & He & _ & _ & Hs).
    destruct (IH fuel w1 Hq1 (or_introl Hempty) Hpoll)
      as (w2 & Hrun & Hlate & Hmono & Hq2 & Ha2 & He2 & Hs2); [lia | lia |].
    exists w2. split_and!; try done; try lia; try congruence.
    intros Hnil. destruct (Hs Hnil) as [Hi Hn]. destruct (Hs2 Hn) as [Hi2 Hn2].
    split; congruence.
  - exists w. apply andb_false_iff in Hcond.
    split_and!; try done; try lia.
    all: intros Hlt; destruct Hcond as [Hc|Hc]; apply Z.ltb_ge in Hc; lia.
Qed.

(** [consume_batch] on a connected watcher when no watch event is pending:
    with enough fuel it returns the first [batch_size] records of the queued
    files, in queue order.  When the batch did not fill up, the timeout has
    elapsed, the queue is empty, and the archive and error directories are
    those left by a complete run of the generator. *)
Lemma consume_batch_spec batch_size timeout_ms st :
  0 <= batch_size ->
  is_connected st.2 = true ->
  quiet st.1 ->
  0 < polling_interval (config st.2) ->
  let batch := take (Z.to_nat batch_size)
                    (flat_map (records_of st.1) (file_queue st.2)) in
  exists fuel0, forall fuel, (fuel0 <= fuel)%nat ->
  exists st1,
    consume_batch fuel batch_size timeout_ms st = Some (Ret batch, st1) /\
    (len batch < batch_size ->
       timeout_ms <= now st1.1 - now st.1 /\
       file_queue st1.2 = [] /\
       archive_dir st1.1 = archive_dir (settle (file_queue st.2) [] st.1) /\
       error_dir st1.1 = error_dir (settle (file_queue st.2) [] st.1) /\
       (schedule st.1 = [] ->
        input_dir st1.1 = input_dir (settle (file_queue st.2) [] st.1))).
Proof.
  intros Hpos Hconn Hq Hpoll batch.
  set (P := polling_interval (config st.2) * 1000).
  set (k := S (Z.to_nat (timeout_ms / P))).
  exists (Nat.max (S (Z.to_nat batch_size)) (S k)). intros fuel Hfuel.
  unfold consume_batch.
  destruct (for_messages_spec fuel batch_size (Fresh batch_size) [] st)
    as ([w1 fw1] & Hrun & Hcarry & Hend);
    [done | cbn; unfold len; simpl; lia | cbn; lia |].
  change (upcoming (Fresh batch_size) st)
    with (flat_map (records_of st.1) (file_queue st.2)) in Hrun, Hend.
  simpl in Hrun, Hend. fold batch in Hrun, Hend.
  unfold consume_messages. rewrite Hrun.
  destruct Hcarry as ((Hnow & Hsched & _ & _) & _ & Hcfg & _). simpl in *.
  assert (quiet w1) as Hq1 by (unfold quiet; by rewrite Hsched).
  destruct (wait_for_files_idle batch_size timeout_ms (now st.1) batch fw1 k fuel w1)
    as (w2 & Hwait & Hlate & Hmono & Hq2 & Ha & He & Hs); try done.
  - destruct (decide (len batch < batch_size)) as [Hlt|Hge]; [|right; lia].
    left. by apply Hend.
  - by rewrite Hcfg.
  - rewrite Hcfg, Hnow. fold P.
    assert (0 < P) as HP by (unfold P; lia).
    pose proof (Z.mul_succ_div_gt timeout_ms P HP) as Hdiv.
    unfold k. destruct (decide (0 <= timeout_ms)) as [Ht|Ht].
    + pose proof (Z.div_pos timeout_ms P Ht HP). lia.
    + assert (timeout_ms / P < 0) by (apply Z.div_lt_upper_bound; lia). lia.
  - lia.
  - exists (w2, fw1). split; [exact Hwait|].
    intros Hlt. destruct (Hend Hlt) as [Hempty Hfin]. simpl.
    split_and!; try done; try congruence.
    + by apply Hlate.
    + intros Hnil. rewrite Hsched in Hs. destruct (Hs Hnil) as [Hi _]. congruence.
Qed.

(** The waiting loop only returns once the batch is full or the timeout has
    elapsed, whatever happens around it. *)
Lemma wait_for_files_exit fuel batch_size timeout_ms start_time :
  forall messages st r st1,
  wait_for_files fuel batch_size timeout_ms start_time messages st
    = Some (Ret r, st1) ->
  batch_size <= len r \/ timeout_ms <= now st1.1 - start_time.
Proof.
  induction fuel as [|fuel IH]; intros messages st r st1 Hrun;
    cbn [wait_for_files] in Hrun; [discriminate|].
  destruct ((len messages <? batch_size) && (now st.1 - start_time <? timeout_ms))
    eqn:Hcond.
  - destruct (file_queue st.2) as [|p q].
    + destruct (polling_interval (config st.2) <? 0); [discriminate|].
      by eapply IH.
    + destruct (for_messages _ _ _ _ _) as [[[r1|e] st2]|]; try discriminate.
      by eapply IH.
  - injection Hrun as <- <-. apply andb_false_iff in Hcond as [Hc|Hc];
      apply Z.ltb_ge in Hc; [by left | by right].
Qed.

End WithRuntime.
End FileWatcherRun.

(** ** Termination of the file watcher's batch loop *)
Module FileWatcherTotal.
Import FileWatcher.

Lemma later_refl st : later st st.
Proof. split; [done|lia]. Qed.

Lemma later_trans st1 st2 st3 : later st1 st2 -> later st2 st3 -> later st1 st3.
Proof. intros [? ?] [? ?]. split; [congruence|lia]. Qed.

Lemma add_file_to_queue_config p w fw : config (add_file_to_queue p w fw) = config fw.
Proof. unfold add_file_to_queue. by destruct (_ && _). Qed.

Lemma dispatch_config ev w fw : config (dispatch ev w fw) = config fw.
Proof.
  unfold dispatch, on_created, on_moved.
  destruct (observer fw) as [[| |]|]; try done.
  destruct ev as [d p|d p]; destruct (_ && _); try done;
    apply add_file_to_queue_config.
Qed.

Lemma play_later items : forall w fw,
  config (play items w fw).2 = config fw /\ now (play items w fw).1 = now w.
Proof.
  induction items as [|[t a] items IH]; intros w fw; simpl; [done|].
  destruct (IH (apply_action t a w)
              (match a with Event ev => dispatch ev (apply_action t a w) fw | _ => fw end))
    as [Hc Hn].
  rewrite Hc, Hn. split.
  - destruct a; try done. apply dispatch_config.
  - by destruct a.
Qed.

Lemma sleep_later ms st :
  config (sleep ms st).2 = config st.2 /\ now (sleep ms st).1 = now st.1 + ms.
Proof.
  unfold sleep. destruct st as [w fw].
  destruct (play_later
    (filter (fun i => Is_true (due (now w + ms) i)) (schedule w))
    (set_now (now w + ms)
       (set_schedule (filter (fun i => ¬ Is_true (due (now w + ms) i)) (schedule w)) w))
    fw) as [Hc Hn].
  by rewrite Hc, Hn.
Qed.

Lemma scan_step_later st p : later st (scan_step st p).
Proof.
  unfold scan_step, _is_file_ready.
  destruct (input_dir st.1 !! p) as [f|]; [|destruct st; apply later_refl].
  destruct (sleep_later 500 st) as [Hc Hn].
  destruct (sleep 500 st) as [w1 fw1] eqn:Hs. simpl in *.
  assert (later st (w1, fw1)) as Hl by (split; simpl; [done|lia]).
  destruct (input_dir w1 !! p) as [f1|]; [|done].
  destruct ((st_size f =? st_size f1) && (0 <? st_size f1)); [|done].
  split; simpl; [|lia]. by rewrite add_file_to_queue_config.
Qed.

Lemma scan_later files : forall st, later st (fold_left scan_step files st).
Proof.
  induction files as [|p files IH]; intros st; simpl; [apply later_refl|].
  eapply later_trans; [apply scan_step_later | apply IH].
Qed.

Lemma connect_later st : later st (connect st).2.
Proof.
  unfold connect. destruct st as [w fw].
  destruct (is_connected fw); [apply later_refl|].
  assert (later (w, fw)
            (if process_existing (config fw)
             then _scan_existing_files (w, fw) else (w, fw))) as Hl.
  { destruct (process_existing (config fw)); [apply scan_later | apply later_refl]. }
  destruct (if process_existing (config fw)
            then _scan_existing_files (w, fw) else (w, fw)) as [w1 fw1].
  destruct (watch_startable w1); exact Hl.
Qed.

Section WithRuntime.
Context {RT : Runtime}.

Lemma enter_while_later fr st s st1 :
  enter_while fr st = (s, st1) -> later st st1.
Proof.
  unfold enter_while. destruct st as [w fw].
  destruct (while_files _ _ _) as [[s0 q] w1] eqn:Hw.
  intros [= <- <-]. apply FileWatcherRun.while_files_env in Hw as (Hn & _).
  split; simpl; [done|lia].
Qed.

Lemma fw_gen_next_later g st s st1 : gen_next g st = (s, st1) -> later st st1.
Proof.
  unfold gen_next. destruct g as [max|fr p rest|fr p|].
  - destruct (is_connected st.2); [apply enter_while_later|].
    pose proof (connect_later st) as Hl.
    destruct (connect st) as [[|] st0]; simpl in Hl.
    + intros Hw%enter_while_later. by eapply later_trans.
    + by intros [= <- <-].
  - destruct (for_item (count_message fr) rest) as [[item rest1]|].
    + intros [= <- <-]. apply later_refl.
    + apply enter_while_later.
  - apply enter_while_later.
  - intros [= <- <-]. apply later_refl.
Qed.

(** A generator that ends with budget left has emptied the queue. *)
Lemma gen_next_stop_queue g st st1 :
  gen_next g st = (StopIteration, st1) ->
  budget g <= 0 \/ file_queue st1.2 = [].
Proof.
  assert (forall fr st0, enter_while fr st0 = (StopIteration, st1) ->
            max_messages fr <= message_count fr \/ file_queue st1.2 = []) as Hstop.
  { intros fr st0 Hw%FileWatcherRun.enter_while_stop.
    destruct Hw as ([Hle|(_ & Hq & _)] & _); [by left | by right]. }
  unfold gen_next. destruct g as [max|fr p rest|fr p|]; simpl.
  - destruct (is_connected st.2).
    + intros Hw%Hstop. simpl in Hw. destruct Hw; [left; lia | by right].
    + destruct (connect st) as [[|] st0]; [|discriminate].
      intros Hw%Hstop. simpl in Hw. destruct Hw; [left; lia | by right].
  - destruct (for_item (count_message fr) rest) as [[item rest1]|]; [discriminate|].
    intros Hw%Hstop. simpl in Hw. destruct Hw; [left; lia | by right].
  - intros Hw%Hstop. simpl in Hw. destruct Hw; [left; lia | by right].
  - by left.
Qed.

(** The [for] loop of [consume_batch] always comes to an end. *)
Lemma fw_for_messages_total fuel batch_size : forall g messages st,
  budget g + len messages = batch_size ->
  (Z.to_nat (budget g) < fuel)%nat ->
  exists r st1,
    for_messages fuel batch_size g messages st = Some (r, st1) /\
    later st st1 /\
    (forall m, r = Ret m -> len m < batch_size -> file_queue st1.2 = []).
Proof.
  induction fuel as [|fuel IH]; intros g messages st Hsum Hfuel; [lia|].
  simpl. destruct (gen_next g st) as [[v g1| |e] st1] eqn:Hnext.
  - pose proof (fw_gen_next_later _ _ _ _ Hnext) as Hl.
    apply FileWatcherBound.fw_gen_next_yield in Hnext as [Hb Hb1].
    rewrite FileWatcherRun.len_snoc.
    destruct (batch_size <=? len messages + 1) eqn:Hfull.
    + apply Z.leb_le in Hfull. eexists _, st1. split_and!; [done|done|].
      intros m [= <-]. rewrite FileWatcherRun.len_snoc. lia.
    + destruct (IH g1 (messages ++ [v]) st1) as (r & st2 & Hrun & Hl2 & Hq).
      { rewrite FileWatcherRun.len_snoc. lia. }
      { lia. }
      exists r, st2. split_and!; [done | by eapply later_trans | done].
  - pose proof (fw_gen_next_later _ _ _ _ Hnext) as Hl.
    apply gen_next_stop_queue in Hnext.
    eexists _, st1. split_and!; [done|done|].
    intros m [= <-] Hlt. destruct Hnext; [lia|done].
  - pose proof (fw_gen_next_later _ _ _ _ Hnext) as Hl.
    eexists _, st1. split_and!; [done|done|]. discriminate.
Qed.

(** With a positive polling interval the waiting loop comes to an end. *)
Lemma wait_for_files_total batch_size timeout_ms start_time (P : Z) :
  0 < P ->
  forall (k fuel : nat) messages st,
  polling_interval (config st.2) * 1000 = P ->
  timeout_ms - (now st.1 - start_time) <= Z.of_nat k * P ->
  (2 * k + Z.to_nat batch_size + 3 <= fuel)%nat ->
  exists r,
    wait_for_files fuel batch_size timeout_ms start_time messages st = Some r.
Proof.
  intros HP.
  induction k as [|k IH]; intros fuel messages st Hpoll Hleft Hfuel;
    (destruct fuel as [|fuel]; [lia|]); cbn [wait_for_files];
    destruct ((len messages <? batch_size) && (now st.1 - start_time <? timeout_ms))
      eqn:Hcond; try by eexists.
  - apply andb_true_iff in Hcond as [_ Hc]. apply Z.ltb_lt in Hc. lia.
  - apply andb_true_iff in Hcond as [Hc1 Hc2].
    apply Z.ltb_lt in Hc1. apply Z.ltb_lt in Hc2.
    destruct (file_queue st.2) as [|p q] eqn:Hqueue.
    + destruct (polling_interval (config st.2) <? 0) eqn:Hneg;
        [apply Z.ltb_lt in Hneg; lia|].
      destruct (sleep_later (polling_interval (config st.2) * 1000) st) as [Hc Hn].
      apply IH; [congruence | lia | lia].
    + destruct (fw_for_messages_total fuel batch_size
                  (consume_messages (batch_size - len messages)) messages st)
        as (r & st1 & Hrun & [Hcfg Hmono] & Hempty);
        [simpl; lia | simpl; unfold len; lia |].
      rewrite Hrun. destruct r as [m|e]; [|by eexists].
      destruct fuel as [|fuel]; [lia|]. cbn [wait_for_files].
      destruct ((len m <? batch_size) && (now st1.1 - start_time <? timeout_ms))
        eqn:Hcond1; [|by eexists].
      apply andb_true_iff in Hcond1 as [Hd1 Hd2].
      apply Z.ltb_lt in Hd1. apply Z.ltb_lt in Hd2.
      rewrite (Hempty m eq_refl Hd1).
      destruct (polling_interval (config st1.2) <? 0) eqn:Hneg;
        [apply Z.ltb_lt in Hneg; rewrite Hcfg in Hneg; lia|].
      destruct (sleep_later (polling_interval (config st1.2) * 1000) st1) as [Hc Hn].
      apply IH; [congruence | rewrite Hn, Hcfg; lia | lia].
Qed.

(** [consume_batch] on the file watcher always returns or raises, provided
    the polling interval is positive. *)
Lemma fw_consume_batch_total batch_size timeout_ms st :
  0 < polling_interval (config st.2) ->
  exists fuel0, forall fuel, (fuel0 <= fuel)%nat ->
  exists r, consume_batch fuel batch_size timeout_ms st = Some r.
Proof.
  intros Hpoll.
  set (P := polling_interval (config st.2) * 1000).
  assert (0 < P) as HP by (unfold P; lia).
  set (k := S (Z.to_nat (timeout_ms / P))).
  exists (2 * k + Z.to_nat batch_size + 3)%nat. intros fuel Hfuel.
  unfold consume_batch.
  destruct (fw_for_messages_total fuel batch_size (consume_messages batch_size) [] st)
    as (r & st1 & Hrun & [Hcfg Hmono] & _);
    [simpl; unfold len; simpl; lia | simpl; lia |].
  rewrite Hrun. destruct r as [m|e]; [|by eexists].
  apply (wait_for_files_total batch_size timeout_ms (now st.1) P HP k);
    [unfold P; congruence | | done].
  pose proof (Z.mul_succ_div_gt timeout_ms P HP) as Hdiv.
  unfold k. destruct (decide (0 <= timeout_ms)) as [Ht|Ht].
  - pose proof (Z.div_pos timeout_ms P Ht HP). lia.
  - assert (timeout_ms / P < 0) by (apply Z.div_lt_upper_bound; lia). lia.
Qed.

End WithRuntime.
End FileWatcherTotal.

(** What [enqueue] does to the queue for paths that exist and are new. *)
Lemma enqueue_appends (paths : list string) (w : world) : forall fw,
  NoDup paths ->
  (forall p, p ∈ paths -> is_Some (input_dir w !! p) /\ p ∉ FileWatcher.file_queue fw) ->
  FileWatcher.file_queue (enqueue paths w fw) = FileWatcher.file_queue fw ++ paths /\
  FileWatcher.is_connected (enqueue paths w fw) = FileWatcher.is_connected fw /\
  FileWatcher.config (enqueue paths w fw) = FileWatcher.config fw.
Proof.
  induction paths as [|p paths IH]; intros fw Hnd Hnew; cbn [enqueue fold_left].
  { by rewrite app_nil_r. }
  apply NoDup_cons in Hnd as [Hp Hnd].
  destruct (Hnew p) as [Hex Hfresh]; [by left|].
  assert (FileWatcher.add_file_to_queue p w fw
          = FileWatcher.set_queue (FileWatcher.file_queue fw ++ [p]) fw) as Hadd.
  { unfold FileWatcher.add_file_to_queue, exists_.
    by rewrite !bool_decide_eq_true_2. }
  fold (enqueue paths w (FileWatcher.add_file_to_queue p w fw)). rewrite Hadd.
  destruct (IH (FileWatcher.set_queue (FileWatcher.file_queue fw ++ [p]) fw))
    as (Hq & Hc & Hcfg); [done| |].
  { intros q Hq. split; [apply Hnew; by right|]. cbn.
    rewrite elem_of_app, list_elem_of_singleton. intros [Hin| ->]; [|done].
    destruct (Hnew q) as [_ Hfresh']; [by right|]. done. }
  rewrite Hq, Hc, Hcfg. cbn. by rewrite <- app_assoc.
Qed.

(** C9.  Files that exist and are not queued yet, handed to
    [add_file_to_queue] in the order of their detection, join the queue at
    its end in that order; and a connected file watcher with no further
    arrivals pending then returns from [consume_batch] the records of the
    queued files in queue (FIFO) order, a file holding a list contributing
    its elements in list order, cut after [batch_size] records.  For files
    A, B, C enqueued in that order, B holding a two-element list, the batch
    is A, B1, B2, C. *)
Theorem C9_records_in_queue_order {RT : Runtime}
    (batch_size timeout_ms : Z) (w : world) (fw : FileWatcher.watcher)
    (paths : list string) :
  0 <= batch_size ->
  FileWatcher.is_connected fw = true ->
  quiet w ->
  0 < FileWatcher.polling_interval (FileWatcher.config fw) ->
  NoDup paths ->
  (forall p, p ∈ paths ->
     is_Some (input_dir w !! p) /\ p ∉ FileWatcher.file_queue fw) ->
  FileWatcher.file_queue (enqueue paths w fw) = FileWatcher.file_queue fw ++ paths /\
  exists fuel0, forall fuel, (fuel0 <= fuel)%nat ->
  exists st1,
    FileWatcher.consume_batch fuel batch_size timeout_ms (w, enqueue paths w fw)
    = Some (Ret (take (Z.to_nat batch_size)
                   (flat_map (FileWatcher.records_of w)
                             (FileWatcher.file_queue fw ++ paths))), st1).
Proof.
  intros Hpos Hconn Hq Hpoll Hnd Hnew.
  destruct (enqueue_appends paths w fw Hnd Hnew) as (Hqueue & Hc & Hcfg).
  split; [exact Hqueue|].
  destruct (FileWatcherRun.consume_batch_spec batch_size timeout_ms
              (w, enqueue paths w fw)) as (fuel0 & Hspec);
    [done|cbn [fst snd]; by rewrite Hc|done|cbn [fst snd]; by rewrite Hcfg|].
  exists fuel0. intros fuel Hfuel.
  destruct (Hspec fuel Hfuel) as (st1 & Hrun & _).
  cbn [fst snd] in Hrun. rewrite Hqueue in Hrun. by exists st1.
Qed.

(** Files A, B, C, with B holding the list [x, y], detected in that order by
    a watcher whose queue is empty: the batch is A, x, y, C. *)
Lemma C9_records_in_queue_order_witness :
  let w := Demo.world_with Demo.abc in
  let fw := enqueue ["a.json"; "b.json"; "c.json"]%string w
              (Demo.watching FileWatcher.default_config []) in
  FileWatcher.file_queue fw = ["a.json"; "b.json"; "c.json"]%string /\
  exists fuel0, forall fuel, (fuel0 <= fuel)%nat ->
  exists st1,
    FileWatcher.consume_batch (RT := Demo.runtime) fuel 10 5000 (w, fw)
    = Some (Ret [Demo.obj "A"; JStr "x"; JStr "y"; Demo.obj "C"], st1).
Proof.
  intros w fw.
  apply (C9_records_in_queue_order (RT := Demo.runtime) 10 5000 w
           (Demo.watching FileWatcher.default_config [])
           ["a.json"; "b.json"; "c.json"]%string).
  - lia.
  - reflexivity.
  - apply Forall_nil. exact I.
  - simpl. lia.
  - apply (bool_decide_unpack _). vm_compute. reflexivity.
  - intros p Hp. split; [|apply not_elem_of_nil].
    apply elem_of_cons in Hp as [->|Hp]; [by eexists|].
    apply elem_of_cons in Hp as [->|Hp]; [by eexists|].
    apply list_elem_of_singleton in Hp as ->. by eexists.
Defined.

(** ** Facts about file names *)
Module Paths.

Lemma append_inv_head a b c : a +:+ b = a +:+ c -> b = c.
Proof. induction a as [|x a IH]; simpl; [done|]. intros [= H]. by apply IH. Qed.

Lemma length_append a b :
  String.length (a +:+ b) = (String.length a + String.length b)%nat.
Proof. induction a as [|x a IH]; simpl; [done|]. by rewrite IH. Qed.

Lemma append_nonempty a b : b <> EmptyString -> a +:+ b <> EmptyString.
Proof. destruct a; simpl; [done|discriminate]. Qed.

Lemma last_char_append a b :
  b <> EmptyString -> last_char (a +:+ b) = last_char b.
Proof.
  intros Hb. induction a as [|x a IH]; [done|].
  change (String x a +:+ b) with (String x (a +:+ b)).
  pose proof (append_nonempty a b Hb) as Hne. simpl.
  destruct (a +:+ b); [done | exact IH].
Qed.

Lemma last_char_sdrop k : forall s,
  sdrop k s <> EmptyString -> last_char (sdrop k s) = last_char s.
Proof.
  induction k as [|k IH]; intros s Hne; [done|].
  destruct s as [|x s]; [done|]. simpl in *.
  rewrite (IH s Hne). destruct s; [by destruct k|done].
Qed.

Lemma stake_sdrop k : forall s, stake k s +:+ sdrop k s = s.
Proof.
  induction k as [|k IH]; intros s; [done|].
  destruct s as [|x s]; [done|].
  change (String x (stake k s +:+ sdrop k s) = String x s). by rewrite IH.
Qed.

Lemma length_sdrop k : forall s,
  String.length (sdrop k s) = (String.length s - k)%nat.
Proof.
  induction k as [|k IH]; intros s; simpl; [lia|].
  destruct s as [|x s]; [done|]. simpl. apply IH.
Qed.

Lemma rfind_dot_lt s : forall i, rfind_dot s = Some i -> (i < String.length s)%nat.
Proof.
  induction s as [|x s IH]; intros i; simpl; [discriminate|].
  destruct (rfind_dot s) as [j|].
  - intros [= <-]. specialize (IH j eq_refl). lia.
  - destruct (Ascii.eqb x "."); [|discriminate]. intros [= <-]. lia.
Qed.

Lemma rfind_dot_sdrop s : forall i,
  rfind_dot s = Some i -> rfind_dot (sdrop i s) = Some 0%nat.
Proof.
  induction s as [|x s IH]; intros i; simpl; [discriminate|].
  destruct (rfind_dot s) as [j|] eqn:Hj.
  - intros [= <-]. simpl. by apply IH.
  - destruct (Ascii.eqb x ".") eqn:Hx; [|discriminate]. intros [= <-].
    simpl. by rewrite Hj, Hx.
Qed.

(** The report never has the name of the file it reports on. *)
Lemma with_suffix_error_ne name : with_suffix name ".error.txt" <> name.
Proof.
  unfold with_suffix, suffix. intros Heq.
  assert (name +:+ ".error.txt" <> name) as Hlong.
  { intros H. apply (f_equal String.length) in H.
    rewrite length_append in H. simpl in H. lia. }
  destruct (rfind_dot name) as [i|] eqn:Hi; [|done].
  destruct ((0 <? i) && (i <? String.length name - 1))%nat; [|done].
  pose proof (rfind_dot_lt _ _ Hi) as Hlt.
  pose proof (rfind_dot_sdrop _ _ Hi) as Hdot.
  pose proof (length_sdrop i name) as Hlen.
  destruct (sdrop i name) as [|c rest] eqn:Hdrop; [done|].
  replace (String.length name - String.length (String c rest))%nat with i in Heq by lia.
  rewrite <- (stake_sdrop i name) in Heq at 2. apply append_inv_head in Heq.
  rewrite Hdrop in Heq. rewrite <- Heq in Hdot. vm_compute in Hdot. discriminate.
Qed.

Lemma with_suffix_error_last name :
  last_char (with_suffix name ".error.txt") = Some "t"%char.
Proof.
  unfold with_suffix. destruct (suffix name); by rewrite last_char_append.
Qed.

Lemma ends_with_json_last name :
  ends_with name ".json" = true -> last_char name = Some "n"%char.
Proof.
  unfold ends_with. intros [_ Heq%String.eqb_eq]%andb_true_iff.
  rewrite <- (last_char_sdrop (String.length name - String.length ".json") name);
    by rewrite Heq.
Qed.

Section WithRuntime.
Context {RT : Runtime}.

Lemma stamped_inj t p q :
  FileWatcher.stamped t p = FileWatcher.stamped t q -> p = q.
Proof.
  unfold FileWatcher.stamped. intros H%append_inv_head. by injection H.
Qed.

Lemma stamped_last t p :
  p <> EmptyString -> last_char (FileWatcher.stamped t p) = last_char p.
Proof.
  intros Hp. unfold FileWatcher.stamped. rewrite last_char_append; [|done].
  simpl. by destruct p.
Qed.

(** A report is never mistaken for a stamped .json file. *)
Lemma report_ne_stamped_json t name p :
  ends_with p ".json" = true ->
  with_suffix name ".error.txt" <> FileWatcher.stamped t p.
Proof.
  intros Hjson Heq. apply (f_equal last_char) in Heq.
  rewrite with_suffix_error_last, stamped_last in Heq.
  - rewrite (ends_with_json_last _ Hjson) in Heq. discriminate.
  - intros ->. discriminate.
Qed.

End WithRuntime.
End Paths.

(** ** Where the files of a complete run end up *)
Module Disposal.
Import FileWatcher.

Section WithRuntime.
Context {RT : Runtime}.

Lemma archive_file_input q w :
  input_dir (_archive_file q w) = delete q (input_dir w).
Proof.
  unfold _archive_file, move. destruct (input_dir w !! q); [|done].
  by destruct (archive_writable w).
Qed.

Lemma archive_file_error q w : error_dir (_archive_file q w) = error_dir w.
Proof.
  unfold _archive_file, move. destruct (input_dir w !! q); [|done].
  by destruct (archive_writable w).
Qed.

Lemma archive_file_archive q w :
  archive_dir (_archive_file q w) =
  match input_dir w !! q with
  | Some f => if archive_writable w
              then <[stamped (now w) q := f]> (archive_dir w) else archive_dir w
  | None => archive_dir w
  end.
Proof.
  unfold _archive_file, move. destruct (input_dir w !! q); [|done].
  by destruct (archive_writable w).
Qed.

Lemma move_file_to_error_archive q m w :
  archive_dir (_move_file_to_error q m w) = archive_dir w.
Proof.
  unfold _move_file_to_error, move. destruct (input_dir w !! q); [|done].
  by destruct (error_writable w).
Qed.

Lemma move_file_to_error_input q m w p :
  input_dir (_move_file_to_error q m w) !! p
  = if decide (p = q) then
      (if error_writable w then None else input_dir w !! p)
    else input_dir w !! p.
Proof.
  unfold _move_file_to_error, move.
  destruct (input_dir w !! q) as [f|] eqn:Hq.
  - destruct (error_writable w); simpl.
    + destruct (decide (p = q)) as [->|Hne];
        [apply lookup_delete_eq | by apply lookup_delete_ne].
    + by destruct (decide (p = q)).
  - destruct (decide (p = q)) as [->|Hne]; [|done].
    rewrite Hq. by destruct (error_writable w).
Qed.

Lemma move_file_to_error_input_some q m w p f :
  input_dir (_move_file_to_error q m w) !! p = Some f -> input_dir w !! p = Some f.
Proof.
  rewrite move_file_to_error_input. destruct (decide (p = q)); [|done].
  by destruct (error_writable w).
Qed.

Lemma move_file_to_error_error q m w :
  error_dir (_move_file_to_error q m w) =
  match input_dir w !! q with
  | Some f =>
      if error_writable w then
        <[with_suffix (stamped (now w) q) ".error.txt" :=
            {| content := error_report q (now w) m; mtime := now w |}]>
          (<[stamped (now w) q := f]> (error_dir w))
      else error_dir w
  | None => error_dir w
  end.
Proof.
  unfold _move_file_to_error, move. destruct (input_dir w !! q); [|done].
  by destruct (error_writable w).
Qed.

Lemma archive_all_error l : forall w, error_dir (fold_left (fun w0 p0 => _archive_file p0 w0) l w) = error_dir w.
Proof.
  induction l as [|q l IH]; intros w; simpl; [done|].
  by rewrite IH, archive_file_error.
Qed.

Lemma archive_all_input_none l : forall w p,
  input_dir w !! p = None -> input_dir (fold_left (fun w0 p0 => _archive_file p0 w0) l w) !! p = None.
Proof.
  induction l as [|q l IH]; intros w p Hp; simpl; [done|].
  apply IH. rewrite archive_file_input. apply lookup_delete_None. by right.
Qed.

Lemma archive_all_frame l : forall w key,
  (forall q, q ∈ l -> key <> stamped (now w) q) ->
  archive_dir (fold_left (fun w0 p0 => _archive_file p0 w0) l w) !! key = archive_dir w !! key.
Proof.
  induction l as [|q l IH]; intros w key Hkey; simpl; [done|].
  destruct (FileWatcherRun.archive_file_env q w) as (Hnow & _).
  rewrite IH.
  - rewrite archive_file_archive.
    destruct (input_dir w !! q); [|done].
    destruct (archive_writable w); [|done].
    apply lookup_insert_ne. intros Heq. by apply (Hkey q); [left|].
  - intros q0 Hq0. rewrite Hnow. apply Hkey. by right.
Qed.

Lemma archive_all_hit l p f : forall w,
  NoDup l -> p ∈ l ->
  input_dir w !! p = Some f -> archive_writable w = true ->
  archive_dir (fold_left (fun w0 p0 => _archive_file p0 w0) l w) !! stamped (now w) p = Some f /\
  input_dir (fold_left (fun w0 p0 => _archive_file p0 w0) l w) !! p = None.
Proof.
  induction l as [|q l IH]; intros w Hnd Hin Hp Hw; [by apply elem_of_nil in Hin|].
  apply NoDup_cons in Hnd as [Hq Hnd]. simpl.
  destruct (FileWatcherRun.archive_file_env q w) as (Hnow & _ & Hwr & _).
  destruct (decide (p = q)) as [<-|Hne].
  - split.
    + rewrite archive_all_frame.
      * rewrite archive_file_archive, Hp, Hw. apply lookup_insert_eq.
      * intros q0 Hq0 Heq. rewrite Hnow in Heq.
        apply Paths.stamped_inj in Heq. by subst.
    + apply archive_all_input_none. rewrite archive_file_input.
      apply lookup_delete_eq.
  - apply elem_of_cons in Hin as [->|Hin]; [done|].
    rewrite <- Hnow. apply IH; try done.
    + rewrite archive_file_input. by rewrite lookup_delete_ne.
    + by rewrite Hwr.
Qed.

Lemma settle_input_none queue : forall processed w p,
  input_dir w !! p = None -> input_dir (settle queue processed w) !! p = None.
Proof.
  induction queue as [|q queue IH]; intros processed w p Hp; simpl.
  - by apply archive_all_input_none.
  - destruct (input_dir w !! q) as [f|]; [|by apply IH].
    destruct (json_load (content f)); [by apply IH| |];
      (apply IH; rewrite move_file_to_error_input;
       destruct (decide (p = q)); [by destruct (error_writable w)|done]).
Qed.

(** Only files that decoded put anything into the archive directory. *)
Lemma settle_archive_frame queue : forall processed w key,
  (forall q, q ∈ processed -> key <> stamped (now w) q) ->
  (forall q f d, q ∈ queue -> input_dir w !! q = Some f ->
     json_load (content f) = Loaded d -> key <> stamped (now w) q) ->
  archive_dir (settle queue processed w) !! key = archive_dir w !! key.
Proof.
  induction queue as [|q queue IH]; intros processed w key Hpr Hq; simpl.
  - by apply archive_all_frame.
  - destruct (input_dir w !! q) as [f|] eqn:Hf.
    2:{ apply IH; [done|]. intros q0 f0 d0 Hin. apply Hq. by right. }
    destruct (json_load (content f)) as [d|msg|msg] eqn:Hload.
    + apply IH.
      * intros q0 [Hin|Hin%list_elem_of_singleton]%elem_of_app; [by apply Hpr|].
        subst q0. eapply Hq; [by left|done|done].
      * intros q0 f0 d0 Hin. apply Hq. by right.
    + destruct (FileWatcherRun.move_file_to_error_env q
                  ("JSON decode error: " +:+ msg) w) as (Hnow & _).
      rewrite IH; [by rewrite move_file_to_error_archive| |].
      * intros q0 Hin. rewrite Hnow. by apply Hpr.
      * intros q0 f0 d0 Hin Hf0%move_file_to_error_input_some. rewrite Hnow.
        apply Hq; [by right|done].
    + destruct (FileWatcherRun.move_file_to_error_env q
                  ("Processing error: " +:+ msg) w) as (Hnow & _).
      rewrite IH; [by rewrite move_file_to_error_archive| |].
      * intros q0 Hin. rewrite Hnow. by apply Hpr.
      * intros q0 f0 d0 Hin Hf0%move_file_to_error_input_some. rewrite Hnow.
        apply Hq; [by right|done].
Qed.

(** Only files that did not decode put anything into the error directory. *)
Lemma settle_error_frame queue : forall processed w key,
  (forall q f, q ∈ queue -> input_dir w !! q = Some f ->
     (forall d, json_load (content f) <> Loaded d) ->
     key <> stamped (now w) q /\
     key <> with_suffix (stamped (now w) q) ".error.txt") ->
  error_dir (settle queue processed w) !! key = error_dir w !! key.
Proof.
  induction queue as [|q queue IH]; intros processed w key Hq; simpl.
  - by rewrite archive_all_error.
  - destruct (input_dir w !! q) as [f|] eqn:Hf.
    2:{ apply IH. intros q0 f0 Hin. apply Hq. by right. }
    assert (forall m, (forall d, json_load (content f) <> Loaded d) ->
      error_dir (settle queue processed (_move_file_to_error q m w)) !! key
      = error_dir w !! key) as Hbad.
    { intros m Hnot.
      destruct (FileWatcherRun.move_file_to_error_env q m w) as (Hnow & _).
      rewrite IH.
      - rewrite move_file_to_error_error, Hf.
        destruct (error_writable w); [|done].
        destruct (Hq q f) as [Hk1 Hk2]; [by left|done|done|].
        rewrite lookup_insert_ne by done. by rewrite lookup_insert_ne.
      - intros q0 f0 Hin Hf0%move_file_to_error_input_some. rewrite Hnow.
        apply Hq; [by right|done]. }
    destruct (json_load (content f)) as [d|msg|msg] eqn:Hload.
    + apply IH. intros q0 f0 Hin. apply Hq. by right.
    + by apply Hbad.
    + by apply Hbad.
Qed.

(** A file that decoded ends in the archive directory. *)
Lemma settle_archives p f d queue : forall processed w,
  NoDup (processed ++ queue) -> p ∈ processed ++ queue ->
  input_dir w !! p = Some f -> json_load (content f) = Loaded d ->
  archive_writable w = true ->
  archive_dir (settle queue processed w) !! stamped (now w) p = Some f /\
  input_dir (settle queue processed w) !! p = None.
Proof.
  induction queue as [|q queue IH]; intros processed w Hnd Hin Hp Hload Hw; simpl.
  - rewrite app_nil_r in Hnd, Hin. by apply archive_all_hit.
  - assert (NoDup ((processed ++ [q]) ++ queue)) as Hnd1
      by (by rewrite <- app_assoc).
    assert (p ∈ (processed ++ [q]) ++ queue) as Hin1
      by (by rewrite <- app_assoc).
    assert (NoDup (processed ++ queue)) as Hnd2.
    { apply NoDup_app in Hnd as (H1 & H2 & H3%NoDup_cons).
      apply NoDup_app. split_and!; [done| |tauto].
      intros x Hx Hx'. apply (H2 x Hx). by right. }
    assert (p <> q -> p ∈ processed ++ queue) as Hin2.
    { intros Hne. apply elem_of_app in Hin as [Hin|Hin%elem_of_cons];
        apply elem_of_app; [by left|]. destruct Hin; [done|by right]. }
    destruct (input_dir w !! q) as [f0|] eqn:Hf.
    2:{ apply IH; try done. apply Hin2. congruence. }
    assert (forall m, (forall d0, json_load (content f0) <> Loaded d0) ->
      archive_dir (settle queue processed (_move_file_to_error q m w))
        !! stamped (now w) p = Some f /\
      input_dir (settle queue processed (_move_file_to_error q m w)) !! p = None)
      as Hbad.
    { intros m Hnot.
      assert (p <> q) as Hne
        by (intros ->; rewrite Hp in Hf; injection Hf as <-; by apply (Hnot d)).
      destruct (FileWatcherRun.move_file_to_error_env q m w) as (Hnow & _ & Hwr & _).
      rewrite <- Hnow. apply IH; try done; [by apply Hin2| |congruence].
      rewrite move_file_to_error_input. by destruct (decide (p = q)). }
    destruct (json_load (content f0)) as [d0|msg|msg] eqn:Hload0.
    + by apply IH.
    + by apply Hbad.
    + by apply Hbad.
Qed.

(** A file that did not decode ends in the error directory. *)
Lemma settle_quarantines p f queue : forall processed w,
  NoDup queue -> p ∈ queue ->
  input_dir w !! p = Some f -> (forall d, json_load (content f) <> Loaded d) ->
  error_writable w = true -> ends_with p ".json" = true ->
  error_dir (settle queue processed w) !! stamped (now w) p = Some f /\
  input_dir (settle queue processed w) !! p = None.
Proof.
  induction queue as [|q queue IH]; intros processed w Hnd Hin Hp Hnot Hw Hjson;
    [by apply elem_of_nil in Hin|].
  apply NoDup_cons in Hnd as [Hq Hnd]. simpl.
  destruct (decide (p = q)) as [<-|Hne].
  - rewrite Hp.
    assert (forall m,
      error_dir (settle queue processed (_move_file_to_error p m w))
        !! stamped (now w) p = Some f /\
      input_dir (settle queue processed (_move_file_to_error p m w)) !! p = None)
      as Hhere.
    { intros m.
      destruct (FileWatcherRun.move_file_to_error_env p m w) as (Hnow & _).
      split.
      - rewrite settle_error_frame.
        + rewrite move_file_to_error_error, Hp, Hw.
          rewrite lookup_insert_ne by apply Paths.with_suffix_error_ne.
          apply lookup_insert_eq.
        + intros q0 f0 Hq0 _ _. rewrite Hnow. split.
          * intros Heq%Paths.stamped_inj. by subst.
          * intros Heq. symmetry in Heq.
            by apply Paths.report_ne_stamped_json in Heq.
      - apply settle_input_none. rewrite move_file_to_error_input.
        rewrite decide_True by done. by rewrite Hw. }
    destruct (json_load (content f)) as [d|msg|msg] eqn:Hload;
      [by destruct (Hnot d) | apply Hhere | apply Hhere].
  - apply elem_of_cons in Hin as [->|Hin]; [done|].
    destruct (input_dir w !! q) as [f0|] eqn:Hf; [|by apply IH].
    assert (forall m,
      error_dir (settle queue processed (_move_file_to_error q m w))
        !! stamped (now w) p = Some f /\
      input_dir (settle queue processed (_move_file_to_error q m w)) !! p = None)
      as Hbad.
    { intros m.
      destruct (FileWatcherRun.move_file_to_error_env q m w) as (Hnow & _ & _ & Hwr).
      rewrite <- Hnow. apply IH; try done; [|congruence].
      rewrite move_file_to_error_input. by rewrite decide_False. }
    destruct (json_load (content f0)) as [d0|msg|msg];
      [by apply IH | apply Hbad | apply Hbad].
Qed.

End WithRuntime.
End Disposal.

(** X21.  A run that does not fill the batch disposes of every file.  Take a
    connected watcher with a positive polling interval whose queue has no
    duplicates, no interference from outside during the call, both
    directories writable, and a batch size that the queued records do not
    reach.  Then [consume_batch] empties the queue, and every queued file
    that still exists leaves the input directory and arrives, under its
    stamped name, in exactly one directory: the archive directory if its
    content decoded (the error directory then has no new entry under that
    name), the error directory otherwise (the archive directory then has no
    new entry under that name). *)
Theorem X21_complete_run_disposes_each_file {RT : Runtime}
    (batch_size timeout_ms : Z) (st : FileWatcher.state) (p : string) (f : file) :
  FileWatcher.is_connected st.2 = true ->
  schedule st.1 = [] ->
  0 < FileWatcher.polling_interval (FileWatcher.config st.2) ->
  archive_writable st.1 = true ->
  error_writable st.1 = true ->
  NoDup (FileWatcher.file_queue st.2) ->
  len (flat_map (FileWatcher.records_of st.1) (FileWatcher.file_queue st.2))
    < batch_size ->
  p ∈ FileWatcher.file_queue st.2 ->
  input_dir st.1 !! p = Some f ->
  ends_with p ".json" = true ->
  let name := FileWatcher.stamped (now st.1) p in
  exists fuel0, forall fuel, (fuel0 <= fuel)%nat ->
  exists batch st1,
    FileWatcher.consume_batch fuel batch_size timeout_ms st = Some (Ret batch, st1) /\
    FileWatcher.file_queue st1.2 = [] /\
    input_dir st1.1 !! p = None /\
    ((forall d, json_load (content f) = Loaded d ->
        archive_dir st1.1 !! name = Some f /\
        error_dir st1.1 !! name = error_dir st.1 !! name) /\
     ((forall d, json_load (content f) <> Loaded d) ->
        error_dir st1.1 !! name = Some f /\
        archive_dir st1.1 !! name = archive_dir st.1 !! name)).
Proof.
  intros Hconn Hsched Hpoll Haw Hew Hnd Hroom Hin Hp Hjson name.
  assert (quiet st.1) as Hq by (unfold quiet; rewrite Hsched; constructor).
  assert (0 <= batch_size) as Hpos by (unfold len in Hroom; lia).
  destruct (FileWatcherRun.consume_batch_spec batch_size timeout_ms st
              Hpos Hconn Hq Hpoll) as (fuel0 & Hspec).
  exists fuel0. intros fuel Hfuel.
  destruct (Hspec fuel Hfuel) as (st1 & Hrun & Hend). clear Hspec.
  rewrite take_ge in Hrun, Hend by (unfold len in Hroom; lia).
  destruct (Hend Hroom) as (_ & Hempty & Ha & He & Hi). specialize (Hi Hsched).
  eexists _, st1. split; [exact Hrun|]. split; [exact Hempty|].
  rewrite Ha, He, Hi.
  set (queue := FileWatcher.file_queue st.2) in *.
  assert (input_dir (FileWatcher.settle queue [] st.1) !! p = None) as Hgone.
  { destruct (json_load (content f)) as [d|msg|msg] eqn:Hload.
    - by eapply Disposal.settle_archives.
    - eapply Disposal.settle_quarantines; try done. congruence.
    - eapply Disposal.settle_quarantines; try done. congruence. }
  split; [exact Hgone|]. split.
  - intros d Hload. split; [by eapply Disposal.settle_archives|].
    apply Disposal.settle_error_frame. intros q f0 Hq0 Hf0 Hnot. split.
    + intros Heq%Paths.stamped_inj. subst q. rewrite Hp in Hf0.
      injection Hf0 as <-. by apply (Hnot d).
    + intros Heq. symmetry in Heq.
      by apply Paths.report_ne_stamped_json in Heq.
  - intros Hnot. split; [by eapply Disposal.settle_quarantines|].
    apply Disposal.settle_archive_frame; [by intros q Hq0%elem_of_nil|].
    intros q f0 d Hq0 Hf0 Hload Heq%Paths.stamped_inj. subst q.
    rewrite Hp in Hf0. injection Hf0 as <-. by apply (Hnot d).
Qed.

(** A queue with one file that decodes and one that does not, read with
    room to spare: the second one ends in the error directory only. *)
Lemma X21_complete_run_disposes_each_file_witness :
  let st := (Demo.world_with Demo.mixed,
             Demo.watching FileWatcher.default_config ["a.json"; "bad.json"]%string) in
  let f := Demo.file_at 20 "{oops" in
  exists fuel0, forall fuel, (fuel0 <= fuel)%nat ->
  exists batch st1,
    FileWatcher.consume_batch (RT := Demo.runtime) fuel 10 5000 st
      = Some (Ret batch, st1) /\
    FileWatcher.file_queue st1.2 = [] /\
    input_dir st1.1 !! "bad.json"%string = None /\
    ((forall d, Demo.load "{oops" = Loaded d ->
        archive_dir st1.1 !! "100_bad.json"%string = Some f /\
        error_dir st1.1 !! "100_bad.json"%string = None) /\
     ((forall d, Demo.load "{oops" <> Loaded d) ->
        error_dir st1.1 !! "100_bad.json"%string = Some f /\
        archive_dir st1.1 !! "100_bad.json"%string = None)).
Proof.
  intros st f.
  apply (X21_complete_run_disposes_each_file (RT := Demo.runtime) 10 5000 st
           "bad.json" f).
  - reflexivity.
  - reflexivity.
  - simpl. lia.
  - reflexivity.
  - reflexivity.
  - apply (bool_decide_unpack _). vm_compute. reflexivity.
  - vm_compute. reflexivity.
  - apply (bool_decide_unpack _). vm_compute. reflexivity.
  - vm_compute. reflexivity.
  - vm_compute. reflexivity.
Defined.

(** C1.  Two files that decode, each holding one record, are queued on a
    connected watcher in a world where both target directories can be
    written, and two records are asked for.  [consume_batch] returns both
    records and dequeues both files, but the batch is full when the second
    record arrives, the loop is left by [break] and the generator is dropped
    at its [yield]: neither file is archived or quarantined, both stay in
    the input directory, and a further call on the same watcher finds
    nothing to do.  After a reconnect the scan queues both files again and
    they are read a second time.  Asked for three records instead, the same
    watcher lets the generator run to its end and both files are archived. *)
Theorem C1_full_batch_leaves_files_undisposed :
  let a := Demo.file_at 10 "{A}" in
  let c := Demo.file_at 30 "{C}" in
  let files : gmap string file :=
    <["a.json"%string := a]> (<["c.json"%string := c]> ∅) in
  let st := (Demo.world_with files,
             Demo.watching FileWatcher.default_config ["a.json"; "c.json"]%string) in
  (exists st1,
     FileWatcher.consume_batch (RT := Demo.runtime) 5 2 5000 st
       = Some (Ret [Demo.obj "A"; Demo.obj "C"], st1) /\
     FileWatcher.file_queue st1.2 = [] /\
     input_dir st1.1 = files /\
     archive_dir st1.1 = ∅ /\ error_dir st1.1 = ∅ /\
     (exists st2,
        FileWatcher.consume_batch (RT := Demo.runtime) 5 2 0 st1 = Some (Ret [], st2) /\
        input_dir st2.1 = files /\ archive_dir st2.1 = ∅ /\ error_dir st2.1 = ∅) /\
     (exists st3,
        FileWatcher.consume_batch (RT := Demo.runtime) 5 2 5000
          (FileWatcher.close st1).2
          = Some (Ret [Demo.obj "A"; Demo.obj "C"], st3) /\
        input_dir st3.1 = files /\ archive_dir st3.1 = ∅)) /\
  (exists st1,
     FileWatcher.consume_batch (RT := Demo.runtime) 5 3 5000 st
       = Some (Ret [Demo.obj "A"; Demo.obj "C"], st1) /\
     input_dir st1.1 = ∅ /\
     archive_dir st1.1 !! "100_a.json"%string = Some a /\
     archive_dir st1.1 !! "100_c.json"%string = Some c /\
     error_dir st1.1 = ∅).
Proof.
  intros a c files st. split.
  - eexists. split; [vm_compute; reflexivity|].
    split; [reflexivity|]. split; [vm_compute; reflexivity|].
    split; [reflexivity|]. split; [reflexivity|]. split.
    + eexists. split; [vm_compute; reflexivity|]. by vm_compute.
    + eexists. split; [vm_compute; reflexivity|]. by vm_compute.
  - eexists. split; [vm_compute; reflexivity|]. by vm_compute.
Qed.

(** C10.  A file holding three records is read with room for two.  The
    watcher returns the first two records and drops the generator at its
    [yield]: the file is dequeued but stays in the input directory, neither
    archived nor quarantined, and a further call returns nothing.  After a
    reconnect the scan finds the file again and its first two records are
    delivered a second time.  When the same generator is instead resumed
    until it ends, it does mark the file as processed and archives it. *)
Theorem C10_truncated_file_is_not_archived :
  let b := Demo.file_at 10 "[xyz]" in
  let st := (Demo.world_with {["b.json"%string := b]},
             Demo.watching FileWatcher.default_config ["b.json"%string]) in
  (exists st1,
     FileWatcher.consume_batch (RT := Demo.runtime) 5 2 5000 st
       = Some (Ret [JStr "x"; JStr "y"], st1) /\
     FileWatcher.file_queue st1.2 = [] /\
     input_dir st1.1 !! "b.json"%string = Some b /\
     archive_dir st1.1 = ∅ /\ error_dir st1.1 = ∅ /\
     (exists st2,
        FileWatcher.consume_batch (RT := Demo.runtime) 5 2 0 st1 = Some (Ret [], st2) /\
        input_dir st2.1 !! "b.json"%string = Some b /\ archive_dir st2.1 = ∅) /\
     (exists st3,
        FileWatcher.consume_batch (RT := Demo.runtime) 5 2 5000
          (FileWatcher.close st1).2
          = Some (Ret [JStr "x"; JStr "y"], st3) /\
        archive_dir st3.1 = ∅)) /\
  (exists g1 st1 g2 st2 st3,
     FileWatcher.gen_next (RT := Demo.runtime) (FileWatcher.consume_messages 2) st
       = (FileWatcher.Yield (JStr "x") g1, st1) /\
     FileWatcher.gen_next (RT := Demo.runtime) g1 st1
       = (FileWatcher.Yield (JStr "y") g2, st2) /\
     FileWatcher.gen_next (RT := Demo.runtime) g2 st2
       = (FileWatcher.StopIteration, st3) /\
     archive_dir st3.1 !! "100_b.json"%string = Some b /\
     input_dir st3.1 = ∅).
Proof.
  intros b st. split.
  - eexists. split; [vm_compute; reflexivity|].
    split; [reflexivity|]. split; [vm_compute; reflexivity|].
    split; [reflexivity|]. split; [reflexivity|]. split.
    + eexists. split; [vm_compute; reflexivity|]. by vm_compute.
    + eexists. split; [vm_compute; reflexivity|]. by vm_compute.
  - eexists _, _, _, _, _.
    split; [vm_compute; reflexivity|]. split; [vm_compute; reflexivity|].
    split; [vm_compute; reflexivity|]. by vm_compute.
Qed.

(** C6 (amended).  When the file at the head of the queue exists and its
    content cannot be read, be it that the text is not JSON
    (JSONDecodeError) or that reading fails in any other way (the handler of
    Exception), the loop of [consume_messages] yields none of its records,
    does not mark it as processed, hands it to [_move_file_to_error] and goes
    on with the rest of the queue; the loop never raises.  If the move into
    the error directory succeeds, the file leaves the input directory and
    sits in the error directory under its timestamp-prefixed name, next to a
    report (same name, suffix replaced by .error.txt) holding the original
    name, the ISO timestamp and the reason: "JSON decode error: <message>"
    in the first case, "Processing error: <message>" in the second.  If the
    move fails, the failure is only logged: nothing is moved and no report is
    written. *)
Theorem C6_decode_failure_is_quarantined {RT : Runtime}
    (p : string) (queue : list string) (fr : FileWatcher.frame) (w : world)
    (f : file) (reason : string) :
  input_dir w !! p = Some f ->
  failure_reason (content f) = Some reason ->
  FileWatcher.message_count fr < FileWatcher.max_messages fr ->
  let w1 := FileWatcher._move_file_to_error p reason w in
  let name := FileWatcher.stamped (now w) p in
  (exists msg,
     json_load (content f) = DecodeError msg /\
     reason = "JSON decode error: " +:+ msg \/
     json_load (content f) = OtherError msg /\
     reason = "Processing error: " +:+ msg) /\
  FileWatcher.records_of w p = [] /\
  FileWatcher.while_files (p :: queue) fr w = FileWatcher.while_files queue fr w1 /\
  (forall e queue1 w2,
     FileWatcher.while_files (p :: queue) fr w <> (FileWatcher.Raised e, queue1, w2)) /\
  archive_dir w1 = archive_dir w /\
  (error_writable w = true ->
     input_dir w1 = delete p (input_dir w) /\
     error_dir w1 !! name = Some f /\
     error_dir w1 !! with_suffix name ".error.txt" =
       Some {| content :=
                 "Error processing file: " +:+ p +:+ nl +:+
                 "Timestamp: " +:+ isoformat (now w) +:+ nl +:+
                 "Error: " +:+ reason +:+ nl;
               mtime := now w |}) /\
  (error_writable w = false -> w1 = w).
Proof.
  intros Hp Hfail Hlt w1 name. unfold failure_reason in Hfail. split_and!.
  - destruct (json_load (content f)) as [d|msg|msg]; [discriminate| |];
      injection Hfail as <-; exists msg; [by left|by right].
  - apply (FileWatcherRun.records_of_bad w p f Hp). intros d Hd.
    by rewrite Hd in Hfail.
  - simpl. apply Z.ltb_lt in Hlt. rewrite Hlt, Hp. unfold w1.
    destruct (json_load (content f)) as [d|msg|msg]; [discriminate| |];
      by injection Hfail as <-.
  - intros e queue1 w2. apply FileWatcherRun.while_files_never_raises.
  - apply Disposal.move_file_to_error_archive.
  - intros Hw. unfold w1, FileWatcher._move_file_to_error, move.
    rewrite Hp, Hw. simpl. split_and!; [done| |].
    + rewrite lookup_insert_ne by apply Paths.with_suffix_error_ne.
      apply lookup_insert_eq.
    + apply lookup_insert_eq.
  - intros Hw. unfold w1, FileWatcher._move_file_to_error, move.
    by rewrite Hp, Hw.
Qed.

(** Two files at the head of a queue: one whose text is not JSON and one
    whose bytes are not UTF-8.  Each is quarantined with its report, under
    the reason of its handler, and the loop goes on to yield the record of
    the next file. *)
Lemma C6_decode_failure_is_quarantined_witness :
  let fr := {| FileWatcher.max_messages := 10; FileWatcher.message_count := 0;
               FileWatcher.processed_files := [] |} in
  (let w := Demo.world_with Demo.mixed in
   let w1 := FileWatcher._move_file_to_error (RT := Demo.runtime) "bad.json"
               "JSON decode error: Expecting property name enclosed in double quotes" w in
   FileWatcher.records_of (RT := Demo.runtime) w "bad.json" = [] /\
   FileWatcher.while_files (RT := Demo.runtime) ["bad.json"; "a.json"]%string fr w
     = (FileWatcher.Yield (Demo.obj "A") (FileWatcher.AtYieldData fr "a.json"), [], w1) /\
   input_dir w1 !! "bad.json"%string = None /\
   error_dir w1 !! "100_bad.json"%string = Some (Demo.file_at 20 "{oops") /\
   (content <$> error_dir w1 !! "100_bad.error.txt"%string) =
     Some ("Error processing file: bad.json" +:+ nl +:+
           "Timestamp: 100000" +:+ nl +:+
           "Error: JSON decode error: Expecting property name enclosed in double quotes"
           +:+ nl)) /\
  (let w := Demo.world_with
              (<["a.json"%string := Demo.file_at 10 "{A}"]>
               (<["bin.json"%string := DemoBytes.binary]> ∅)) in
   let w1 := FileWatcher._move_file_to_error (RT := DemoBytes.runtime) "bin.json"
               "Processing error: 'utf-8' codec can't decode byte 0xff in position 0: invalid start byte" w in
   FileWatcher.records_of (RT := DemoBytes.runtime) w "bin.json" = [] /\
   FileWatcher.while_files (RT := DemoBytes.runtime) ["bin.json"; "a.json"]%string fr w
     = (FileWatcher.Yield (Demo.obj "A") (FileWatcher.AtYieldData fr "a.json"), [], w1) /\
   input_dir w1 !! "bin.json"%string = None /\
   error_dir w1 !! "100_bin.json"%string = Some DemoBytes.binary /\
   (content <$> error_dir w1 !! "100_bin.error.txt"%string) =
     Some ("Error processing file: bin.json" +:+ nl +:+
           "Timestamp: 100000" +:+ nl +:+
           "Error: Processing error: 'utf-8' codec can't decode byte 0xff in position 0: invalid start byte"
           +:+ nl)).
Proof.
  intros fr. split.
  - intros w w1.
    destruct (C6_decode_failure_is_quarantined (RT := Demo.runtime)
                "bad.json" ["a.json"%string] fr w (Demo.file_at 20 "{oops")
                "JSON decode error: Expecting property name enclosed in double quotes")
      as (_ & Hrec & Hrun & _ & _ & Hmoved & _).
    + vm_compute. reflexivity.
    + vm_compute. reflexivity.
    + simpl. lia.
    + destruct (Hmoved eq_refl) as (Hin & Herr & Hrep).
      split; [exact Hrec|]. split; [rewrite Hrun; vm_compute; reflexivity|].
      split; [vm_compute; reflexivity|].
      split; [exact Herr|]. vm_compute. reflexivity.
  - intros w w1.
    destruct (C6_decode_failure_is_quarantined (RT := DemoBytes.runtime)
                "bin.json" ["a.json"%string] fr w DemoBytes.binary
                "Processing error: 'utf-8' codec can't decode byte 0xff in position 0: invalid start byte")
      as (_ & Hrec & Hrun & _ & _ & Hmoved & _).
    + vm_compute. reflexivity.
    + vm_compute. reflexivity.
    + simpl. lia.
    + destruct (Hmoved eq_refl) as (Hin & Herr & Hrep).
      split; [exact Hrec|]. split; [rewrite Hrun; vm_compute; reflexivity|].
      split; [vm_compute; reflexivity|].
      split; [exact Herr|]. vm_compute. reflexivity.
Defined.

(** C6 as stated fails when the error directory cannot be written: the
    file that does not decode stays in the input directory, the error
    directory receives neither the file nor a report, and assembly goes on. *)
Lemma C6_counterexample :
  let w := {| now := 100000; input_dir := Demo.mixed; archive_dir := ∅;
              error_dir := ∅; archive_writable := true; error_writable := false;
              watch_startable := true; watch_stoppable := true; schedule := [];
              broker_reachable := true; broker_stream := [];
              broker_closable := true |} in
  exists st1,
    FileWatcher.consume_batch (RT := Demo.runtime) 5 10 5000
      (w, Demo.watching FileWatcher.default_config ["bad.json"; "a.json"]%string)
    = Some (Ret [Demo.obj "A"], st1) /\
    FileWatcher.file_queue st1.2 = [] /\
    input_dir st1.1 !! "bad.json"%string = Some (Demo.file_at 20 "{oops") /\
    error_dir st1.1 = ∅.
Proof.
  intros w. eexists. split; [vm_compute; reflexivity|].
  split; [reflexivity|]. by vm_compute.
Qed.

(** ** The manager and the adapters *)

(** C8 (amended).  Calling [close] twice in succession on either adapter
    never raises.  Afterwards the adapter's status reports not connected,
    unless the library call that [close] wraps raises in this world: then
    the exception is swallowed and the status reports what it reported
    before. *)
Theorem C8_close_twice (w : world) (src : DataSources.BaseDataSource) :
  let c1 := DataSources.close w src in
  let c2 := DataSources.close c1.2.1 c1.2.2 in
  c1.1 = Ret tt /\ c2.1 = Ret tt /\
  (DataSources.underlying_close_fails w src = false ->
     DataSources.status_is_connected (DataSources.get_status c2.2.1 c2.2.2) = false) /\
  (DataSources.underlying_close_fails w src = true ->
     DataSources.status_is_connected (DataSources.get_status c2.2.1 c2.2.2)
     = DataSources.status_is_connected (DataSources.get_status w src)).
Proof.
  destruct w as [t inp arc err aw ew ws wst sch br bs bc].
  destruct src as [[cfg conn [ccfg [cl|]]]|[cfg conn [fcfg queue [[| |]|] fconn]]];
    destruct bc, wst; cbn; split_and!; done.
Qed.

(** C8 as stated fails for a connected broker adapter whose client raises in
    [close]: neither call raises, and the status still reports connected. *)
Lemma C8_counterexample :
  let w := Demo.broker_stuck (Demo.world_with ∅) in
  let connected :=
    (DataSources.connect w
       (DataSources.KafkaSource (DataSources.KafkaDS.init Config.KAFKA_CONFIG))) in
  let c1 := DataSources.close connected.2.1 connected.2.2 in
  let c2 := DataSources.close c1.2.1 c1.2.2 in
  connected.1 = true /\ c1.1 = Ret tt /\ c2.1 = Ret tt /\
  DataSources.status_is_connected (DataSources.get_status c2.2.1 c2.2.2) = true.
Proof. by vm_compute. Qed.

(** C7 (amended).  With no active source, [consume_batch] raises
    RuntimeError("No data source initialized") and leaves the manager as it
    is; [get_status] returns the no_source_initialized marker without
    raising; [close] does nothing and returns normally. *)
Theorem C7_no_active_source {RT : Runtime}
    (fuel : nat) (batch_size timeout_ms : Z) (st : DataSources.mstate) :
  DataSources.current_source st.2 = None ->
  DataSources.manager_consume_batch fuel batch_size timeout_ms st
    = Some (Raise (RuntimeError "No data source initialized"), st) /\
  DataSources.manager_get_status st = Ret DataSources.NoSourceInitialized /\
  DataSources.manager_close st = (Ret tt, st).
Proof.
  intros Hnone.
  unfold DataSources.manager_consume_batch, DataSources.manager_get_status,
    DataSources.manager_close.
  by rewrite Hnone.
Qed.

(** A freshly constructed manager. *)
Lemma C7_no_active_source_witness :
  let st := (Demo.world_with ∅, DataSources.manager_init) in
  DataSources.manager_consume_batch (RT := Demo.runtime) 1 10 5000 st
    = Some (Raise (RuntimeError "No data source initialized"), st) /\
  DataSources.manager_get_status st = Ret DataSources.NoSourceInitialized /\
  DataSources.manager_close st = (Ret tt, st).
Proof.
  intros st.
  apply (C7_no_active_source (RT := Demo.runtime) 1 10 5000 st). reflexivity.
Defined.

(** C7 as stated fails for [close] and [get_status]: on a manager without a
    source neither of them raises. *)
Lemma C7_counterexample :
  let st := (Demo.world_with ∅, DataSources.manager_init) in
  ~ raises (DataSources.manager_close st).1 /\
  ~ raises (DataSources.manager_get_status st).
Proof. intros st. split; intros []. Qed.

(** C2 (amended).  [switch_source] is [initialize_source] with auto-connect.
    After a call of [initialize_source] that returns False the manager holds
    a source unless it held none before and construction raised:
    - if construction raised, the previous adapter, closed, is still the
      current source and the current type is unchanged;
    - if construction succeeded, auto-connect was requested and returned
      False, and the new, unconnected adapter is the current source, with
      the new type as current type. *)
Theorem C2_failed_initialize_keeps_a_source
    (source_type : DataSources.source_type_arg) (config : option Config.Dict)
    (auto_connect : bool) (st st1 : DataSources.mstate) :
  DataSources.initialize_source source_type config auto_connect st = (false, st1) ->
  (DataSources.switch_source source_type config st
   = DataSources.initialize_source source_type config true st) /\
  (DataSources.current_source st1.2 = None <->
   DataSources.current_source st.2 = None /\
   raises (DataSources.create_data_source source_type config)) /\
  (raises (DataSources.create_data_source source_type config) ->
   DataSources.current_source st1.2 = DataSources.closed_previous st /\
   DataSources.current_type st1.2 = DataSources.current_type st.2) /\
  (forall src, DataSources.create_data_source source_type config = Ret src ->
   auto_connect = true /\
   exists t w1 src1,
     DataSources.to_type source_type = Ret t /\
     DataSources.connect (DataSources.world_after_close st) src = (false, (w1, src1)) /\
     st1 = (w1, {| DataSources.current_source := Some src1;
                   DataSources.current_type := Some t |})).
Proof.
  intros Hinit. split; [done|].
  unfold DataSources.initialize_source in Hinit.
  unfold DataSources.closed_previous, DataSources.world_after_close.
  destruct st as [w m]. simpl in *.
  destruct (DataSources.current_source m) as [old|] eqn:Hold.
  - destruct (DataSources.close w old) as [r [w0 old1]] eqn:Hclose. simpl.
    destruct (DataSources.create_data_source source_type config) as [src|e] eqn:Hcreate.
    + assert (exists t, DataSources.to_type source_type = Ret t) as [t Ht].
      { unfold DataSources.create_data_source in Hcreate.
        destruct (DataSources.to_type source_type); [by eexists|discriminate]. }
      rewrite Ht in Hinit. destruct auto_connect.
      * destruct (DataSources.connect w0 src) as [ok [w1 src1]] eqn:Hconn.
        injection Hinit as -> <-. simpl. split_and!.
        -- split; [discriminate | by intros [[=] _]].
        -- intros [].
        -- intros src0 [= <-]. split; [done|]. by eexists t, w1, src1.
      * discriminate.
    + injection Hinit as <-. simpl. split_and!.
      * split; [discriminate | by intros [[=] _]].
      * done.
      * intros src0 [=].
  - destruct (DataSources.create_data_source source_type config) as [src|e] eqn:Hcreate.
    + assert (exists t, DataSources.to_type source_type = Ret t) as [t Ht].
      { unfold DataSources.create_data_source in Hcreate.
        destruct (DataSources.to_type source_type); [by eexists|discriminate]. }
      rewrite Ht in Hinit. destruct auto_connect.
      * destruct (DataSources.connect w src) as [ok [w1 src1]] eqn:Hconn.
        injection Hinit as -> <-. simpl. split_and!.
        -- split; [discriminate | by intros [_ []]].
        -- intros [].
        -- intros src0 [= <-]. split; [done|]. by eexists t, w1, src1.
      * discriminate.
    + injection Hinit as <-. simpl. split_and!; try done.
      all: intros src0 [=].
Qed.

(** A fresh manager asked for a broker source while the broker is down. *)
Lemma C2_failed_initialize_keeps_a_source_witness :
  let st := (Demo.broker_down (Demo.world_with ∅), DataSources.manager_init) in
  exists st1,
    DataSources.initialize_source (DataSources.ByStr "Kafka") None true st
      = (false, st1) /\
    DataSources.current_type st1.2 = Some DataSources.KAFKA /\
    (DataSources.current_source st1.2 = None <->
     DataSources.current_source st.2 = None /\
     raises (DataSources.create_data_source (DataSources.ByStr "Kafka") None)).
Proof.
  intros st. eexists. split; [vm_compute; reflexivity|].
  split; [reflexivity|].
  eapply (C2_failed_initialize_keeps_a_source (DataSources.ByStr "Kafka") None true st).
  vm_compute. reflexivity.
Defined.

(** C2 as stated fails both ways.  Switching an active file-watcher source to
    an unknown kind returns False and leaves the old, now closed, adapter as
    current source; initializing a broker source that cannot connect returns
    False and leaves the new unconnected adapter as current source. *)
Lemma C2_counterexample :
  let w := Demo.broker_down (Demo.world_with ∅) in
  let active :=
    DataSources.initialize_source (DataSources.ByType DataSources.FILE_WATCHER)
      None true (w, DataSources.manager_init) in
  let switched := DataSources.switch_source (DataSources.ByStr "ftp") None active.2 in
  let fresh :=
    DataSources.initialize_source (DataSources.ByType DataSources.KAFKA)
      None true (w, DataSources.manager_init) in
  active.1 = true /\
  switched.1 = false /\
  (exists old, DataSources.current_source switched.2.2 = Some (DataSources.FileSource old)
               /\ DataSources.f_is_connected old = false) /\
  DataSources.current_type switched.2.2 = Some DataSources.FILE_WATCHER /\
  fresh.1 = false /\
  (exists new, DataSources.current_source fresh.2.2 = Some (DataSources.KafkaSource new)
               /\ DataSources.k_is_connected new = false) /\
  DataSources.current_type fresh.2.2 = Some DataSources.KAFKA.
Proof.
  intros w active switched fresh.
  split; [by vm_compute|]. split; [by vm_compute|].
  split; [eexists; split; [vm_compute; reflexivity | reflexivity]|].
  split; [by vm_compute|]. split; [by vm_compute|].
  split; [eexists; split; [vm_compute; reflexivity | reflexivity]|].
  by vm_compute.
Qed.

(** ** Empty sources *)





(** ** The backlog scan *)
Module Scan.
Import FileWatcher.

(** The readiness check: the file is there with some size, and after the
    half-second wait it is still there with the same, positive size. *)
Lemma is_file_ready_spec (file_path : string) (st : state) :
  (_is_file_ready file_path st).1 = true <->
  exists f f1,
    input_dir st.1 !! file_path = Some f /\
    input_dir (sleep 500 st).1 !! file_path = Some f1 /\
    st_size f = st_size f1 /\ 0 < st_size f1.
Proof.
  unfold _is_file_ready.
  destruct (input_dir st.1 !! file_path) as [f|] eqn:Hf.
  - destruct (input_dir (sleep 500 st).1 !! file_path) as [f1|] eqn:Hf1; simpl.
    + rewrite andb_true_iff, Z.eqb_eq, Z.ltb_lt. split.
      * intros [Heq Hpos]. by exists f, f1.
      * intros (f' & f1' & [= <-] & [= <-] & Heq & Hpos). done.
    + split; [discriminate|]. by intros (f' & f1' & _ & [=] & _).
  - simpl. split; [discriminate|]. by intros (f' & f1' & [=] & _).
Qed.

Lemma is_file_ready_waits (file_path : string) (st : state) (f : file) :
  input_dir st.1 !! file_path = Some f ->
  (_is_file_ready file_path st).2 = sleep 500 st.
Proof.
  intros Hf. unfold _is_file_ready. rewrite Hf.
  by destruct (input_dir (sleep 500 st).1 !! file_path).
Qed.

#[local] Instance by_mtime_total : Total by_mtime.
Proof. intros a b. unfold by_mtime. lia. Qed.

(** The scan visits the files named *.json, oldest modification first. *)
Lemma json_files_sorted (w : world) :
  exists files,
    json_files w = files.*1 /\
    Sorted by_mtime files /\
    files ≡ₚ filter (fun e => Is_true (fnmatch e.1 "*.json")) (map_to_list (input_dir w)).
Proof.
  exists (merge_sort by_mtime (glob "*.json" (input_dir w))). split_and!.
  - done.
  - apply Sorted_merge_sort. apply _.
  - apply merge_sort_Permutation.
Qed.

End Scan.

(** C5.  The watcher is configured with the pattern *.csv.  Its input
    directory holds a.csv, which matches and is ready, and b.json, which
    does not match.  The scan run by [connect] enqueues b.json and not
    a.csv: it lists *.json whatever [file_pattern] says. *)
Theorem C5_scan_ignores_configured_pattern :
  let cfg := {| FileWatcher.file_pattern := "*.csv";
                FileWatcher.process_existing := true;
                FileWatcher.batch_size := 50;
                FileWatcher.polling_interval := 5 |} in
  let w := Demo.world_with
             (<["a.csv"%string := Demo.file_at 10 "{A}"]>
              (<["b.json"%string := Demo.file_at 20 "{B}"]> ∅)) in
  let connected := FileWatcher.connect (w, FileWatcher.init (Some cfg)) in
  fnmatch "a.csv" (FileWatcher.file_pattern cfg) = true /\
  fnmatch "b.json" (FileWatcher.file_pattern cfg) = false /\
  (FileWatcher._is_file_ready "a.csv" (w, FileWatcher.init (Some cfg))).1 = true /\
  connected.1 = true /\
  FileWatcher.file_queue connected.2.2 = ["b.json"%string].
Proof. by vm_compute. Qed.

(** A connected file-watcher adapter in a world where stopping the observer
    works. *)
Lemma C8_close_twice_witness :
  let w := Demo.world_with ∅ in
  let src := DataSources.FileSource
               {| DataSources.f_config := Config.empty;
                  DataSources.f_is_connected := true;
                  DataSources.f_watcher :=
                    Demo.watching FileWatcher.default_config [] |} in
  let c1 := DataSources.close w src in
  let c2 := DataSources.close c1.2.1 c1.2.2 in
  c1.1 = Ret tt /\ c2.1 = Ret tt /\
  DataSources.status_is_connected (DataSources.get_status w src) = true /\
  DataSources.status_is_connected (DataSources.get_status c2.2.1 c2.2.2) = false.
Proof.
  intros w src c1 c2.
  destruct (C8_close_twice w src) as (H1 & H2 & Hok & _).
  split; [exact H1|]. split; [exact H2|]. split; [reflexivity|].
  apply Hok. reflexivity.
Defined.

(** * Further properties of the code *)

(** ** The pattern "*.json" *)
Module Patterns.

Lemma list_ascii_append a b :
  list_ascii_of_string (a +:+ b) = list_ascii_of_string a ++ list_ascii_of_string b.
Proof. induction a as [|x a IH]; [done|]. cbn. by rewrite <- IH. Qed.

Lemma sdrop_append a b : sdrop (String.length a) (a +:+ b) = b.
Proof. induction a as [|x a IH]; [done|]. exact IH. Qed.

(** str.endswith, as a statement about concatenation *)
Lemma ends_with_spec s suffix :
  ends_with s suffix = true <-> exists pre, s = pre +:+ suffix.
Proof.
  unfold ends_with. rewrite andb_true_iff, Nat.leb_le, String.eqb_eq. split.
  - intros [Hlen Hdrop].
    exists (stake (String.length s - String.length suffix) s).
    pose proof (Paths.stake_sdrop (String.length s - String.length suffix) s) as Hs.
    by rewrite Hdrop in Hs.
  - intros [pre ->]. rewrite Paths.length_append. split; [lia|].
    replace (String.length pre + String.length suffix - String.length suffix)%nat
      with (String.length pre) by lia.
    apply sdrop_append.
Qed.

Lemma append_assoc a b c : (a +:+ b) +:+ c = a +:+ b +:+ c.
Proof.
  induction a as [|x a IH]; [done|].
  change (String x ((a +:+ b) +:+ c) = String x (a +:+ b +:+ c)). by rewrite IH.
Qed.

Lemma ends_with_append a s suffix :
  ends_with s suffix = true -> ends_with (a +:+ s) suffix = true.
Proof.
  rewrite !ends_with_spec. intros [pre ->]. exists (a +:+ pre).
  by rewrite append_assoc.
Qed.

Lemma fnmatch_star p s :
  fnmatch_chars ("*"%char :: p) s
  = fnmatch_chars p s ||
    match s with [] => false | _ :: s' => fnmatch_chars ("*"%char :: p) s' end.
Proof. by destruct s. Qed.

Lemma fnmatch_literal_cons c p s :
  c <> "*"%char -> c <> "?"%char ->
  fnmatch_chars (c :: p) s
  = match s with [] => false | d :: s' => Ascii.eqb c d && fnmatch_chars p s' end.
Proof.
  intros Hstar Hany. cbn [fnmatch_chars].
  destruct (Ascii.eqb_spec c "*"); [done|].
  by destruct (Ascii.eqb_spec c "?").
Qed.

(** A pattern without wildcards matches itself only. *)
Lemma fnmatch_literal lit :
  Forall (fun c => c <> "*"%char /\ c <> "?"%char) lit ->
  forall s, fnmatch_chars lit s = true <-> s = lit.
Proof.
  induction 1 as [|c lit [Hstar Hany] Hlit IH]; intros s.
  - destruct s; split; done.
  - rewrite fnmatch_literal_cons by done. destruct s as [|d s]; [split; done|].
    rewrite andb_true_iff, Ascii.eqb_eq, IH. split.
    + by intros [-> ->].
    + by intros [= -> ->].
Qed.

Lemma fnmatch_dot_json s : fnmatch_chars dot_json s = true <-> s = dot_json.
Proof.
  apply fnmatch_literal. unfold dot_json. cbn [list_ascii_of_string].
  repeat (constructor; [split; discriminate|]). constructor.
Qed.

Lemma fnmatch_star_dot_json s :
  fnmatch_chars ("*"%char :: dot_json) s = true <-> exists pre, s = pre ++ dot_json.
Proof.
  induction s as [|x s IH]; rewrite fnmatch_star, orb_true_iff, fnmatch_dot_json.
  - split; [intros [[=]|[=]] | intros [[|y pre] Hpre]; discriminate].
  - rewrite IH. split.
    + intros [->|[pre ->]]; [by exists [] | by exists (x :: pre)].
    + intros [[|y pre] Hpre]; [by left|right].
      injection Hpre as -> ->. by exists pre.
Qed.

(** Path.glob("*.json") keeps exactly the names with which
    [endswith('.json')] holds. *)
Lemma fnmatch_json name : fnmatch name "*.json" = ends_with name ".json".
Proof.
  apply Bool.eq_iff_eq_true. unfold fnmatch.
  change (list_ascii_of_string "*.json") with ("*"%char :: dot_json).
  rewrite fnmatch_star_dot_json, ends_with_spec. split.
  - intros [pre Hpre]. exists (string_of_list_ascii pre).
    rewrite <- (string_of_list_ascii_of_string name), Hpre.
    rewrite <- (list_ascii_of_string_of_list_ascii pre) at 1.
    change dot_json with (list_ascii_of_string ".json").
    by rewrite <- list_ascii_append, string_of_list_ascii_of_string.
  - intros [pre ->]. exists (list_ascii_of_string pre). apply list_ascii_append.
Qed.

Lemma report_is_not_json name :
  ends_with (with_suffix name ".error.txt") ".json" = false.
Proof.
  destruct (ends_with _ _) eqn:He; [|done].
  apply Paths.ends_with_json_last in He.
  rewrite Paths.with_suffix_error_last in He. discriminate.
Qed.

End Patterns.

(** ** What the queue holds *)
Module Queue.
Import FileWatcher.

Lemma tidy_suffix pre queue : tidy (pre ++ queue) -> tidy queue.
Proof.
  intros [Hnd Hjson]. split.
  - by apply NoDup_app in Hnd as (_ & _ & ?).
  - by apply Forall_app in Hjson as [_ ?].
Qed.

Lemma add_file_to_queue_tidy p w fw :
  ends_with p ".json" = true ->
  tidy (file_queue fw) -> tidy (file_queue (add_file_to_queue p w fw)).
Proof.
  intros Hp [Hnd Hjson]. unfold add_file_to_queue.
  destruct (exists_ p w); [|done]. simpl.
  destruct (bool_decide (p ∉ file_queue fw)) eqn:Hin; [|done].
  apply bool_decide_eq_true in Hin. simpl. split.
  - apply NoDup_app. split_and!; [done| |apply NoDup_singleton].
    intros x Hx ->%list_elem_of_singleton. done.
  - apply Forall_app. split; [done|]. by constructor.
Qed.

Lemma dispatch_tidy ev w fw :
  tidy (file_queue fw) -> tidy (file_queue (dispatch ev w fw)).
Proof.
  intros Ht. unfold dispatch, on_created, on_moved.
  destruct (observer fw) as [[| |]|]; try done.
  destruct ev as [d p|d p]; destruct (negb d); simpl; try done;
    (destruct (ends_with p ".json") eqn:Hp; [by apply add_file_to_queue_tidy|done]).
Qed.

Lemma play_tidy items : forall w fw,
  tidy (file_queue fw) -> tidy (file_queue (play items w fw).2).
Proof.
  induction items as [|[t a] items IH]; intros w fw Ht; simpl; [done|].
  apply IH. destruct a; try done. by apply dispatch_tidy.
Qed.

Lemma sleep_tidy ms st :
  tidy (file_queue st.2) -> tidy (file_queue (sleep ms st).2).
Proof. destruct st as [w fw]. apply play_tidy. Qed.

Lemma json_files_json w p : p ∈ json_files w -> ends_with p ".json" = true.
Proof.
  unfold json_files, glob. intros [[q f] [-> Hin]]%list_elem_of_fmap.
  rewrite merge_sort_Permutation in Hin.
  apply list_elem_of_filter in Hin as [Hmatch _]. simpl in *.
  rewrite Patterns.fnmatch_json in Hmatch. by apply Is_true_eq_true.
Qed.

Lemma scan_step_tidy st p :
  ends_with p ".json" = true ->
  tidy (file_queue st.2) -> tidy (file_queue (scan_step st p).2).
Proof.
  intros Hp Ht. unfold scan_step, _is_file_ready.
  destruct (input_dir st.1 !! p) as [f|]; [|by destruct st].
  pose proof (sleep_tidy 500 st Ht) as Ht1.
  destruct (sleep 500 st) as [w1 fw1]. simpl in *.
  destruct (input_dir w1 !! p) as [f1|]; [|done].
  destruct ((st_size f =? st_size f1) && (0 <? st_size f1)); [|done].
  by apply add_file_to_queue_tidy.
Qed.

Lemma scan_tidy files : forall st,
  Forall (fun p => ends_with p ".json" = true) files ->
  tidy (file_queue st.2) -> tidy (file_queue (fold_left scan_step files st).2).
Proof.
  induction files as [|p files IH]; intros st Hfiles Ht; simpl; [done|].
  apply Forall_cons in Hfiles as [Hp Hfiles].
  apply IH; [done|]. by apply scan_step_tidy.
Qed.

Lemma connect_tidy st :
  tidy (file_queue st.2) -> tidy (file_queue (connect st).2.2).
Proof.
  intros Ht. unfold connect. destruct st as [w fw].
  destruct (is_connected fw); [done|].
  destruct (process_existing (config fw)).
  - assert (tidy (file_queue (_scan_existing_files (w, fw)).2)) as Ht1.
    { apply scan_tidy; [|done]. apply Forall_forall. apply json_files_json. }
    destruct (_scan_existing_files (w, fw)) as [w1 fw1].
    by destruct (watch_startable w1).
  - by destruct (watch_startable w).
Qed.

Section WithRuntime.
Context {RT : Runtime}.

(** The loop only takes paths from the front of the queue. *)
Lemma while_files_suffix queue : forall fr w s queue1 w1,
  while_files queue fr w = (s, queue1, w1) -> exists pre, queue = pre ++ queue1.
Proof.
  induction queue as [|p queue IH]; intros fr w s queue1 w1 Hrun; simpl in Hrun.
  - injection Hrun as <- <- <-. by exists [].
  - assert (forall fr0 w0, while_files queue fr0 w0 = (s, queue1, w1) ->
              exists pre, p :: queue = pre ++ queue1) as Hrest.
    { intros fr0 w0 [pre ->]%IH. by exists (p :: pre). }
    destruct (message_count fr <? max_messages fr).
    2:{ injection Hrun as <- <- <-. by exists []. }
    destruct (input_dir w !! p) as [f|]; [|by eapply Hrest].
    destruct (json_load (content f)) as [data|msg|msg]; try by eapply Hrest.
    destruct data as [|b|n|s0|items|fields];
      try (injection Hrun as <- <- <-; by exists [p]).
    destruct (for_item fr items) as [[item rest]|]; [|by eapply Hrest].
    injection Hrun as <- <- <-. by exists [p].
Qed.

Lemma enter_while_tidy fr st s st1 :
  enter_while fr st = (s, st1) ->
  tidy (file_queue st.2) -> tidy (file_queue st1.2).
Proof.
  unfold enter_while. destruct st as [w fw].
  destruct (while_files _ _ _) as [[s0 q] w1] eqn:Hw.
  intros [= <- <-] Ht. apply while_files_suffix in Hw as [pre Hpre].
  simpl in *. rewrite Hpre in Ht. by eapply tidy_suffix.
Qed.

Lemma gen_next_tidy g st s st1 :
  gen_next g st = (s, st1) ->
  tidy (file_queue st.2) -> tidy (file_queue st1.2).
Proof.
  unfold gen_next. destruct g as [max|fr p rest|fr p|].
  - destruct (is_connected st.2); [apply enter_while_tidy|].
    pose proof (connect_tidy st) as Hc.
    destruct (connect st) as [[|] st0]; simpl in Hc.
    + intros Hw Ht. eapply enter_while_tidy; [exact Hw | by apply Hc].
    + intros [= <- <-]. exact Hc.
  - destruct (for_item (count_message fr) rest) as [[item rest1]|].
    + by intros [= <- <-].
    + apply enter_while_tidy.
  - apply enter_while_tidy.
  - by intros [= <- <-].
Qed.

Lemma for_messages_tidy fuel batch_size : forall g messages st r st1,
  for_messages fuel batch_size g messages st = Some (r, st1) ->
  tidy (file_queue st.2) -> tidy (file_queue st1.2).
Proof.
  induction fuel as [|fuel IH]; intros g messages st r st1 Hrun Ht; simpl in Hrun;
    [discriminate|].
  destruct (gen_next g st) as [[v g1| |e] st2] eqn:Hnext;
    pose proof (gen_next_tidy _ _ _ _ Hnext Ht) as Ht2.
  - destruct (batch_size <=? len (messages ++ [v])).
    + by injection Hrun as <- <-.
    + by eapply IH.
  - by injection Hrun as <- <-.
  - by injection Hrun as <- <-.
Qed.

Lemma wait_for_files_tidy fuel batch_size timeout_ms start_time :
  forall messages st r st1,
  wait_for_files fuel batch_size timeout_ms start_time messages st = Some (r, st1) ->
  tidy (file_queue st.2) -> tidy (file_queue st1.2).
Proof.
  induction fuel as [|fuel IH]; intros messages st r st1 Hrun Ht;
    cbn [wait_for_files] in Hrun; [discriminate|].
  destruct ((len messages <? batch_size) && (now st.1 - start_time <? timeout_ms)).
  2:{ by injection Hrun as <- <-. }
  destruct (file_queue st.2) as [|p q] eqn:Hq.
  - destruct (polling_interval (config st.2) <? 0).
    + by injection Hrun as <- <-; rewrite Hq.
    + eapply IH; [exact Hrun|]. apply sleep_tidy. by rewrite Hq.
  - rewrite <- Hq in Ht.
    destruct (for_messages _ _ _ _ _) as [[[m|e] st2]|] eqn:Hfor; try discriminate;
      pose proof (for_messages_tidy _ _ _ _ _ _ _ Hfor Ht) as Ht2.
    + by eapply IH.
    + by injection Hrun as <- <-.
Qed.

Lemma consume_batch_tidy fuel batch_size timeout_ms st r st1 :
  consume_batch fuel batch_size timeout_ms st = Some (r, st1) ->
  tidy (file_queue st.2) -> tidy (file_queue st1.2).
Proof.
  unfold consume_batch. intros Hrun Ht.
  destruct (for_messages _ _ _ _ _) as [[[m|e] st2]|] eqn:Hfor; try discriminate;
    pose proof (for_messages_tidy _ _ _ _ _ _ _ Hfor Ht) as Ht2.
  - by eapply wait_for_files_tidy.
  - by injection Hrun as <- <-.
Qed.

End WithRuntime.
End Queue.

(** X1.  Starting from a queue that holds no path twice and only paths
    ending in .json (the empty queue of a new watcher is one), the queue
    stays so through [connect] and its backlog scan, through any watch
    events delivered while the caller sleeps, and through [consume_batch],
    whatever happens around the watcher. *)
Theorem X1_queue_stays_tidy {RT : Runtime} (st : FileWatcher.state) :
  tidy (FileWatcher.file_queue st.2) ->
  tidy (FileWatcher.file_queue (FileWatcher.connect st).2.2) /\
  (forall ms, tidy (FileWatcher.file_queue (FileWatcher.sleep ms st).2)) /\
  (forall fuel batch_size timeout_ms r st1,
     FileWatcher.consume_batch fuel batch_size timeout_ms st = Some (r, st1) ->
     tidy (FileWatcher.file_queue st1.2)).
Proof.
  intros Ht. split_and!.
  - by apply Queue.connect_tidy.
  - intros ms. by apply Queue.sleep_tidy.
  - intros fuel batch_size timeout_ms r st1 Hrun. by eapply Queue.consume_batch_tidy.
Qed.

(** A new watcher, connected over three backlog files. *)
Lemma X1_queue_stays_tidy_witness :
  let st := (Demo.world_with Demo.abc, FileWatcher.init None) in
  tidy (FileWatcher.file_queue (FileWatcher.connect st).2.2) /\
  (forall ms, tidy (FileWatcher.file_queue (FileWatcher.sleep ms st).2)) /\
  (forall fuel batch_size timeout_ms r st1,
     FileWatcher.consume_batch (RT := Demo.runtime) fuel batch_size timeout_ms st
       = Some (r, st1) ->
     tidy (FileWatcher.file_queue st1.2)).
Proof.
  intros st. apply (X1_queue_stays_tidy (RT := Demo.runtime) st).
  simpl. split; constructor.
Defined.

(** ** Connecting *)
Module Connecting.
Import FileWatcher.

Lemma play_flags items : forall w fw,
  watch_startable (play items w fw).1 = watch_startable w /\
  is_connected (play items w fw).2 = is_connected fw /\
  observer (play items w fw).2 = observer fw.
Proof.
  induction items as [|[t a] items IH]; intros w fw; simpl; [done|].
  destruct (IH (apply_action t a w)
               (match a with Event ev => dispatch ev (apply_action t a w) fw | _ => fw end))
    as (-> & -> & ->).
  split_and!.
  - by destruct a.
  - destruct a as [| |ev]; try done. unfold dispatch, on_created, on_moved.
    destruct (observer fw) as [[| |]|]; try done.
    destruct ev; destruct (_ && _); try done; unfold add_file_to_queue;
      by destruct (_ && _).
  - destruct a as [| |ev]; try done. unfold dispatch, on_created, on_moved.
    destruct (observer fw) as [[| |]|] eqn:Ho; try done.
    destruct ev; destruct (_ && _); try done; unfold add_file_to_queue;
      by destruct (_ && _).
Qed.

Lemma sleep_flags ms st :
  watch_startable (sleep ms st).1 = watch_startable st.1 /\
  is_connected (sleep ms st).2 = is_connected st.2 /\
  observer (sleep ms st).2 = observer st.2.
Proof.
  destruct st as [w fw]. unfold sleep.
  by destruct (play_flags
    (filter (fun i => Is_true (due (now w + ms) i)) (schedule w))
    (set_now (now w + ms)
       (set_schedule (filter (fun i => ¬ Is_true (due (now w + ms) i)) (schedule w)) w))
    fw) as (-> & -> & ->).
Qed.

Lemma scan_step_flags st p :
  watch_startable (scan_step st p).1 = watch_startable st.1 /\
  is_connected (scan_step st p).2 = is_connected st.2.
Proof.
  unfold scan_step, _is_file_ready.
  destruct (input_dir st.1 !! p) as [f|]; [|by destruct st].
  destruct (sleep_flags 500 st) as (Hs & Hc & _).
  destruct (sleep 500 st) as [w1 fw1]. simpl in *.
  destruct (input_dir w1 !! p) as [f1|]; [|done].
  destruct (_ && _); [|done]. simpl. split; [done|].
  unfold add_file_to_queue. by destruct (_ && _).
Qed.

Lemma scan_flags files : forall st,
  watch_startable (fold_left scan_step files st).1 = watch_startable st.1 /\
  is_connected (fold_left scan_step files st).2 = is_connected st.2.
Proof.
  induction files as [|p files IH]; intros st; simpl; [done|].
  destruct (IH (scan_step st p)) as [-> ->]. apply scan_step_flags.
Qed.

(** [connect] succeeds exactly when the watcher is connected already or the
    observer can be started. *)
Lemma connect_result st :
  (connect st).1 = is_connected st.2 || watch_startable st.1 /\
  is_connected (connect st).2.2 = (connect st).1.
Proof.
  unfold connect. destruct st as [w fw]. simpl.
  destruct (is_connected fw) eqn:Hc; [done|].
  destruct (process_existing (config fw)).
  - destruct (scan_flags (json_files w) (w, fw)) as [Hs Hc1].
    unfold _scan_existing_files. simpl in *.
    destruct (fold_left scan_step (json_files w) (w, fw)) as [w1 fw1]. simpl in *.
    rewrite <- Hs. destruct (watch_startable w1); simpl; [done|]. split; congruence.
  - destruct (watch_startable w); simpl; [done|]. split; congruence.
Qed.

(** One step of the scan when nothing else touches the directory. *)
Lemma scan_step_alone w fw p :
  schedule w = [] ->
  exists w1,
    scan_step (w, fw) p
      = (w1, if has_content w p then add_file_to_queue p w1 fw else fw) /\
    input_dir w1 = input_dir w /\ schedule w1 = [] /\
    now w1 = now w + (if exists_ p w then 500 else 0).
Proof.
  intros Hs. unfold scan_step, _is_file_ready, has_content, exists_.
  cbn [fst snd].
  destruct (input_dir w !! p) as [f|] eqn:Hf.
  - destruct (FileWatcherRun.sleep_quiet 500 w fw)
      as (w1 & Hsl & Hnow & _ & _ & _ & _ & _ & Hin).
    { unfold quiet. rewrite Hs. constructor. }
    destruct (Hin Hs) as [Hin1 Hs1]. rewrite Hsl. cbn [fst snd].
    rewrite Hin1, Hf, Z.eqb_refl. cbn [andb].
    exists w1. rewrite bool_decide_eq_true_2 by by eexists.
    by destruct (0 <? st_size f).
  - exists w. rewrite bool_decide_eq_false_2 by (by intros [? [=]]).
    split_and!; try done. lia.
Qed.

(** The scan when nothing else touches the directory. *)
Lemma scan_alone files : forall w fw,
  schedule w = [] -> NoDup files ->
  (forall p, p ∈ files -> p ∉ file_queue fw) ->
  let st1 := fold_left scan_step files (w, fw) in
  file_queue st1.2
    = file_queue fw ++ filter (fun p => Is_true (has_content w p)) files /\
  now st1.1 = now w + 500 * len (filter (fun p => Is_true (exists_ p w)) files) /\
  input_dir st1.1 = input_dir w /\ schedule st1.1 = [] /\
  config st1.2 = config fw.
Proof.
  induction files as [|p files IH]; intros w fw Hs Hnd Hfresh; cbn [fold_left].
  { cbn. rewrite app_nil_r. split_and!; try done. unfold len. simpl. lia. }
  apply NoDup_cons in Hnd as [Hp Hnd].
  destruct (scan_step_alone w fw p Hs) as (w1 & -> & Hin1 & Hs1 & Hnow).
  assert (forall l : list string,
            filter (fun q => Is_true (exists_ q w1)) l
            = filter (fun q => Is_true (exists_ q w)) l) as Hsome.
  { intros l. apply list_filter_iff. intros q. unfold exists_. by rewrite Hin1. }
  assert (forall l : list string,
            filter (fun q => Is_true (has_content w1 q)) l
            = filter (fun q => Is_true (has_content w q)) l) as Hcont.
  { intros l. apply list_filter_iff. intros q. unfold has_content. by rewrite Hin1. }
  assert (has_content w p = true -> exists_ p w = true) as Hex.
  { unfold has_content, exists_. destruct (input_dir w !! p); [|done].
    intros _. apply bool_decide_eq_true_2. by eexists. }
  rewrite !filter_cons.
  destruct (has_content w p) eqn:Hc.
  - unfold add_file_to_queue.
    assert (exists_ p w1 = true) as ->.
    { unfold exists_. rewrite Hin1. by apply Hex. }
    rewrite bool_decide_eq_true_2 by (apply Hfresh; by left). cbn [andb].
    destruct (IH w1 (set_queue (file_queue fw ++ [p]) fw))
      as (Hq & Hn & Hi & Hsch & Hcfg); [done|done| |].
    { intros q Hq. simpl. rewrite elem_of_app, list_elem_of_singleton.
      intros [Hin2| ->]; [|done]. eapply Hfresh; [|exact Hin2]. by right. }
    cbn [file_queue set_queue] in Hq.
    rewrite Hq, Hn, Hi, Hnow, Hsome, Hcont, Hex by done. rewrite <- app_assoc.
    rewrite !decide_True by exact I.
    split_and!; try done. unfold len. simpl. lia.
  - destruct (IH w1 fw) as (Hq & Hn & Hi & Hsch & Hcfg); [done|done| |].
    { intros q Hq. apply Hfresh. by right. }
    rewrite Hq, Hn, Hi, Hnow, Hsome, Hcont.
    rewrite (decide_False (P := Is_true false)) by (by intros []).
    split_and!; try done.
    destruct (exists_ p w).
    + rewrite decide_True by exact I. unfold len. simpl. lia.
    + rewrite decide_False by (by intros []). lia.
Qed.

Lemma json_files_NoDup w : NoDup (json_files w).
Proof.
  unfold json_files. rewrite merge_sort_Permutation. unfold glob.
  eapply NoDup_fmap_fst.
  - intros k x y Hx Hy.
    apply list_elem_of_filter in Hx as [_ Hx], Hy as [_ Hy].
    apply elem_of_map_to_list in Hx, Hy. congruence.
  - apply NoDup_filter, NoDup_map_to_list.
Qed.

Lemma json_files_spec w p :
  p ∈ json_files w <-> is_Some (input_dir w !! p) /\ ends_with p ".json" = true.
Proof.
  unfold json_files, glob. rewrite list_elem_of_fmap. split.
  - intros [[q f] [-> Hin]]. rewrite merge_sort_Permutation in Hin.
    apply list_elem_of_filter in Hin as [Hmatch Hin]. simpl in *.
    apply elem_of_map_to_list in Hin.
    rewrite Patterns.fnmatch_json in Hmatch. split; [by eexists|].
    by apply Is_true_eq_true.
  - intros [[f Hf] Hj]. exists (p, f). split; [done|].
    rewrite merge_sort_Permutation. apply list_elem_of_filter. split.
    + simpl. rewrite Patterns.fnmatch_json, Hj. exact I.
    + by apply elem_of_map_to_list.
Qed.

End Connecting.

Lemma StronglySorted_lookup {A} (R : relation A) (l : list A) :
  StronglySorted R l ->
  forall i j a b, (i < j)%nat -> l !! i = Some a -> l !! j = Some b -> R a b.
Proof.
  induction 1 as [|x l Hl IH Hx]; intros i j a b Hij Hi Hj; [done|].
  destruct j as [|j]; [lia|]. simpl in Hj.
  destruct i as [|i]; simpl in Hi.
  - injection Hi as <-. rewrite Forall_forall in Hx. apply Hx.
    by eapply list_elem_of_lookup_2.
  - eapply (IH i j); [lia|done|done].
Qed.

Lemma filter_all {A} (P : A -> Prop) `{forall x, Decision (P x)} (l : list A) :
  Forall P l -> filter P l = l.
Proof.
  induction 1 as [|x l Hx Hl IH]; [done|]. by rewrite filter_cons_True, IH.
Qed.

Lemma filter_fst {A B} (P : A -> Prop) `{forall x, Decision (P x)} (l : list (A * B)) :
  filter P l.*1 = (filter (fun e => P e.1) l).*1.
Proof.
  induction l as [|[a b] l IH]; [done|]. cbn [fmap list_fmap].
  rewrite !filter_cons. cbn [fst]. destruct (decide (P a)); cbn; by rewrite IH.
Qed.

Lemma StronglySorted_filter {A} (R : relation A) (P : A -> Prop)
    `{forall x, Decision (P x)} (l : list A) :
  StronglySorted R l -> StronglySorted R (filter P l).
Proof.
  induction 1 as [|x l Hl IH Hx]; [constructor|].
  rewrite filter_cons. destruct (decide (P x)); [|done].
  constructor; [done|]. rewrite Forall_forall in *.
  intros y [_ Hy]%list_elem_of_filter. by apply Hx.
Qed.

#[local] Instance by_mtime_trans : Transitive by_mtime.
Proof. intros a b c. unfold by_mtime. lia. Qed.

#[local] Instance by_mtime_connex : Total by_mtime.
Proof. intros a b. unfold by_mtime. lia. Qed.

(** X2.  The backlog scan run by [connect], when no other process touches
    the input directory meanwhile: a watcher that is not yet connected, is
    configured to process existing files and has an empty queue, ends with a
    queue holding exactly the non-empty files of the input directory whose
    name ends in .json, each once, oldest modification first; the scan takes
    half a second per such file, empty or not, and leaves the directory as it
    was.  This happens whether or not the observer can be started. *)
Theorem X2_backlog_scan (w : world) (fw : FileWatcher.watcher) :
  FileWatcher.is_connected fw = false ->
  FileWatcher.process_existing (FileWatcher.config fw) = true ->
  FileWatcher.file_queue fw = [] ->
  schedule w = [] ->
  let st1 := (FileWatcher.connect (w, fw)).2 in
  let queue := FileWatcher.file_queue st1.2 in
  (forall p, p ∈ queue <->
     exists f, input_dir w !! p = Some f /\ ends_with p ".json" = true /\
               0 < st_size f) /\
  NoDup queue /\
  (forall i j p q f g, (i <= j)%nat ->
     queue !! i = Some p -> queue !! j = Some q ->
     input_dir w !! p = Some f -> input_dir w !! q = Some g ->
     mtime f <= mtime g) /\
  now st1.1 = now w + 500 * len (FileWatcher.json_files w) /\
  input_dir st1.1 = input_dir w.
Proof.
  intros Hconn Hproc Hqueue Hs st1 queue.
  destruct (Connecting.scan_alone (FileWatcher.json_files w) w fw Hs)
    as (Hq & Hnow & Hin & _ & _).
  { apply Connecting.json_files_NoDup. }
  { intros p _. rewrite Hqueue. apply not_elem_of_nil. }
  rewrite Hqueue in Hq. cbn [app] in Hq.
  assert (filter (fun q => Is_true (exists_ q w)) (FileWatcher.json_files w)
          = FileWatcher.json_files w) as Hall.
  { apply filter_all, Forall_forall. intros p [[f Hf] _]%Connecting.json_files_spec.
    unfold exists_. rewrite Hf. apply bool_decide_pack. by eexists. }
  rewrite Hall in Hnow.
  assert (queue = filter (fun p => Is_true (has_content w p)) (FileWatcher.json_files w)
          /\ now st1.1 = now w + 500 * len (FileWatcher.json_files w)
          /\ input_dir st1.1 = input_dir w) as (Hqueue1 & Hnow1 & Hin1).
  { unfold queue, st1, FileWatcher.connect. rewrite Hconn, Hproc.
    unfold FileWatcher._scan_existing_files. cbn [fst snd].
    destruct (fold_left FileWatcher.scan_step (FileWatcher.json_files w) (w, fw))
      as [w1 fw1]. cbn [fst snd] in *.
    by destruct (watch_startable w1). }
  rewrite Hqueue1. split_and!; [| | |done|done].
  - intros p. rewrite list_elem_of_filter, Connecting.json_files_spec.
    unfold has_content. split.
    + intros (Hc & [f Hf] & Hj). rewrite Hf in Hc. exists f.
      split_and!; [done|done|]. apply Z.ltb_lt. by apply Is_true_eq_true.
    + intros (f & Hf & Hj & Hpos). rewrite Hf. split_and!; [|by eexists|done].
      apply Is_true_eq_left. by apply Z.ltb_lt.
  - apply NoDup_filter, Connecting.json_files_NoDup.
  - intros i j p q f g Hij Hi Hj Hf Hg.
    destruct (decide (i = j)) as [->|Hne].
    { rewrite Hi in Hj. injection Hj as <-. rewrite Hf in Hg. injection Hg as <-. lia. }
    assert (StronglySorted by_mtime
              (filter (fun e : string * file => Is_true (has_content w e.1))
                 (merge_sort by_mtime (glob "*.json" (input_dir w))))) as Hsorted.
    { apply StronglySorted_filter. apply StronglySorted_merge_sort; apply _. }
    unfold FileWatcher.json_files in Hi, Hj.
    rewrite filter_fst in Hi, Hj.
    rewrite list_lookup_fmap in Hi, Hj.
    destruct (filter _ _ !! i) as [[p' f']|] eqn:Hi'; [|done].
    destruct (filter _ _ !! j) as [[q' g']|] eqn:Hj'; [|done].
    simpl in Hi, Hj. injection Hi as ->. injection Hj as ->.
    pose proof (StronglySorted_lookup _ _ Hsorted i j _ _ ltac:(lia) Hi' Hj') as Hle.
    apply list_elem_of_lookup_2, list_elem_of_filter in Hi' as [_ Hi'].
    apply list_elem_of_lookup_2, list_elem_of_filter in Hj' as [_ Hj'].
    rewrite merge_sort_Permutation in Hi', Hj'.
    apply list_elem_of_filter in Hi' as [_ Hi'], Hj' as [_ Hj'].
    apply elem_of_map_to_list in Hi', Hj'. simpl in *.
    rewrite Hf in Hi'. rewrite Hg in Hj'. injection Hi' as <-. injection Hj' as <-.
    exact Hle.
Qed.

(** Three backlog files and a new watcher. *)
Lemma X2_backlog_scan_witness :
  let w := Demo.world_with Demo.abc in
  let st1 := (FileWatcher.connect (w, FileWatcher.init None)).2 in
  let queue := FileWatcher.file_queue st1.2 in
  (forall p, p ∈ queue <->
     exists f, input_dir w !! p = Some f /\ ends_with p ".json" = true /\
               0 < st_size f) /\
  NoDup queue /\
  (forall i j p q f g, (i <= j)%nat ->
     queue !! i = Some p -> queue !! j = Some q ->
     input_dir w !! p = Some f -> input_dir w !! q = Some g ->
     mtime f <= mtime g) /\
  now st1.1 = now w + 500 * len (FileWatcher.json_files w) /\
  input_dir st1.1 = input_dir w.
Proof.
  intros w.
  apply (X2_backlog_scan w (FileWatcher.init None)); reflexivity.
Defined.

(** X3.  When the observer cannot be started, [consume_batch] on a watcher
    that is not connected raises RuntimeError("Failed to establish file
    watcher connection") and returns no record, whatever the backlog holds;
    the watcher stays unconnected, so the next call tries again. *)
Theorem X3_watch_cannot_start {RT : Runtime} (fuel : nat)
    (batch_size timeout_ms : Z) (st : FileWatcher.state) :
  FileWatcher.is_connected st.2 = false ->
  watch_startable st.1 = false ->
  FileWatcher.consume_batch (S fuel) batch_size timeout_ms st
  = Some (Raise (RuntimeError "Failed to establish file watcher connection"),
          (FileWatcher.connect st).2) /\
  FileWatcher.is_connected (FileWatcher.connect st).2.2 = false.
Proof.
  intros Hconn Hstart.
  destruct (Connecting.connect_result st) as [Hres Hconn1].
  rewrite Hconn, Hstart in Hres. rewrite Hres in Hconn1. split; [|done].
  unfold FileWatcher.consume_batch, FileWatcher.consume_messages.
  cbn [FileWatcher.for_messages FileWatcher.gen_next]. rewrite Hconn.
  destruct (FileWatcher.connect st) as [ok st1]. simpl in Hres. by rewrite Hres.
Qed.

(** A backlog of three files, an observer that cannot start. *)
Lemma X3_watch_cannot_start_witness :
  let w := set_schedule [] (Demo.world_with Demo.abc) in
  let st := ({| now := now w; input_dir := input_dir w; archive_dir := ∅;
                error_dir := ∅; archive_writable := true; error_writable := true;
                watch_startable := false; watch_stoppable := true; schedule := [];
                broker_reachable := true; broker_stream := [];
                broker_closable := true |}, FileWatcher.init None) in
  FileWatcher.consume_batch (RT := Demo.runtime) 1 10 5000 st
  = Some (Raise (RuntimeError "Failed to establish file watcher connection"),
          (FileWatcher.connect st).2) /\
  FileWatcher.is_connected (FileWatcher.connect st).2.2 = false.
Proof.
  intros w st.
  apply (X3_watch_cannot_start (RT := Demo.runtime) 0 10 5000 st); reflexivity.
Defined.

(** ** A connected watcher *)
Module Connected.
Import FileWatcher.

Section WithRuntime.
Context {RT : Runtime}.

Lemma for_messages_returns fuel batch_size : forall g messages st r st1,
  is_connected st.2 = true ->
  for_messages fuel batch_size g messages st = Some (r, st1) ->
  (exists m, r = Ret m) /\ carries_on st st1.
Proof.
  induction fuel as [|fuel IH]; intros g messages st r st1 Hconn Hrun;
    simpl in Hrun; [discriminate|].
  destruct (gen_next g st) as [[v g1| |e] st2] eqn:Hnext.
  - apply FileWatcherRun.gen_next_yield_spec in Hnext as (_ & _ & _ & _ & Hc); [|done].
    destruct (batch_size <=? len (messages ++ [v])).
    + injection Hrun as <- <-. split; [by eexists|done].
    + apply IH in Hrun as [Hr Hc1].
      * split; [done|]. by eapply FileWatcherRun.carries_on_trans.
      * destruct Hc as (_ & -> & _). done.
  - apply FileWatcherRun.gen_next_stop_spec in Hnext as [_ Hc]; [|done].
    injection Hrun as <- <-. split; [by eexists|done].
  - by apply FileWatcherRun.gen_next_never_raises in Hnext.
Qed.

Lemma wait_for_files_returns fuel batch_size timeout_ms start_time :
  forall messages st r st1,
  is_connected st.2 = true ->
  0 <= polling_interval (config st.2) ->
  wait_for_files fuel batch_size timeout_ms start_time messages st = Some (r, st1) ->
  (exists m, r = Ret m) /\ is_connected st1.2 = true.
Proof.
  induction fuel as [|fuel IH]; intros messages st r st1 Hconn Hpoll Hrun;
    cbn [wait_for_files] in Hrun; [discriminate|].
  destruct ((len messages <? batch_size) && (now st.1 - start_time <? timeout_ms)).
  2:{ injection Hrun as <- <-. split; [by eexists|done]. }
  destruct (file_queue st.2) as [|p q] eqn:Hq.
  - destruct (polling_interval (config st.2) <? 0) eqn:Hneg; [lia|].
    eapply IH; [| |exact Hrun].
    + destruct (Connecting.sleep_flags (polling_interval (config st.2) * 1000) st)
        as (_ & -> & _). done.
    + destruct (FileWatcherTotal.sleep_later (polling_interval (config st.2) * 1000) st)
        as [-> _]. done.
  - destruct (for_messages _ _ _ _ _) as [[[m|e] st2]|] eqn:Hfor; try discriminate;
      apply for_messages_returns in Hfor as [[m' [=]] (_ & Hc & Hcfg & _)]; try done.
    eapply IH; [| |exact Hrun]; congruence.
Qed.

Lemma consume_batch_returns fuel batch_size timeout_ms st r st1 :
  is_connected st.2 = true ->
  0 <= polling_interval (config st.2) ->
  consume_batch fuel batch_size timeout_ms st = Some (r, st1) ->
  (exists m, r = Ret m) /\ is_connected st1.2 = true.
Proof.
  intros Hconn Hpoll. unfold consume_batch.
  destruct (for_messages _ _ _ _ _) as [[[m|e] st2]|] eqn:Hfor; try discriminate;
    apply for_messages_returns in Hfor as [[m' [=]] (_ & Hc & Hcfg & _)]; try done.
  apply wait_for_files_returns; congruence.
Qed.

(** *** A batch that fills while the generator is suspended *)

Lemma untouched_refl w : untouched w w.
Proof. by split_and!. Qed.

Lemma untouched_trans w1 w2 w3 : untouched w1 w2 -> untouched w2 w3 -> untouched w1 w3.
Proof.
  intros (Hn & Ha & Hi) (Hn' & Ha' & Hi'). split_and!; [congruence|congruence|].
  intros p f d Hp Hd. eapply Hi'; [|done]. by eapply Hi.
Qed.

Lemma untouched_quarantine p f m w :
  input_dir w !! p = Some f ->
  (forall d, json_load (content f) <> Loaded d) ->
  untouched w (_move_file_to_error p m w).
Proof.
  intros Hp Hbad. split_and!.
  - by destruct (FileWatcherRun.move_file_to_error_env p m w) as (-> & _).
  - apply Disposal.move_file_to_error_archive.
  - intros q g d Hq Hd. rewrite Disposal.move_file_to_error_input.
    destruct (decide (q = p)) as [->|]; [|done].
    rewrite Hp in Hq. injection Hq as <-. by destruct (Hbad d).
Qed.

Lemma while_files_yield_untouched queue : forall fr w v g queue1 w1,
  while_files queue fr w = (Yield v g, queue1, w1) -> untouched w w1.
Proof.
  induction queue as [|p queue IH]; intros fr w v g queue1 w1 Hrun; simpl in Hrun;
    [done|].
  destruct (message_count fr <? max_messages fr); [|done].
  destruct (input_dir w !! p) as [f|] eqn:Hp; [|by eapply IH].
  destruct (json_load (content f)) as [data|msg|msg] eqn:Hload.
  - destruct data as [|b|n|s0|items|fields];
      try (injection Hrun as <- <- <- <-; apply untouched_refl).
    destruct (for_item fr items) as [[item rest]|]; [|by eapply IH].
    injection Hrun as <- <- <- <-. apply untouched_refl.
  - eapply untouched_trans; [|by eapply IH].
    eapply untouched_quarantine; [done|]. intros d. congruence.
  - eapply untouched_trans; [|by eapply IH].
    eapply untouched_quarantine; [done|]. intros d. congruence.
Qed.

Lemma gen_next_yield_untouched g st v g1 st1 :
  is_connected st.2 = true ->
  gen_next g st = (Yield v g1, st1) -> untouched st.1 st1.1.
Proof.
  intros Hconn.
  assert (forall fr, enter_while fr st = (Yield v g1, st1) -> untouched st.1 st1.1)
    as Henter.
  { intros fr. unfold enter_while. destruct st as [w fw].
    destruct (while_files _ _ _) as [[s q] w1] eqn:Hw.
    intros [= -> <-]. by eapply while_files_yield_untouched. }
  unfold gen_next. destruct g as [max|fr p rest|fr p|]; try done.
  - rewrite Hconn. apply Henter.
  - destruct (for_item (count_message fr) rest) as [[item rest1]|]; [|apply Henter].
    intros [= <- <- <-]. apply untouched_refl.
  - apply Henter.
Qed.

(** A loop left by [break] has only ever resumed the generator up to a
    [yield]. *)
Lemma for_messages_break fuel batch_size : forall g messages st r st1,
  is_connected st.2 = true ->
  len messages < batch_size -> batch_size <= len r ->
  for_messages fuel batch_size g messages st = Some (Ret r, st1) ->
  untouched st.1 st1.1.
Proof.
  induction fuel as [|fuel IH]; intros g messages st r st1 Hconn Hlt Hfull Hrun;
    simpl in Hrun; [discriminate|].
  destruct (gen_next g st) as [[v g1| |e] st2] eqn:Hnext.
  - pose proof (gen_next_yield_untouched _ _ _ _ _ Hconn Hnext) as Hu.
    apply FileWatcherRun.gen_next_yield_spec in Hnext as (_ & _ & _ & _ & Hc); [|done].
    destruct (batch_size <=? len (messages ++ [v])) eqn:Hle.
    + by injection Hrun as <- <-.
    + eapply untouched_trans; [exact Hu|]. eapply IH; [| | |exact Hrun]; [|lia|done].
      destruct Hc as (_ & -> & _). done.
  - injection Hrun as <- <-. lia.
  - discriminate.
Qed.

End WithRuntime.
End Connected.

(** X4.  A connected watcher whose polling interval is not negative never
    raises from [consume_batch]: whatever the queued files contain and
    whatever other processes do to the directories meanwhile, the call
    returns a batch, and the watcher is still connected. *)
Theorem X4_connected_watcher_never_raises {RT : Runtime} (fuel : nat)
    (batch_size timeout_ms : Z) (st st1 : FileWatcher.state)
    (r : outcome (list json)) :
  FileWatcher.is_connected st.2 = true ->
  0 <= FileWatcher.polling_interval (FileWatcher.config st.2) ->
  FileWatcher.consume_batch fuel batch_size timeout_ms st = Some (r, st1) ->
  (exists batch, r = Ret batch) /\ FileWatcher.is_connected st1.2 = true.
Proof. apply Connected.consume_batch_returns. Qed.

(** X5.  A batch that fills.  On a connected watcher whose queued files hold
    at least [batch_size >= 1] records, [consume_batch] returns the first
    [batch_size] of them at once (the clock does not move, whatever
    [timeout_ms] is), and it archives nothing: the archive directory is as
    before and every input file that decodes is still in the input
    directory, although the files read have left the queue. *)
Theorem X5_full_batch_archives_nothing {RT : Runtime} (fuel : nat)
    (batch_size timeout_ms : Z) (st : FileWatcher.state) :
  FileWatcher.is_connected st.2 = true ->
  1 <= batch_size ->
  batch_size <= len (flat_map (FileWatcher.records_of st.1) (FileWatcher.file_queue st.2)) ->
  (Z.to_nat batch_size < fuel)%nat ->
  exists st1,
    FileWatcher.consume_batch fuel batch_size timeout_ms st
    = Some (Ret (take (Z.to_nat batch_size)
                   (flat_map (FileWatcher.records_of st.1)
                             (FileWatcher.file_queue st.2))), st1) /\
    now st1.1 = now st.1 /\
    archive_dir st1.1 = archive_dir st.1 /\
    (forall p f d, input_dir st.1 !! p = Some f -> json_load (content f) = Loaded d ->
                   input_dir st1.1 !! p = Some f).
Proof.
  intros Hconn Hn Hhave Hfuel.
  set (batch := take (Z.to_nat batch_size)
                  (flat_map (FileWatcher.records_of st.1) (FileWatcher.file_queue st.2))).
  assert (len batch = batch_size) as Hlen.
  { unfold batch, len in *. rewrite length_take. lia. }
  destruct (FileWatcherRun.for_messages_spec fuel batch_size
              (FileWatcher.consume_messages batch_size) [] st)
    as (st1 & Hfor & Hc & _); [done|simpl; unfold len; simpl; lia|simpl; lia|].
  change (FileWatcher.for_messages fuel batch_size
            (FileWatcher.consume_messages batch_size) [] st = Some (Ret batch, st1))
    in Hfor.
  exists st1. unfold FileWatcher.consume_batch. rewrite Hfor.
  destruct fuel as [|fuel]; [lia|]. cbn [FileWatcher.wait_for_files].
  rewrite Hlen, Z.ltb_irrefl. cbn [andb]. split; [done|].
  apply (Connected.for_messages_break _ _ _ _ _ _ _ Hconn) in Hfor;
    [exact Hfor|unfold len; simpl; lia|lia].
Qed.

(** Files A, B = [x, y], C queued, two records asked for. *)
Lemma X5_full_batch_archives_nothing_witness :
  let st := (Demo.world_with Demo.abc,
             Demo.watching FileWatcher.default_config
               ["a.json"; "b.json"; "c.json"]%string) in
  exists st1,
    FileWatcher.consume_batch (RT := Demo.runtime) 5 2 5000 st
    = Some (Ret (take (Z.to_nat 2)
                   (flat_map (FileWatcher.records_of (RT := Demo.runtime) st.1)
                             (FileWatcher.file_queue st.2))), st1) /\
    now st1.1 = now st.1 /\
    archive_dir st1.1 = archive_dir st.1 /\
    (forall p f d, input_dir st.1 !! p = Some f ->
                   json_load (Runtime := Demo.runtime) (content f) = Loaded d ->
                   input_dir st1.1 !! p = Some f).
Proof.
  intros st.
  apply (X5_full_batch_archives_nothing (RT := Demo.runtime) 5 2 5000 st).
  - reflexivity.
  - lia.
  - vm_compute. discriminate.
  - simpl. lia.
Defined.

(** X6.  A batch with fewer records than asked for is returned only once
    [timeout_ms] has elapsed since the call began, whatever arrives or
    disappears meanwhile. *)
Theorem X6_short_batch_only_after_timeout {RT : Runtime} (fuel : nat)
    (batch_size timeout_ms : Z) (st st1 : FileWatcher.state) (batch : list json) :
  FileWatcher.consume_batch fuel batch_size timeout_ms st = Some (Ret batch, st1) ->
  len batch < batch_size ->
  timeout_ms <= now st1.1 - now st.1.
Proof.
  unfold FileWatcher.consume_batch.
  destruct (FileWatcher.for_messages _ _ _ _ _) as [[[r|e] st0]|]; try discriminate.
  intros Hwait%FileWatcherRun.wait_for_files_exit Hshort.
  destruct Hwait as [Hfull|Hlate]; [lia|done].
Qed.

(** Three queued files holding four records, ten asked for within 12 s. *)
Lemma X6_short_batch_only_after_timeout_witness :
  let st := (Demo.world_with Demo.abc,
             Demo.watching FileWatcher.default_config
               ["a.json"; "b.json"; "c.json"]%string) in
  exists st1,
    FileWatcher.consume_batch (RT := Demo.runtime) 20 10 12000 st
      = Some (Ret [Demo.obj "A"; JStr "x"; JStr "y"; Demo.obj "C"], st1) /\
    12000 <= now st1.1 - now st.1.
Proof.
  intros st. eexists. split; [vm_compute; reflexivity|].
  eapply (X6_short_batch_only_after_timeout (RT := Demo.runtime) 20 10 12000 st _
            [Demo.obj "A"; JStr "x"; JStr "y"; Demo.obj "C"]).
  - vm_compute. reflexivity.
  - vm_compute. reflexivity.
Defined.

(** A connected watcher over a file that does not decode. *)
Lemma X4_connected_watcher_never_raises_witness :
  let st := (Demo.world_with Demo.mixed,
             Demo.watching FileWatcher.default_config ["a.json"; "bad.json"]%string) in
  exists r st1,
    FileWatcher.consume_batch (RT := Demo.runtime) 20 10 5000 st = Some (r, st1) /\
    (exists batch, r = Ret batch) /\ FileWatcher.is_connected st1.2 = true.
Proof.
  intros st. eexists _, _. split; [vm_compute; reflexivity|].
  eapply (X4_connected_watcher_never_raises (RT := Demo.runtime) 20 10 5000 st).
  - reflexivity.
  - simpl. lia.
  - vm_compute. reflexivity.
Defined.

(** ** Counting files *)
Module Counting.
Import FileWatcher.

Lemma len_glob_insert_fresh pattern k v (dir : gmap string file) :
  dir !! k = None -> fnmatch k pattern = true ->
  len (glob pattern (<[k := v]> dir)) = len (glob pattern dir) + 1.
Proof.
  intros Hk Hm. unfold len, glob.
  rewrite (map_to_list_insert dir k v Hk), filter_cons_True; [simpl; lia|].
  simpl. by rewrite Hm.
Qed.

Lemma len_glob_delete pattern k v (dir : gmap string file) :
  dir !! k = Some v -> fnmatch k pattern = true ->
  len (glob pattern (delete k dir)) = len (glob pattern dir) - 1.
Proof.
  intros Hk Hm.
  rewrite <- (insert_delete_id dir k v Hk) at 2.
  rewrite len_glob_insert_fresh; [lia|apply lookup_delete_eq|done].
Qed.

Lemma len_glob_delete_other pattern k (dir : gmap string file) :
  fnmatch k pattern = false ->
  len (glob pattern (delete k dir)) = len (glob pattern dir).
Proof.
  intros Hm. destruct (dir !! k) as [v|] eqn:Hk.
  - rewrite <- (insert_delete_id dir k v Hk) at 2. unfold len, glob.
    rewrite (map_to_list_insert (delete k dir) k v) by apply lookup_delete_eq.
    rewrite filter_cons_False; [done|]. simpl. rewrite Hm. by intros [].
  - by rewrite delete_id.
Qed.

Lemma len_glob_insert_other pattern k v (dir : gmap string file) :
  fnmatch k pattern = false ->
  len (glob pattern (<[k := v]> dir)) = len (glob pattern dir).
Proof.
  intros Hm. rewrite <- (len_glob_delete_other pattern k dir Hm).
  rewrite <- insert_delete_eq. unfold len, glob.
  rewrite (map_to_list_insert (delete k dir) k v) by apply lookup_delete_eq.
  rewrite filter_cons_False; [done|]. simpl. rewrite Hm. by intros [].
Qed.

End Counting.

Lemma stamped_is_json {RT : Runtime} t p :
  ends_with p ".json" = true -> fnmatch (FileWatcher.stamped t p) "*.json" = true.
Proof.
  intros Hp. rewrite Patterns.fnmatch_json. unfold FileWatcher.stamped.
  by do 2 apply Patterns.ends_with_append.
Qed.

(** X7.  What [get_statistics] counts when one *.json input file is disposed
    of.  Archiving it moves one unit from [input_files_pending] to
    [archived_files]; quarantining it moves one unit from
    [input_files_pending] to [error_files], the report written beside it not
    being counted; this provided no file of the same stamped name is in the
    target directory yet.  When the archive directory cannot be written the
    file is deleted and counted nowhere any more; when the error directory
    cannot be written nothing changes. *)
Theorem X7_statistics_follow_disposal {RT : Runtime}
    (p error_message : string) (f : file) (w : world) (fw : FileWatcher.watcher) :
  input_dir w !! p = Some f ->
  ends_with p ".json" = true ->
  let before := FileWatcher.get_statistics (w, fw) in
  let archived := FileWatcher.get_statistics (FileWatcher._archive_file p w, fw) in
  let quarantined :=
    FileWatcher.get_statistics (FileWatcher._move_file_to_error p error_message w, fw) in
  (archive_writable w = true ->
   archive_dir w !! FileWatcher.stamped (now w) p = None ->
   FileWatcher.input_files_pending archived = FileWatcher.input_files_pending before - 1 /\
   FileWatcher.archived_files archived = FileWatcher.archived_files before + 1 /\
   FileWatcher.error_files archived = FileWatcher.error_files before) /\
  (archive_writable w = false ->
   FileWatcher.input_files_pending archived = FileWatcher.input_files_pending before - 1 /\
   FileWatcher.archived_files archived = FileWatcher.archived_files before /\
   FileWatcher.error_files archived = FileWatcher.error_files before) /\
  (error_writable w = true ->
   error_dir w !! FileWatcher.stamped (now w) p = None ->
   FileWatcher.input_files_pending quarantined = FileWatcher.input_files_pending before - 1 /\
   FileWatcher.archived_files quarantined = FileWatcher.archived_files before /\
   FileWatcher.error_files quarantined = FileWatcher.error_files before + 1) /\
  (error_writable w = false -> quarantined = before).
Proof.
  intros Hp Hjson before archived quarantined.
  assert (fnmatch p "*.json" = true) as Hm by by rewrite Patterns.fnmatch_json.
  pose proof (stamped_is_json (now w) p Hjson) as Hsm.
  unfold before, archived, quarantined, FileWatcher.get_statistics.
  cbn [fst snd FileWatcher.input_files_pending FileWatcher.archived_files
       FileWatcher.error_files].
  rewrite Disposal.archive_file_input, Disposal.archive_file_archive,
    Disposal.archive_file_error, Disposal.move_file_to_error_archive,
    Disposal.move_file_to_error_error, Hp.
  rewrite (Counting.len_glob_delete _ _ _ _ Hp Hm).
  split_and!.
  - intros -> Hfresh. by rewrite Counting.len_glob_insert_fresh.
  - by intros ->.
  - intros Hw Hfresh. rewrite Hw.
    rewrite Counting.len_glob_insert_other, Counting.len_glob_insert_fresh; try done.
    + split_and!; [|done|done].
      unfold FileWatcher._move_file_to_error, move. rewrite Hp, Hw. cbn.
      by rewrite (Counting.len_glob_delete _ _ _ _ Hp Hm).
    + rewrite Patterns.fnmatch_json. apply Patterns.report_is_not_json.
  - intros Hw. unfold FileWatcher._move_file_to_error, move. by rewrite Hp, Hw.
Qed.

(** One good and one bad file at time 100 s. *)
Lemma X7_statistics_follow_disposal_witness :
  let w := Demo.world_with Demo.mixed in
  let fw := Demo.watching FileWatcher.default_config [] in
  let before := FileWatcher.get_statistics (w, fw) in
  let quarantined :=
    FileWatcher.get_statistics
      (FileWatcher._move_file_to_error (RT := Demo.runtime) "bad.json" "broken" w, fw) in
  FileWatcher.input_files_pending before = 2 /\
  FileWatcher.input_files_pending quarantined = FileWatcher.input_files_pending before - 1 /\
  FileWatcher.archived_files quarantined = FileWatcher.archived_files before /\
  FileWatcher.error_files quarantined = FileWatcher.error_files before + 1.
Proof.
  intros w fw before quarantined. split; [reflexivity|].
  destruct (X7_statistics_follow_disposal (RT := Demo.runtime) "bad.json" "broken"
              (Demo.file_at 20 "{oops") w fw) as (_ & _ & Hq & _).
  - reflexivity.
  - reflexivity.
  - apply Hq; reflexivity.
Defined.

(** ** Reading from the broker *)
Module KafkaRun.
Import Kafka.

Section WithRuntime.
Context {RT : Runtime}.

Lemma gen_next_resumes g max count cl w c :
  resumes g max count -> consumer c = Some cl ->
  gen_next g (w, c) = enter_for max count cl (w, c).
Proof.
  intros Hg Hc. destruct g as [m|m k|]; simpl in *; [| |done].
  - destruct Hg as [-> ->]. by rewrite Hc.
  - destruct Hg as [-> ->]. by rewrite Hc.
Qed.

(** A record the validator rejects is passed over. *)
Lemma for_messages_skip fuel g messages max count cl w c v rest :
  resumes g max count -> consumer c = Some cl ->
  broker_stream w = KRecord v :: rest ->
  count < max -> validate_statement_message v = None ->
  for_messages fuel g messages (w, c)
  = for_messages fuel g messages (set_stream rest w, c).
Proof.
  intros Hg Hc Hs Hlt Hv. destruct fuel as [|fuel]; [done|].
  cbn [for_messages].
  rewrite !(gen_next_resumes g max count cl) by done.
  unfold enter_for. rewrite Hs. cbn [for_message broker_stream set_stream now].
  destruct (max <=? count) eqn:Hle; [lia|]. by rewrite Hv.
Qed.

(** A record the validator accepts is yielded. *)
Lemma for_messages_take fuel g messages max count cl w c v v' rest :
  resumes g max count -> consumer c = Some cl ->
  broker_stream w = KRecord v :: rest ->
  count < max -> validate_statement_message v = Some v' ->
  for_messages (S fuel) g messages (w, c)
  = for_messages fuel (AtYield max count) (messages ++ [v'])
      (set_now (now w) (set_stream rest w), c).
Proof.
  intros Hg Hc Hs Hlt Hv. cbn [for_messages].
  rewrite (gen_next_resumes g max count cl) by done.
  unfold enter_for. rewrite Hs. cbn [for_message].
  destruct (max <=? count) eqn:Hle; [lia|]. by rewrite Hv.
Qed.

Lemma for_messages_records (vs : list json) : forall fuel g messages max count cl w c,
  resumes g max count -> consumer c = Some cl ->
  broker_stream w = KRecord <$> vs ->
  (length vs < fuel)%nat ->
  exists w1,
    for_messages fuel g messages (w, c)
    = Some (Ret (messages ++ take (Z.to_nat (max - count)) (validated vs)), (w1, c)).
Proof.
  induction vs as [|v vs IH]; intros fuel g messages max count cl w c Hg Hc Hs Hfuel.
  - destruct fuel as [|fuel]; [simpl in Hfuel; lia|]. cbn [for_messages].
    rewrite (gen_next_resumes g max count cl) by done.
    unfold enter_for. rewrite Hs. cbn. rewrite take_nil, app_nil_r. by eexists.
  - destruct (decide (max <= count)) as [Hfull|Hroom].
    + destruct fuel as [|fuel]; [simpl in Hfuel; lia|]. cbn [for_messages].
      rewrite (gen_next_resumes g max count cl) by done.
      unfold enter_for. rewrite Hs. cbn [fmap list_fmap for_message].
      destruct (max <=? count) eqn:Hle; [|lia].
      replace (Z.to_nat (max - count)) with 0%nat by lia.
      rewrite take_0, app_nil_r. by eexists.
    + unfold validated. cbn [omap list_omap].
      destruct (validate_statement_message v) as [v'|] eqn:Hv.
      * destruct fuel as [|fuel]; [simpl in Hfuel; lia|].
        rewrite (for_messages_take fuel g messages max count cl w c v v' (KRecord <$> vs))
          by (done || lia).
        destruct (IH fuel (AtYield max count) (messages ++ [v']) max (count + 1) cl
                    (set_now (now w) (set_stream (KRecord <$> vs) w)) c)
          as (w1 & ->); [done|done|done|simpl in Hfuel; lia|].
        exists w1. replace (Z.to_nat (max - count)) with (S (Z.to_nat (max - (count + 1))))
          by lia.
        cbn [take]. by rewrite <- app_assoc.
      * rewrite (for_messages_skip fuel g messages max count cl w c v (KRecord <$> vs))
          by (done || lia).
        apply (IH fuel g messages max count cl); [done|done|done|simpl in Hfuel; lia].
Qed.

(** The loop run over a prefix of records that does not fill the batch. *)
Lemma for_messages_prefix (vs : list json) (tail : list kafka_event) :
  forall g messages max count cl w c,
  resumes g max count -> consumer c = Some cl ->
  broker_stream w = (KRecord <$> vs) ++ tail ->
  count + len (validated vs) < max ->
  exists g' w',
    resumes g' max (count + len (validated vs)) /\
    broker_stream w' = tail /\ now w' = now w /\
    forall fuel,
      for_messages (length (validated vs) + fuel) g messages (w, c)
      = for_messages fuel g' (messages ++ validated vs) (w', c).
Proof.
  induction vs as [|v vs IH]; intros g messages max count cl w c Hg Hc Hs Hroom.
  - exists g, w. unfold validated, len. cbn. rewrite app_nil_r, Z.add_0_r.
    split_and!; try done.
  - unfold validated in *. cbn [omap list_omap] in *.
    destruct (validate_statement_message v) as [v'|] eqn:Hv.
    + unfold len in Hroom. cbn [mbind option_bind mret option_ret length] in *.
      destruct (IH (AtYield max count) (messages ++ [v']) max (count + 1) cl
                  (set_now (now w) (set_stream ((KRecord <$> vs) ++ tail) w)) c)
        as (g' & w' & Hg' & Hs' & Hnow' & Hrun); [done|done|done|unfold len; lia|].
      exists g', w'. split_and!; try done.
      * unfold len in *. cbn [length].
        replace (count + Z.of_nat (S (length (omap validate_statement_message vs))))
          with (count + 1 + Z.of_nat (length (omap validate_statement_message vs)))
          by lia. done.
      * intros fuel. cbn [length Nat.add].
        rewrite (for_messages_take _ g messages max count cl w c v v'
                   ((KRecord <$> vs) ++ tail)) by (done || lia).
        rewrite Hrun. by rewrite <- app_assoc.
    + cbn [mbind option_bind] in *.
      destruct (IH g messages max count cl
                  (set_stream ((KRecord <$> vs) ++ tail) w) c)
        as (g' & w' & Hg' & Hs' & Hnow' & Hrun); [done|done|done|done|].
      exists g', w'. split_and!; try done.
      intros fuel.
      rewrite (for_messages_skip _ g messages max count cl w c v
                 ((KRecord <$> vs) ++ tail)) by (done || unfold len in *; lia).
      apply Hrun.
Qed.

End WithRuntime.
End KafkaRun.

(** X8.  A connected broker consumer reading a topic on which the given
    messages are ready and no fault occurs returns, for [batch_size >= 0],
    the first [batch_size] messages the validator accepts, in stream order;
    rejected messages are passed over and do not count. *)
Theorem X8_kafka_batch_is_first_valid_records {RT : Runtime} (fuel : nat)
    (batch_size timeout_ms : Z) (w : world) (c : Kafka.FinancialStatementConsumer)
    (cl : Kafka.client) (values : list json) :
  Kafka.consumer c = Some cl ->
  broker_stream w = KRecord <$> values ->
  0 <= batch_size ->
  (length values < fuel)%nat ->
  exists w1,
    Kafka.consume_batch fuel batch_size timeout_ms (w, c)
    = Some (Ret (take (Z.to_nat batch_size) (validated values)), (w1, c)).
Proof.
  intros Hc Hs Hn Hfuel. unfold Kafka.consume_batch, Kafka.consume_messages.
  destruct (KafkaRun.for_messages_records values fuel (Kafka.Fresh batch_size) []
              batch_size 0 cl w c) as (w1 & ->); [done|done|done|done|].
  exists w1. by rewrite Z.sub_0_r.
Qed.

(** Four messages of which the second is rejected, three asked for. *)
Lemma X8_kafka_batch_is_first_valid_records_witness :
  let c := {| Kafka.config := Config.KAFKA_CONFIG;
              Kafka.consumer := Some {| Kafka.client_timeout_ms := 10000 |} |} in
  let w := set_stream (KRecord <$> [Demo.obj "A"; JStr "junk"; Demo.obj "B"; Demo.obj "C"])
             (Demo.world_with ∅) in
  exists w1,
    Kafka.consume_batch (RT := Demo.runtime) 5 2 5000 (w, c)
    = Some (Ret [Demo.obj "A"; Demo.obj "B"], (w1, c)).
Proof.
  intros c w.
  apply (X8_kafka_batch_is_first_valid_records (RT := Demo.runtime) 5 2 5000 w c
           {| Kafka.client_timeout_ms := 10000 |}
           [Demo.obj "A"; JStr "junk"; Demo.obj "B"; Demo.obj "C"]).
  - reflexivity.
  - reflexivity.
  - lia.
  - simpl. lia.
Defined.

(** X9.  The message after a full batch is lost.  When the message that
    completes the batch is followed on the topic by another message, a
    connected consumer returns the batch and has then taken that further
    message from the stream as well, without returning it: the stream
    continues after it. *)
Theorem X9_kafka_message_after_full_batch_is_dropped {RT : Runtime} (fuel : nat)
    (timeout_ms : Z) (w : world) (c : Kafka.FinancialStatementConsumer)
    (cl : Kafka.client) (before : list json) (last accepted extra : json)
    (rest : list kafka_event) :
  Kafka.consumer c = Some cl ->
  broker_stream w = (KRecord <$> before) ++ KRecord last :: KRecord extra :: rest ->
  validate_statement_message last = Some accepted ->
  (length (validated before) + 2 <= fuel)%nat ->
  exists w1,
    Kafka.consume_batch fuel (len (validated before) + 1) timeout_ms (w, c)
    = Some (Ret (validated before ++ [accepted]), (w1, c)) /\
    broker_stream w1 = rest /\ now w1 = now w.
Proof.
  intros Hc Hs Hv Hfuel. unfold Kafka.consume_batch, Kafka.consume_messages.
  set (n := len (validated before) + 1).
  destruct (KafkaRun.for_messages_prefix before (KRecord last :: KRecord extra :: rest)
              (Kafka.Fresh n) [] n 0 cl w c)
    as (g' & w' & Hg' & Hs' & Hnow' & Hrun); [done|done|done|unfold n; lia|].
  replace fuel with (length (validated before) + (2 + (fuel - length (validated before) - 2)))%nat
    by lia.
  rewrite Hrun. cbn [app Nat.add].
  rewrite (KafkaRun.for_messages_take _ g' _ n (0 + len (validated before)) cl w' c
             last accepted (KRecord extra :: rest)) by (done || unfold n; lia).
  cbn [Kafka.for_messages Kafka.gen_next snd]. rewrite Hc.
  unfold Kafka.enter_for. cbn [broker_stream set_now set_stream Kafka.for_message now].
  destruct (n <=? 0 + len (validated before) + 1) eqn:Hle; [|unfold n in Hle; lia].
  eexists. split; [reflexivity|]. by cbn.
Qed.

(** Three accepted messages ready, two asked for: the third is gone. *)
Lemma X9_kafka_message_after_full_batch_is_dropped_witness :
  let c := {| Kafka.config := Config.KAFKA_CONFIG;
              Kafka.consumer := Some {| Kafka.client_timeout_ms := 10000 |} |} in
  let w := set_stream (KRecord <$> [Demo.obj "A"; Demo.obj "B"; Demo.obj "C"; Demo.obj "D"])
             (Demo.world_with ∅) in
  exists w1,
    Kafka.consume_batch (RT := Demo.runtime) 5 2 5000 (w, c)
    = Some (Ret [Demo.obj "A"; Demo.obj "B"], (w1, c)) /\
    broker_stream w1 = [KRecord (Demo.obj "D")] /\ now w1 = now w.
Proof.
  intros c w.
  apply (X9_kafka_message_after_full_batch_is_dropped (RT := Demo.runtime) 5 5000 w c
           {| Kafka.client_timeout_ms := 10000 |}
           [Demo.obj "A"] (Demo.obj "B") (Demo.obj "B") (Demo.obj "C")
           [KRecord (Demo.obj "D")]).
  - reflexivity.
  - reflexivity.
  - reflexivity.
  - simpl. lia.
Defined.

(** X10.  A fault of the client while the batch is not yet full.  A
    KafkaTimeoutError ends the batch: the records accepted so far are
    returned.  Any other error is raised to the caller, and the records
    accepted so far are returned by no call although they have been taken
    from the stream. *)
Theorem X10_kafka_fault_during_batch {RT : Runtime} (fuel : nat)
    (batch_size timeout_ms : Z) (w : world) (c : Kafka.FinancialStatementConsumer)
    (cl : Kafka.client) (values : list json) (e : exn) (rest : list kafka_event) :
  Kafka.consumer c = Some cl ->
  broker_stream w = (KRecord <$> values) ++ KFault e :: rest ->
  len (validated values) < batch_size ->
  (length (validated values) < fuel)%nat ->
  exists w1,
    Kafka.consume_batch fuel batch_size timeout_ms (w, c)
    = Some (match e with
            | KafkaTimeoutError => Ret (validated values)
            | _ => Raise e
            end, (w1, c)) /\
    broker_stream w1 = rest /\ now w1 = now w.
Proof.
  intros Hc Hs Hroom Hfuel. unfold Kafka.consume_batch, Kafka.consume_messages.
  destruct (KafkaRun.for_messages_prefix values (KFault e :: rest)
              (Kafka.Fresh batch_size) [] batch_size 0 cl w c)
    as (g' & w' & Hg' & Hs' & Hnow' & Hrun); [done|done|done|lia|].
  replace fuel with (length (validated values) + S (fuel - length (validated values) - 1))%nat
    by lia.
  rewrite Hrun. cbn [app Kafka.for_messages].
  rewrite (KafkaRun.gen_next_resumes g' batch_size (0 + len (validated values)) cl)
    by done.
  unfold Kafka.enter_for. rewrite Hs'. cbn [Kafka.for_message].
  destruct e; (eexists; split; [reflexivity|]; by cbn).
Qed.

(** One message, then the broker connection breaks. *)
Lemma X10_kafka_fault_during_batch_witness :
  let c := {| Kafka.config := Config.KAFKA_CONFIG;
              Kafka.consumer := Some {| Kafka.client_timeout_ms := 10000 |} |} in
  let w := set_stream [KRecord (Demo.obj "A"); KFault (KafkaError "NoBrokersAvailable")]
             (Demo.world_with ∅) in
  exists w1,
    Kafka.consume_batch (RT := Demo.runtime) 5 10 5000 (w, c)
    = Some (Raise (KafkaError "NoBrokersAvailable"), (w1, c)) /\
    broker_stream w1 = [] /\ now w1 = now w.
Proof.
  intros c w.
  apply (X10_kafka_fault_during_batch (RT := Demo.runtime) 5 10 5000 w c
           {| Kafka.client_timeout_ms := 10000 |}
           [Demo.obj "A"] (KafkaError "NoBrokersAvailable") []).
  - reflexivity.
  - reflexivity.
  - vm_compute. reflexivity.
  - simpl. lia.
Defined.

(** X11.  A consumer that is not connected connects on its first
    [consume_batch].  If a key that [connect] reads is missing from the
    consumer's configuration, the call raises KeyError for the first such
    key; if the configuration is complete and the broker cannot be reached,
    it raises RuntimeError("Failed to establish Kafka connection").  In both
    cases the consumer and its surroundings are left as they were, and the
    adapter's own [connect] reports False instead of raising. *)
Theorem X11_kafka_connection_failure {RT : Runtime} (fuel : nat)
    (batch_size timeout_ms : Z) (w : world) (c : Kafka.FinancialStatementConsumer)
    (k : DataSources.KafkaDataSource) :
  Kafka.consumer c = None ->
  DataSources.k_consumer k = c ->
  (forall key, Kafka.missing_key (Kafka.config c) = Some key ->
     Kafka.consume_batch (S fuel) batch_size timeout_ms (w, c)
       = Some (Raise (KeyError key), (w, c)) /\
     DataSources.KafkaDS.connect w k = (false, (w, k))) /\
  (Kafka.missing_key (Kafka.config c) = None -> broker_reachable w = false ->
     Kafka.consume_batch (S fuel) batch_size timeout_ms (w, c)
       = Some (Raise (RuntimeError "Failed to establish Kafka connection"), (w, c)) /\
     (DataSources.KafkaDS.connect w k).1 = false /\
     DataSources.k_is_connected (DataSources.KafkaDS.connect w k).2.2 = false).
Proof.
  intros Hnone <-. split.
  - intros key Hkey.
    unfold Kafka.consume_batch, Kafka.consume_messages, DataSources.KafkaDS.connect.
    cbn [Kafka.for_messages Kafka.gen_next snd]. rewrite Hnone.
    unfold Kafka.connect. rewrite Hkey. split; [done|]. by destruct k.
  - intros Hkeys Hdown.
    unfold Kafka.consume_batch, Kafka.consume_messages, DataSources.KafkaDS.connect.
    cbn [Kafka.for_messages Kafka.gen_next snd]. rewrite Hnone.
    unfold Kafka.connect. by rewrite Hkeys, Hdown.
Qed.

(** A configuration that only names the topic; and the default
    configuration with the broker down. *)
Lemma X11_kafka_connection_failure_witness :
  let partial := {| Config.bootstrap_servers := None; Config.topic := Some "t";
                    Config.group_id := None; Config.auto_offset_reset := None;
                    Config.enable_auto_commit := None;
                    Config.consumer_timeout_ms := None; Config.file_pattern := None;
                    Config.process_existing := None; Config.batch_size := None;
                    Config.polling_interval := None |} in
  let w := Demo.world_with ∅ in
  Kafka.consume_batch (RT := Demo.runtime) 1 10 5000 (w, Kafka.init (Some partial))
    = Some (Raise (KeyError "bootstrap_servers"), (w, Kafka.init (Some partial))) /\
  Kafka.consume_batch (RT := Demo.runtime) 1 10 5000 (Demo.broker_down w, Kafka.init None)
    = Some (Raise (RuntimeError "Failed to establish Kafka connection"),
            (Demo.broker_down w, Kafka.init None)).
Proof.
  intros partial w. split.
  - destruct (X11_kafka_connection_failure (RT := Demo.runtime) 0 10 5000 w
                (Kafka.init (Some partial)) (DataSources.KafkaDS.init partial))
      as [Hkey _]; [reflexivity|reflexivity|].
    apply (Hkey "bootstrap_servers"%string). reflexivity.
  - destruct (X11_kafka_connection_failure (RT := Demo.runtime) 0 10 5000
                (Demo.broker_down w) (Kafka.init None)
                (DataSources.KafkaDS.init Config.KAFKA_CONFIG))
      as [_ Hdown]; [reflexivity|reflexivity|].
    apply Hdown; reflexivity.
Defined.

(** ** The factory and the manager *)
Module FactoryFacts.
Import DataSources.

Lemma DataSourceType_of_spec s t :
  DataSourceType_of s = Ret t <-> s = value t.
Proof.
  unfold DataSourceType_of.
  destruct (String.eqb_spec s "kafka") as [->|Hk].
  - split; [by intros [= <-]|]. destruct t; [done|discriminate].
  - destruct (String.eqb_spec s "file_watcher") as [->|Hf].
    + split; [by intros [= <-]|]. destruct t; [discriminate|done].
    + split; [discriminate|]. intros ->. by destruct t.
Qed.

Lemma create_data_source_ok source_type config t :
  to_type source_type = Ret t ->
  create_data_source source_type config
  = Ret (match t with
         | KAFKA => KafkaSource (KafkaDS.init (default (_get_default_config t) config))
         | FILE_WATCHER => FileSource (FileDS.init (default (_get_default_config t) config))
         end).
Proof.
  intros Ht. unfold create_data_source. rewrite Ht.
  rewrite bool_decide_eq_false_2.
  - by destruct t, config.
  - intros Hnot. apply Hnot. unfold registered_sources. destruct t; set_solver.
Qed.

Lemma create_data_source_ret source_type config src :
  create_data_source source_type config = Ret src ->
  to_type source_type = Ret (Factory.kind_of src) /\
  Factory.is_connected src = false.
Proof.
  destruct (to_type source_type) as [t|e] eqn:Ht.
  - rewrite (create_data_source_ok _ _ _ Ht). intros [= <-]. by destruct t.
  - unfold create_data_source. by rewrite Ht.
Qed.

Lemma connect_kind w src ok w1 src1 :
  connect w src = (ok, (w1, src1)) ->
  Factory.kind_of src1 = Factory.kind_of src /\ Factory.is_connected src1 = ok \/
  (exists k, src = KafkaSource k /\ ok = false /\
             Factory.kind_of src1 = KAFKA /\
             Factory.is_connected src1 = k_is_connected k).
Proof.
  destruct src as [k|f]; simpl.
  - unfold KafkaDS.connect.
    destruct (Kafka.connect (w, k_consumer k)) as [[r|e] [w2 c2]].
    + intros [= <- <- <-]. by left.
    + intros [= <- <- <-]. right. by exists k.
  - unfold FileDS.connect.
    destruct (FileWatcher.connect (w, f_watcher f)) as [r [w2 fw2]].
    intros [= <- <- <-]. by left.
Qed.

End FactoryFacts.

(** X12.  For a source type given as an enumeration member or as a string
    in ASCII.  A string that, in lower case, is neither kafka nor
    file_watcher makes [create_data_source] raise the enumeration's
    ValueError, "<repr of the lowered string> is not a valid
    DataSourceType"; the factory's own "Unsupported data source type" error
    is never what it raises; and when it returns, it returns a new adapter of
    the requested kind that is not connected. *)
Theorem X12_create_data_source (source_type : DataSources.source_type_arg)
    (config : option Config.Dict) :
  ascii_arg source_type = true ->
  (forall s, source_type = DataSources.ByStr s ->
     lower s <> "kafka"%string -> lower s <> "file_watcher"%string ->
     DataSources.create_data_source source_type config
     = Raise (ValueError (repr (lower s) +:+ " is not a valid DataSourceType"))) /\
  (forall e t, DataSources.create_data_source source_type config = Raise e ->
     e <> ValueError ("Unsupported data source type: DataSourceType."
                      +:+ DataSources.name t)) /\
  (forall src, DataSources.create_data_source source_type config = Ret src ->
     DataSources.to_type source_type = Ret (Factory.kind_of src) /\
     Factory.is_connected src = false).
Proof.
  intros _. split; [|split; [|apply FactoryFacts.create_data_source_ret]].
  - intros s -> Hk Hf.
    unfold DataSources.create_data_source, DataSources.to_type,
      DataSources.DataSourceType_of.
    apply String.eqb_neq in Hk, Hf. by rewrite Hk, Hf.
  - intros e t.
    destruct (DataSources.to_type source_type) as [t0|e0] eqn:Ht.
    + by rewrite (FactoryFacts.create_data_source_ok _ _ _ Ht).
    + unfold DataSources.create_data_source. rewrite Ht. intros [= <-].
      destruct source_type as [t1|s]; [discriminate|]. simpl in Ht.
      unfold DataSources.DataSourceType_of in Ht.
      destruct (String.eqb (lower s) "kafka"); [discriminate|].
      destruct (String.eqb (lower s) "file_watcher"); [discriminate|].
      injection Ht as <-. unfold repr.
      destruct (_ && _); intros [= Hq]; discriminate.
Qed.

(** The variable names a source the factory does not know. *)
Lemma X12_create_data_source_witness :
  DataSources.create_data_source (DataSources.ByStr "S3") None
  = Raise (ValueError "'s3' is not a valid DataSourceType").
Proof.
  destruct (X12_create_data_source (DataSources.ByStr "S3") None) as (Hunknown & _).
  - reflexivity.
  - apply (Hunknown "S3"%string); [reflexivity|discriminate|discriminate].
Defined.

(** X13.  For a variable that is unset or holds a value in ASCII: when
    [create_from_environment] returns, it returns an unconnected broker
    adapter with the default broker configuration if the variable is set to
    kafka in any letter case, and otherwise (variable unset, set to
    file_watcher, or set to anything else, which is not an error) an
    unconnected file-watcher adapter with the default file-watcher
    configuration. *)
Theorem X13_create_from_environment (env : option string)
    (src : DataSources.BaseDataSource) :
  (forall s, env = Some s -> is_ascii s = true) ->
  Factory.create_from_environment env = Ret src ->
  src = (if String.eqb (lower (default "file_watcher"%string env)) "kafka"
         then DataSources.KafkaSource
                (DataSources.KafkaDS.init Config.KAFKA_CONFIG)
         else DataSources.FileSource
                (DataSources.FileDS.init
                   (DataSources._get_default_config DataSources.FILE_WATCHER))) /\
  Factory.is_connected src = false.
Proof.
  intros _. unfold Factory.create_from_environment, DataSources.DataSourceType_of.
  destruct (String.eqb (lower (default "file_watcher"%string env)) "kafka").
  { by intros [= <-]. }
  destruct (String.eqb (lower (default "file_watcher"%string env)) "file_watcher");
    by intros [= <-].
Qed.

(** The variable holds a value that names no source. *)
Lemma X13_create_from_environment_witness :
  exists src,
    Factory.create_from_environment (Some "ftp"%string) = Ret src /\
    src = DataSources.FileSource
            (DataSources.FileDS.init
               (DataSources._get_default_config DataSources.FILE_WATCHER)) /\
    Factory.is_connected src = false.
Proof.
  eexists. split; [reflexivity|].
  apply (X13_create_from_environment (Some "ftp"%string)).
  - intros s [= <-]. reflexivity.
  - reflexivity.
Defined.

(** X14.  After a call of [initialize_source] that returns True the manager
    holds a source of the requested kind, the current type names that kind,
    and the source is connected if auto-connect was requested and untouched
    since construction (not connected) if it was not. *)
Theorem X14_successful_initialize (source_type : DataSources.source_type_arg)
    (config : option Config.Dict) (auto_connect : bool)
    (st st1 : DataSources.mstate) :
  DataSources.initialize_source source_type config auto_connect st = (true, st1) ->
  exists t src,
    DataSources.to_type source_type = Ret t /\
    DataSources.current_type st1.2 = Some t /\
    DataSources.current_source st1.2 = Some src /\
    Factory.kind_of src = t /\
    Factory.is_connected src = auto_connect /\
    (auto_connect = false ->
     DataSources.create_data_source source_type config = Ret src /\
     st1.1 = DataSources.world_after_close st).
Proof.
  unfold DataSources.initialize_source, DataSources.world_after_close.
  destruct st as [w m]. cbn [fst snd].
  set (closed := match DataSources.current_source m with
                 | Some src => _ | None => _ end).
  assert (closed.1 = match DataSources.current_source m with
                     | Some src => (DataSources.close w src).2.1
                     | None => w
                     end) as Hw.
  { unfold closed. destruct (DataSources.current_source m) as [src|]; [|done].
    by destruct (DataSources.close w src) as [r [w1 src1]]. }
  destruct closed as [w1 m1]. cbn [fst] in Hw.
  destruct (DataSources.create_data_source source_type config) as [src|e] eqn:Hcreate;
    [|discriminate].
  destruct (FactoryFacts.create_data_source_ret _ _ _ Hcreate) as [Ht Hfresh].
  rewrite Ht.
  destruct auto_connect.
  - destruct (DataSources.connect w1 src) as [ok [w2 src2]] eqn:Hconn.
    intros [= -> <-]. exists (Factory.kind_of src), src2.
    apply FactoryFacts.connect_kind in Hconn as [[Hk Hc]|(k & _ & [=] & _)].
    by split_and!.
  - intros [= <-]. exists (Factory.kind_of src), src. by split_and!.
Qed.

(** A fresh manager started on the file watcher by name. *)
Lemma X14_successful_initialize_witness :
  let st := (Demo.world_with Demo.abc, DataSources.manager_init) in
  exists st1 t src,
    DataSources.initialize_source (DataSources.ByStr "File_Watcher") None true st
      = (true, st1) /\
    DataSources.to_type (DataSources.ByStr "File_Watcher") = Ret t /\
    DataSources.current_type st1.2 = Some t /\
    DataSources.current_source st1.2 = Some src /\
    Factory.kind_of src = t /\
    Factory.is_connected src = true.
Proof.
  intros st. eexists.
  destruct (X14_successful_initialize (DataSources.ByStr "File_Watcher") None true st
              (DataSources.initialize_source (DataSources.ByStr "File_Watcher")
                 None true st).2)
    as (t & src & Ht & Hty & Hsrc & Hk & Hc & _).
  - vm_compute. reflexivity.
  - exists t, src. split; [vm_compute; reflexivity|]. by split_and!.
Defined.

(** ** The consume_messages task *)
Module DagRun.
Import DataSources.

Lemma play_dirs items : forall w fw,
  archive_dir (FileWatcher.play items w fw).1 = archive_dir w /\
  error_dir (FileWatcher.play items w fw).1 = error_dir w.
Proof.
  induction items as [|[t a] items IH]; intros w fw; simpl; [done|].
  destruct (IH (apply_action t a w)
               (match a with
                | Event ev => FileWatcher.dispatch ev (apply_action t a w) fw
                | _ => fw
                end)) as (-> & ->).
  by destruct a.
Qed.

Lemma sleep_dirs ms st :
  archive_dir (FileWatcher.sleep ms st).1 = archive_dir st.1 /\
  error_dir (FileWatcher.sleep ms st).1 = error_dir st.1.
Proof.
  destruct st as [w fw]. unfold FileWatcher.sleep.
  by destruct (play_dirs
    (filter (fun i => Is_true (due (now w + ms) i)) (schedule w))
    (set_now (now w + ms)
       (set_schedule (filter (fun i => ¬ Is_true (due (now w + ms) i)) (schedule w)) w))
    fw) as (-> & ->).
Qed.

Lemma scan_step_dirs st p :
  archive_dir (FileWatcher.scan_step st p).1 = archive_dir st.1 /\
  error_dir (FileWatcher.scan_step st p).1 = error_dir st.1.
Proof.
  unfold FileWatcher.scan_step, FileWatcher._is_file_ready.
  destruct (input_dir st.1 !! p) as [f|]; [|by destruct st].
  destruct (sleep_dirs 500 st) as (Ha & He).
  destruct (FileWatcher.sleep 500 st) as [w1 fw1]. simpl in *.
  destruct (input_dir w1 !! p) as [f1|]; [|done].
  by destruct (_ && _).
Qed.

Lemma scan_dirs files : forall st,
  archive_dir (fold_left FileWatcher.scan_step files st).1 = archive_dir st.1 /\
  error_dir (fold_left FileWatcher.scan_step files st).1 = error_dir st.1.
Proof.
  induction files as [|p files IH]; intros st; simpl; [done|].
  destruct (IH (FileWatcher.scan_step st p)) as [-> ->]. apply scan_step_dirs.
Qed.

(** [connect] on a watcher that starts from an empty queue, with nothing
    else touching the directory. *)
Lemma connect_alone w fw :
  FileWatcher.is_connected fw = false ->
  FileWatcher.process_existing (FileWatcher.config fw) = true ->
  FileWatcher.file_queue fw = [] ->
  schedule w = [] ->
  watch_startable w = true ->
  exists w1 fw1,
    FileWatcher.connect (w, fw) = (true, (w1, fw1)) /\
    FileWatcher.is_connected fw1 = true /\
    FileWatcher.file_queue fw1
      = filter (fun p => Is_true (has_content w p)) (FileWatcher.json_files w) /\
    now w1 = now w + 500 * len (FileWatcher.json_files w) /\
    input_dir w1 = input_dir w /\ schedule w1 = [] /\
    archive_dir w1 = archive_dir w /\ error_dir w1 = error_dir w /\
    watch_startable w1 = true.
Proof.
  intros Hconn Hproc Hqueue Hs Hstart.
  destruct (Connecting.scan_alone (FileWatcher.json_files w) w fw Hs)
    as (Hq & Hnow & Hin & Hsch & _).
  { apply Connecting.json_files_NoDup. }
  { intros p _. rewrite Hqueue. apply not_elem_of_nil. }
  rewrite Hqueue in Hq. cbn [app] in Hq.
  rewrite filter_all in Hnow.
  2:{ apply Forall_forall. intros p [[f Hf] _]%Connecting.json_files_spec.
      unfold exists_. rewrite Hf. apply bool_decide_pack. by eexists. }
  destruct (scan_dirs (FileWatcher.json_files w) (w, fw)) as [Ha He].
  destruct (Connecting.scan_flags (FileWatcher.json_files w) (w, fw)) as [Hst _].
  unfold FileWatcher.connect. rewrite Hconn, Hproc.
  unfold FileWatcher._scan_existing_files. cbn [fst snd] in *.
  destruct (fold_left FileWatcher.scan_step (FileWatcher.json_files w) (w, fw))
    as [w1 fw1]. cbn [fst snd] in *.
  rewrite Hst, Hstart. eexists _, _. split; [reflexivity|].
  split_and!; try done. congruence.
Qed.

Section WithRuntime.
Context {RT : Runtime}.

Lemma while_files_yield_same queue : forall fr w v g queue1 w1,
  all_decode w ->
  FileWatcher.while_files queue fr w = (FileWatcher.Yield v g, queue1, w1) -> w1 = w.
Proof.
  induction queue as [|p queue IH]; intros fr w v g queue1 w1 Hall Hrun;
    simpl in Hrun; [done|].
  destruct (FileWatcher.message_count fr <? FileWatcher.max_messages fr); [|done].
  destruct (input_dir w !! p) as [f|] eqn:Hp; [|by eapply IH].
  destruct (Hall p f Hp) as [d Hd]. rewrite Hd in Hrun.
  destruct d as [|b|n|s0|items|fields]; try by injection Hrun as <- <- <- <-.
  destruct (FileWatcher.for_item fr items) as [[item rest]|]; [|by eapply IH].
  by injection Hrun as <- <- <- <-.
Qed.

Lemma gen_next_yield_same g st v g1 st1 :
  FileWatcher.is_connected st.2 = true -> all_decode st.1 ->
  FileWatcher.gen_next g st = (FileWatcher.Yield v g1, st1) -> st1.1 = st.1.
Proof.
  intros Hconn Hall.
  assert (forall fr, FileWatcher.enter_while fr st = (FileWatcher.Yield v g1, st1) ->
                     st1.1 = st.1) as Henter.
  { intros fr. unfold FileWatcher.enter_while. destruct st as [w fw].
    destruct (FileWatcher.while_files _ _ _) as [[s q] w1] eqn:Hw.
    intros [= -> <-]. by eapply while_files_yield_same. }
  unfold FileWatcher.gen_next. destruct g as [max|fr p rest|fr p|]; try done.
  - rewrite Hconn. apply Henter.
  - destruct (FileWatcher.for_item (FileWatcher.count_message fr) rest)
      as [[item rest1]|]; [|apply Henter].
    by intros [= <- <- <-].
  - apply Henter.
Qed.

Lemma for_messages_break_same fuel batch_size : forall g messages st r st1,
  FileWatcher.is_connected st.2 = true -> all_decode st.1 ->
  len messages < batch_size -> batch_size <= len r ->
  FileWatcher.for_messages fuel batch_size g messages st = Some (Ret r, st1) ->
  st1.1 = st.1.
Proof.
  induction fuel as [|fuel IH]; intros g messages st r st1 Hconn Hall Hlt Hfull Hrun;
    simpl in Hrun; [discriminate|].
  destruct (FileWatcher.gen_next g st) as [[v g1| |e] st2] eqn:Hnext.
  - pose proof (gen_next_yield_same _ _ _ _ _ Hconn Hall Hnext) as Hsame.
    apply FileWatcherRun.gen_next_yield_spec in Hnext as (_ & _ & _ & _ & Hc); [|done].
    destruct (batch_size <=? len (messages ++ [v])) eqn:Hle.
    + by injection Hrun as <- <-.
    + rewrite <- Hsame. eapply IH; [| | | |exact Hrun]; [|by rewrite Hsame|lia|done].
      destruct Hc as (_ & -> & _). done.
  - injection Hrun as <- <-. lia.
  - discriminate.
Qed.

(** A batch that fills, over files that all decode: the world is unchanged. *)
Lemma consume_batch_full_same fuel batch_size timeout_ms st :
  FileWatcher.is_connected st.2 = true -> all_decode st.1 ->
  1 <= batch_size ->
  batch_size <= len (flat_map (FileWatcher.records_of st.1) (FileWatcher.file_queue st.2)) ->
  (Z.to_nat batch_size < fuel)%nat ->
  exists fw1,
    FileWatcher.consume_batch fuel batch_size timeout_ms st
    = Some (Ret (take (Z.to_nat batch_size)
                   (flat_map (FileWatcher.records_of st.1)
                             (FileWatcher.file_queue st.2))), (st.1, fw1)).
Proof.
  intros Hconn Hall Hn Hhave Hfuel.
  set (batch := take (Z.to_nat batch_size)
                  (flat_map (FileWatcher.records_of st.1) (FileWatcher.file_queue st.2))).
  assert (len batch = batch_size) as Hlen.
  { unfold batch, len in *. rewrite length_take. lia. }
  destruct (FileWatcherRun.for_messages_spec fuel batch_size
              (FileWatcher.consume_messages batch_size) [] st)
    as (st1 & Hfor & Hc & _); [done|simpl; unfold len; simpl; lia|simpl; lia|].
  change (FileWatcher.for_messages fuel batch_size
            (FileWatcher.consume_messages batch_size) [] st = Some (Ret batch, st1))
    in Hfor.
  assert (st1.1 = st.1) as Hsame.
  { eapply for_messages_break_same; [exact Hconn|exact Hall| | |exact Hfor];
      [unfold len; simpl; lia|lia]. }
  destruct st1 as [w1 fw1]. simpl in Hsame. subst w1.
  exists fw1. unfold FileWatcher.consume_batch. rewrite Hfor.
  destruct fuel as [|fuel]; [lia|]. cbn [FileWatcher.wait_for_files].
  by rewrite Hlen, Z.ltb_irrefl.
Qed.

Lemma records_of_same_input w w1 p :
  input_dir w1 = input_dir w -> FileWatcher.records_of w1 p = FileWatcher.records_of w p.
Proof. intros Hin. unfold FileWatcher.records_of. by rewrite Hin. Qed.

Lemma backlog_same_input w w1 : input_dir w1 = input_dir w -> backlog w1 = backlog w.
Proof.
  intros Hin. unfold backlog, FileWatcher.json_files. rewrite Hin.
  rewrite (list_filter_iff (fun p => Is_true (has_content w1 p))
             (fun p => Is_true (has_content w p))).
  - apply FileWatcherRun.flat_map_ext_all. intros p. by apply records_of_same_input.
  - intros p. unfold has_content. by rewrite Hin.
Qed.

(** The manager after [finally]. *)
Lemma finally_closed r st r1 w1 m :
  (current_source st.2 = None -> current_type st.2 = None) ->
  Dag.finally r st = Some (r1, (w1, m)) ->
  r1 = r /\
  exists m1, m = Some m1 /\ current_source m1 = None /\ current_type m1 = None.
Proof.
  unfold Dag.finally, manager_close. destruct st as [w [src ty]]. cbn [fst snd].
  destruct src as [src|]; cbn.
  - destruct (close w src) as [r0 [w2 src2]]. intros _ [= <- <- <-].
    split; [done|]. by eexists.
  - intros Hty [= <- <- <-]. split; [done|]. eexists. split; [done|].
    split; [done|]. by apply Hty.
Qed.

Lemma initialize_fresh_type source_type config auto_connect w ok st1 :
  initialize_source source_type config auto_connect (w, manager_init) = (ok, st1) ->
  current_source st1.2 = None -> current_type st1.2 = None.
Proof.
  unfold initialize_source. cbn.
  destruct (create_data_source source_type config) as [src|e].
  - destruct (to_type source_type) as [t|e].
    + destruct auto_connect.
      * destruct (connect w src) as [s [w2 src2]]. by intros [= <- <-].
      * by intros [= <- <-].
    + by intros [= <- <-].
  - by intros [= <- <-].
Qed.

End WithRuntime.
End DagRun.

(** X15.  However the consume_messages task ends, by returning its messages
    or by raising AirflowException, the manager it created no longer holds
    a source: the [finally] clause has closed it.  Only when looking up the
    source type itself raises is there no manager, and then nothing was
    touched. *)
Theorem X15_task_always_closes_manager {RT : Runtime} (fuel : nat)
    (vars : Dag.Variables) (w w1 : world) (r : Dag.task_result)
    (m : option DataSources.DataSourceManager) :
  Dag.consume_messages fuel vars w = Some (r, (w1, m)) ->
  match m with
  | Some m1 =>
      DataSources.current_source m1 = None /\ DataSources.current_type m1 = None
  | None => raises (Dag.data_source_type vars) /\ w1 = w
  end.
Proof.
  unfold Dag.consume_messages.
  assert (forall r0 st,
            (DataSources.current_source st.2 = None ->
             DataSources.current_type st.2 = None) ->
            Dag.finally r0 st = Some (r, (w1, m)) ->
            match m with
            | Some m1 => DataSources.current_source m1 = None /\
                         DataSources.current_type m1 = None
            | None => raises (Dag.data_source_type vars) /\ w1 = w
            end) as Hfin.
  { intros r0 st Hty Hrun.
    apply DagRun.finally_closed in Hrun as (_ & m1 & -> & Hs & Ht); done. }
  destruct (Dag.data_source_type vars) as [ty|e].
  2:{ by intros [= <- <- <-]. }
  destruct (if String.eqb (lower ty) "kafka" then _ else _) as [n|e];
    [|by apply Hfin].
  destruct (DataSources.initialize_source _ _ _ _) as [ok st1] eqn:Hinit.
  pose proof (DagRun.initialize_fresh_type _ _ _ _ _ _ Hinit) as Hty.
  destruct ok; cbn [negb]; [|by apply Hfin].
  unfold DataSources.manager_consume_batch.
  destruct (DataSources.current_source st1.2) as [src|] eqn:Hsrc.
  - destruct (DataSources.consume_batch fuel n 5000 st1.1 src)
      as [[[messages|e] [w2 src2]]|]; [| |discriminate].
    + unfold DataSources.manager_get_status. cbn. by apply Hfin.
    + by apply Hfin.
  - apply Hfin. intros _. by apply Hty.
Qed.

(** A run over a backlog of three files. *)
Lemma X15_task_always_closes_manager_witness :
  let vars := {| Dag.data_source_type := Ret "file_watcher"%string;
                 Dag.kafka_batch_size := Ret 50; Dag.file_batch_size := Ret 50 |} in
  exists r w1 m1,
    Dag.consume_messages (RT := Demo.runtime) 20 vars (Demo.world_with Demo.abc)
      = Some (r, (w1, Some m1)) /\
    DataSources.current_source m1 = None /\ DataSources.current_type m1 = None.
Proof.
  intros vars. eexists _, _, _. split; [vm_compute; reflexivity|].
  eapply (X15_task_always_closes_manager (RT := Demo.runtime) 20 vars
            (Demo.world_with Demo.abc) _ _ (Some _)).
  vm_compute. reflexivity.
Defined.



Lemma file_watcher_close_world st :
  (FileWatcher.close st).1 = Ret tt /\ (FileWatcher.close st).2.1 = st.1.
Proof.
  unfold FileWatcher.close. destruct st as [w fw]. simpl.
  destruct (FileWatcher.observer fw) as [[| |]|]; try done.
  by destruct (watch_stoppable w).
Qed.

(** X17.  A backlog that is served again and again.  When the task runs on
    the file watcher over an input directory whose files all decode, have
    modification times that differ from one another (so that the order of
    the scan is determined) and hold at least [batch_size >= 1] records, with
    nothing else touching the directory and the observer able to start, it
    returns the first [batch_size] records of the backlog and leaves the
    input, archive and error directories exactly as they were: no file is
    archived.  All that was assumed of the directory holds again afterwards,
    so the next run returns the same records. *)
Theorem X17_backlog_is_served_again {RT : Runtime} (fuel : nat)
    (vars : Dag.Variables) (w : world) (ty : string) (batch_size : Z) :
  Dag.data_source_type vars = Ret ty ->
  lower ty = "file_watcher"%string ->
  Dag.file_batch_size vars = Ret batch_size ->
  1 <= batch_size ->
  schedule w = [] -> watch_startable w = true ->
  all_decode w ->
  distinct_mtimes w ->
  batch_size <= len (backlog w) ->
  (Z.to_nat batch_size < fuel)%nat ->
  exists info w1 m1,
    Dag.consume_messages fuel vars w
    = Some (Dag.Returned (take (Z.to_nat batch_size) (backlog w)) info, (w1, Some m1)) /\
    input_dir w1 = input_dir w /\ archive_dir w1 = archive_dir w /\
    error_dir w1 = error_dir w /\
    schedule w1 = [] /\ watch_startable w1 = true /\
    all_decode w1 /\ distinct_mtimes w1 /\ backlog w1 = backlog w.
Proof.
  intros Hty Hlower Hn Hpos Hs Hstart Hall Hdistinct Hhave Hfuel.
  assert (String.eqb (lower ty) "kafka" = false) as Hk by by rewrite Hlower.
  assert (String.eqb (lower ty) "file_watcher" = true) as Hf by by rewrite Hlower.
  unfold Dag.consume_messages. rewrite Hty, Hk, Hn.
  unfold DataSources.initialize_source, DataSources.create_data_source,
    DataSources.to_type, DataSources.DataSourceType_of.
  cbn [DataSources.current_source DataSources.manager_init]. rewrite Hk, Hf.
  rewrite bool_decide_eq_false_2.
  2:{ intros Hnot. apply Hnot. unfold DataSources.registered_sources. set_solver. }
  cbn [DataSources.connect]. unfold DataSources.FileDS.connect.
  destruct (DagRun.connect_alone w
              (DataSources.f_watcher (DataSources.FileDS.init Dag.FILE_WATCHER_CONFIG)))
    as (w1 & fw1 & Hconn & Hc1 & Hq1 & Hnow1 & Hin1 & Hs1 & Ha1 & He1 & Hst1);
    [done|done|done|done|done|].
  rewrite Hconn. cbn [negb].
  unfold DataSources.manager_consume_batch.
  cbn [DataSources.current_source snd fst DataSources.consume_batch].
  unfold DataSources.FileDS.consume_batch. cbn [DataSources.f_watcher].
  assert (all_decode w1) as Hall1.
  { intros p f. rewrite Hin1. apply Hall. }
  assert (flat_map (FileWatcher.records_of w1) (FileWatcher.file_queue fw1) = backlog w)
    as Hrec.
  { rewrite Hq1. unfold backlog. apply FileWatcherRun.flat_map_ext_all.
    intros p. by apply DagRun.records_of_same_input. }
  destruct (DagRun.consume_batch_full_same fuel batch_size 5000 (w1, fw1))
    as (fw2 & Hrun); [done|done|done|cbn [fst snd]; by rewrite Hrec|done|].
  cbn [fst snd] in Hrun. rewrite Hrec in Hrun. rewrite Hrun.
  unfold DataSources.manager_get_status.
  cbn [DataSources.current_source snd fst].
  unfold Dag.finally, DataSources.manager_close.
  cbn [DataSources.current_source snd fst DataSources.close].
  unfold DataSources.FileDS.close. cbn [DataSources.f_watcher].
  destruct (file_watcher_close_world (w1, fw2)) as [Hr Hw].
  destruct (FileWatcher.close (w1, fw2)) as [r [w3 fw3]]. cbn [fst snd] in Hr, Hw.
  subst r w3. eexists _, w1, _. split; [reflexivity|].
  split_and!; try done.
  - unfold distinct_mtimes. rewrite Hin1. apply Hdistinct.
  - by apply DagRun.backlog_same_input.
Qed.

(** Three files holding four records, two asked for on every run. *)
Lemma X17_backlog_is_served_again_witness :
  let vars := {| Dag.data_source_type := Ret "file_watcher"%string;
                 Dag.kafka_batch_size := Ret 50; Dag.file_batch_size := Ret 2 |} in
  let w := Demo.world_with Demo.abc in
  exists info w1 m1,
    Dag.consume_messages (RT := Demo.runtime) 5 vars w
    = Some (Dag.Returned [Demo.obj "A"; JStr "x"] info, (w1, Some m1)) /\
    input_dir w1 = input_dir w /\ archive_dir w1 = archive_dir w /\
    error_dir w1 = error_dir w /\
    backlog (RT := Demo.runtime) w1 = backlog (RT := Demo.runtime) w.
Proof.
  intros vars w.
  destruct (X17_backlog_is_served_again (RT := Demo.runtime) 5 vars w
              "file_watcher" 2)
    as (info & w1 & m1 & Hrun & Hin & Ha & He & _ & _ & _ & _ & Hb).
  - reflexivity.
  - reflexivity.
  - reflexivity.
  - lia.
  - reflexivity.
  - reflexivity.
  - intros p f Hp.
    assert (f = Demo.file_at 10 "{A}" \/ f = Demo.file_at 20 "[xy]"
            \/ f = Demo.file_at 30 "{C}") as Hf.
    { unfold w, Demo.world_with, Demo.abc in Hp. cbn [input_dir] in Hp.
      apply lookup_insert_Some in Hp as [[_ <-]|[_ Hp]]; [by left|].
      apply lookup_insert_Some in Hp as [[_ <-]|[_ Hp]]; [by right; left|].
      apply lookup_insert_Some in Hp as [[_ <-]|[_ Hp]]; [by right; right|].
      by rewrite lookup_empty in Hp. }
    destruct Hf as [->|[->| ->]]; eexists; vm_compute; reflexivity.
  - intros p q f g Hp Hq Hm.
    unfold w, Demo.world_with, Demo.abc in Hp, Hq. cbn [input_dir] in Hp, Hq.
    repeat (apply lookup_insert_Some in Hp as [[<- <-]|[? Hp]]);
      try (by rewrite lookup_empty in Hp);
      repeat (apply lookup_insert_Some in Hq as [[<- <-]|[? Hq]]);
      try (by rewrite lookup_empty in Hq);
      first [reflexivity | discriminate Hm].
  - vm_compute. discriminate.
  - simpl. lia.
  - exists info, w1, m1. split; [exact Hrun|]. by split_and!.
Defined.

(** ** A file that arrives during a call *)
Module Arrival.
Import FileWatcher.

Section WithRuntime.
Context {RT : Runtime}.

(** The first loop of [consume_batch] over an empty queue. *)
Lemma for_messages_nothing_queued fuel batch_size max w fw :
  is_connected fw = true -> file_queue fw = [] ->
  for_messages (S fuel) batch_size (Fresh max) [] (w, fw) = Some (Ret [], (w, fw)).
Proof.
  intros Hc Hq. destruct fw as [cfg queue obs connected]. simpl in *.
  by subst queue connected.
Qed.

(** One pass of the polling loop that finds the queue empty. *)
Lemma wait_for_files_poll fuel batch_size timeout_ms start_time messages st :
  len messages < batch_size -> now st.1 - start_time < timeout_ms ->
  file_queue st.2 = [] -> 0 <= polling_interval (config st.2) ->
  wait_for_files (S fuel) batch_size timeout_ms start_time messages st
  = wait_for_files fuel batch_size timeout_ms start_time messages
      (sleep (polling_interval (config st.2) * 1000) st).
Proof.
  intros Hlen Htime Hq Hpoll. cbn [wait_for_files].
  apply Z.ltb_lt in Hlen, Htime. rewrite Hlen, Htime, Hq. cbn [andb].
  by replace (polling_interval (config st.2) <? 0) with false
    by (symmetry; apply Z.ltb_ge; lia).
Qed.

(** One pass of the polling loop that finds files queued. *)
Lemma wait_for_files_read fuel batch_size timeout_ms start_time messages st p queue :
  len messages < batch_size -> now st.1 - start_time < timeout_ms ->
  file_queue st.2 = p :: queue ->
  wait_for_files (S fuel) batch_size timeout_ms start_time messages st
  = match for_messages fuel batch_size
            (consume_messages (batch_size - len messages)) messages st with
    | Some (Ret messages1, st1) =>
        wait_for_files fuel batch_size timeout_ms start_time messages1 st1
    | other => other
    end.
Proof.
  intros Hlen Htime Hq. cbn [wait_for_files].
  apply Z.ltb_lt in Hlen, Htime. by rewrite Hlen, Htime, Hq.
Qed.

(** A sleep during which a producer writes [p] and the watch reports it. *)
Lemma sleep_delivers ms w fw p text t1 t2 :
  observer fw = Some Alive -> file_queue fw = [] ->
  schedule w = [(t1, Put p text); (t2, Event (Created false p))] ->
  t1 <= now w + ms -> t2 <= now w + ms ->
  ends_with p ".json" = true ->
  sleep ms (w, fw)
  = (set_input (<[p := {| content := text; mtime := t1 |}]> (input_dir w))
       (set_now (now w + ms) (set_schedule [] w)),
     set_queue [p] fw).
Proof.
  intros Ho Hq Hs Ht1 Ht2 Hjson. unfold sleep. rewrite Hs.
  assert (Is_true (due (now w + ms) (t1, Put p text))) as Hd1.
  { unfold due. apply Is_true_eq_left, Z.leb_le. simpl. lia. }
  assert (Is_true (due (now w + ms) (t2, Event (Created false p)))) as Hd2.
  { unfold due. apply Is_true_eq_left, Z.leb_le. simpl. lia. }
  rewrite !filter_cons_True by done.
  rewrite !filter_cons_False by (intros Hn; by apply Hn).
  rewrite !filter_nil. cbn [play apply_action].
  unfold dispatch, on_created. rewrite Ho, Hjson. cbn [negb andb].
  unfold add_file_to_queue, exists_. cbn [input_dir set_input].
  rewrite lookup_insert_eq, Hq.
  rewrite bool_decide_eq_true_2 by by eexists.
  rewrite bool_decide_eq_true_2 by apply not_elem_of_nil.
  done.
Qed.

End WithRuntime.
End Arrival.

(** X19.  A file that arrives while [consume_batch] is waiting is read by
    the same call.  A connected watcher with an empty queue and a running
    observer polls; when during its first polling sleep a producer writes a
    file named *.json that decodes and the watch then reports its creation,
    and the timeout is longer than one polling interval, the call returns
    the records of that file (cut to [batch_size]). *)
Theorem X19_file_arriving_during_wait {RT : Runtime} (batch_size timeout_ms : Z)
    (w : world) (fw : FileWatcher.watcher) (p text : string) (t1 t2 : Z)
    (data : json) :
  FileWatcher.is_connected fw = true ->
  FileWatcher.observer fw = Some FileWatcher.Alive ->
  FileWatcher.file_queue fw = [] ->
  schedule w = [(t1, Put p text); (t2, Event (Created false p))] ->
  0 < FileWatcher.polling_interval (FileWatcher.config fw) ->
  t1 <= now w + FileWatcher.polling_interval (FileWatcher.config fw) * 1000 ->
  t2 <= now w + FileWatcher.polling_interval (FileWatcher.config fw) * 1000 ->
  FileWatcher.polling_interval (FileWatcher.config fw) * 1000 < timeout_ms ->
  1 <= batch_size ->
  ends_with p ".json" = true ->
  json_load text = Loaded data ->
  exists fuel0, forall fuel, (fuel0 <= fuel)%nat ->
  exists st1,
    FileWatcher.consume_batch fuel batch_size timeout_ms (w, fw)
    = Some (Ret (take (Z.to_nat batch_size)
                   match data with JArr items => items | _ => [data] end), st1).
Proof.
  intros Hconn Hobs Hqueue Hsched Hpoll Ht1 Ht2 Htimeout Hn Hjson Hload.
  set (P := FileWatcher.polling_interval (FileWatcher.config fw) * 1000) in *.
  exists (Z.to_nat batch_size + Z.to_nat timeout_ms + 5)%nat. intros fuel Hfuel.
  unfold FileWatcher.consume_batch, FileWatcher.consume_messages.
  destruct fuel as [|fuel]; [lia|].
  rewrite Arrival.for_messages_nothing_queued by done. cbn [fst].
  rewrite Arrival.wait_for_files_poll;
    [|unfold len; simpl; lia|simpl; lia|done|simpl; lia].
  cbn [snd]. fold P.
  rewrite (Arrival.sleep_delivers P w fw p text t1 t2) by done.
  set (w1 := set_input _ _). set (fw1 := FileWatcher.set_queue [p] fw).
  destruct fuel as [|fuel]; [lia|].
  rewrite (Arrival.wait_for_files_read _ _ _ _ _ _ p []);
    [|unfold len; simpl; lia|simpl; lia|done].
  destruct (FileWatcherRun.for_messages_spec fuel batch_size
              (FileWatcher.consume_messages (batch_size - len (@nil json))) []
              (w1, fw1))
    as (st1 & Hfor & Hc & Hshort);
    [by destruct fw|unfold len; simpl; lia|unfold len; simpl; lia|].
  rewrite Hfor.
  assert (FileWatcher.upcoming
            (FileWatcher.consume_messages (batch_size - len (@nil json))) (w1, fw1)
          = match data with JArr items => items | _ => [data] end) as Hup.
  { unfold FileWatcher.upcoming, FileWatcher.consume_messages.
    cbn [FileWatcher.pending app fst snd FileWatcher.file_queue fw1
         FileWatcher.set_queue flat_map].
    rewrite app_nil_r. unfold FileWatcher.records_of, w1. cbn [input_dir set_input].
    rewrite lookup_insert_eq. cbn [content]. rewrite Hload. by destruct data. }
  rewrite Hup in *.
  replace (Z.to_nat (FileWatcher.budget
             (FileWatcher.consume_messages (batch_size - len (@nil json)))))
    with (Z.to_nat batch_size) in * by (unfold len; simpl; f_equal; lia).
  cbn [app] in *.
  set (batch := take (Z.to_nat batch_size) _) in *.
  destruct Hc as ((Hnow & Hsch & _ & _) & _ & Hcfg & _).
  destruct st1 as [w2 fw2]. cbn [fst snd] in *.
  destruct (FileWatcherRun.wait_for_files_idle batch_size timeout_ms (now w) batch fw2
              (Z.to_nat timeout_ms) fuel w2) as (w3 & Hwait & _).
  - unfold quiet. rewrite Hsch. unfold w1. cbn. constructor.
  - destruct (decide (len batch < batch_size)) as [Hlt|Hge].
    + left. by apply Hshort.
    + right. lia.
  - rewrite Hcfg. by destruct fw.
  - rewrite Hcfg. replace (FileWatcher.config fw1) with (FileWatcher.config fw)
      by by destruct fw.
    fold P. rewrite Hnow. unfold w1. cbn [now set_input set_now]. nia.
  - lia.
  - rewrite Hwait. by eexists.
Qed.

(** A watcher polling every 5 s; the file appears after 2 s and is reported
    after 3 s. *)
Lemma X19_file_arriving_during_wait_witness :
  let w := set_schedule [(102000, Put "n.json" "{N}");
                         (103000, Event (Created false "n.json"))]
             (Demo.world_with ∅) in
  exists fuel0, forall fuel, (fuel0 <= fuel)%nat ->
  exists st1,
    FileWatcher.consume_batch (RT := Demo.runtime) fuel 10 12000
      (w, Demo.watching FileWatcher.default_config [])
    = Some (Ret (take (Z.to_nat 10) [Demo.obj "N"]), st1).
Proof.
  intros w.
  apply (X19_file_arriving_during_wait (RT := Demo.runtime) 10 12000 w
           (Demo.watching FileWatcher.default_config []) "n.json" "{N}"
           102000 103000 (Demo.obj "N")).
  - reflexivity.
  - reflexivity.
  - reflexivity.
  - reflexivity.
  - simpl. lia.
  - simpl. lia.
  - simpl. lia.
  - simpl. lia.
  - lia.
  - reflexivity.
  - reflexivity.
Defined.
